(** * WordSurf: curve platforms, level layout and word-surf scoring

    A shallow embedding of the geometry generator ([geometry-generator.js]),
    the curve function and the text utilities of [utils.js], the player
    physics and the key handlers ([player.js]), the frame update of
    [game.js] and the content pipeline ([content-pipeline.js]), followed by
    the properties proved about them.

    Number model.  JavaScript numbers are embedded as real numbers [R]:
    [Math.sin], [Math.cos] and [Math.PI] are [sin], [cos] and [PI],
    [Math.floor] is [Zfloor], [Math.max]/[Math.min] are [Rmax]/[Rmin].
    Rounding, infinities and NaN are outside the model.  Counters that only
    ever hold integers (word index, score, perfect surfs) are [Z].

    String model.  A string is a [string] whose characters are code units
    below 256; the white space class of [trim] and of the regular
    expression [\s] is restricted to that range accordingly. *)

From Stdlib Require Import Reals Lra Lia ZArith List Bool String Ascii Arith Sorted Factorial.
From Stdlib Require Import DecimalString DecimalNat.

Import ListNotations.

Local Open Scope R_scope.

(** ** config.js *)

Module CONFIG.

Module game.
Definition playerSpeed : R := 5.
Definition jumpForce : R := 8.
Definition gravity : R := 0.5.
Definition platformWidth : R := 2.
Definition minPlatformHeight : R := 0.5.
Definition maxCurviness : R := 10.
Definition scorePerWord : Z := 10.
Definition bonusMultiplier : Z := 2.
End game.

Module content.
Definition minSentenceLength : nat := 3.
Definition defaultCurviness : R := 5.
End content.

End CONFIG.

(** ** utils.js *)

Module Utils.

(** The code units below 256 matched by [\s] and stripped by [trim]:
    tab, line feed, vertical tab, form feed, carriage return, space and
    no-break space. *)
Definition isSpace (c : ascii) : bool :=
  let n := nat_of_ascii c in
  ((9 <=? n) && (n <=? 13) || (n =? 32) || (n =? 160))%nat.

Fixpoint trimStart (s : string) : string :=
  match s with
  | EmptyString => EmptyString
  | String c rest => if isSpace c then trimStart rest else s
  end.

(** [trimEnd] keeps a character when it is not white space or when
    something survives to its right. *)
Fixpoint trimEnd (s : string) : string :=
  match s with
  | EmptyString => EmptyString
  | String c rest =>
      match trimEnd rest with
      | EmptyString => if isSpace c then EmptyString else String c EmptyString
      | kept => String c kept
      end
  end.

Definition trim (s : string) : string := trimEnd (trimStart s).

(** [s.split(/\s+/)]: [cur] is the piece being read, [inSep] tells that
    the previous character belonged to a separator.  A separator at the
    very start or end of the string leaves an empty piece there, and the
    empty string splits into one empty piece. *)
Fixpoint splitAux (inSep : bool) (cur : string) (s : string) : list string :=
  match s with
  | EmptyString => [cur]
  | String c rest =>
      if isSpace c then
if inSep then splitAux true EmptyString rest
else cur :: splitAux true EmptyString rest
      else splitAux false (cur ++ String c EmptyString) rest
  end.

Definition splitWhitespace (s : string) : list string :=
  splitAux false EmptyString s.

(** [countWords]: a falsy text (the empty string stands for a missing
    one as well) counts zero words. *)
Definition countWords (text : string) : nat :=
  match text with
  | EmptyString => 0%nat
  | _ => List.length (splitWhitespace (trim text))
  end.

(** [generateCurve(x, length, curviness)], statement by statement. *)
Definition generateCurve (x length curviness : R) : R :=
  let normalizedCurviness := curviness / CONFIG.game.maxCurviness in
  let amplitude := normalizedCurviness * 5 in
  let frequency := 1 + normalizedCurviness * 2 in
  let sineWave := amplitude * sin ((2 * PI * frequency * x) / length) in
  let angle := -35 * (PI / 180) in
  let rotatedY := sineWave * cos angle - x * sin angle in
  let globalDownwardSlope := -0.5 * (x / length) in
  rotatedY + globalDownwardSlope.

(** The sentence ends of the class [[.!?]]. *)
Definition isSentenceEnd (c : ascii) : bool :=
  let n := nat_of_ascii c in
  ((n =? 46) || (n =? 33) || (n =? 63))%nat.

(** [if (sentence.length > 0) sentences.push(sentence)] *)
Definition pushSentence (sentence : string) : list string :=
  match sentence with
  | EmptyString => []
  | _ => [sentence]
  end.

(** The [exec] loop of [splitIntoSentences] over the expression
    [/([.!?][\s\u00A0]|[.!?]$)/g], followed by the handling of the
    remaining text: [piece] is [text.substring(lastIndex, i)] for the
    position [i] the scan has reached, [s] the text from [i] on.  A match
    is a sentence end followed by a white space character, which the match
    swallows, or a sentence end that is the last character of the text. *)
Fixpoint scanSentences (piece s : string) : list string :=
  match s with
  | EmptyString => pushSentence (trim piece)
  | String c rest =>
      if isSentenceEnd c then
        match rest with
        | EmptyString => pushSentence (trim (piece ++ String c EmptyString))
        | String d rest' =>
            if isSpace d
            then pushSentence (trim (piece ++ String c EmptyString))
                   ++ scanSentences EmptyString rest'
            else scanSentences (piece ++ String c EmptyString) rest
        end
      else scanSentences (piece ++ String c EmptyString) rest
  end.

(** [splitIntoSentences]: a falsy text gives the placeholder, a text in
    which no sentence is found is returned whole, trimmed. *)
Definition splitIntoSentences (text : string) : list string :=
  match text with
  | EmptyString => ["No content available"%string]
  | _ =>
      let sentences :=
        filter (fun s => (0 <? String.length (trim s))%nat)
          (scanSentences EmptyString text) in
      match sentences with
      | [] => [trim text]
      | _ => sentences
      end
  end.

End Utils.

(** The curve function as section 4.1 of the specification words it. *)
Module CurveSpec.

Definition theta : R := -35 * (PI / 180).

Definition curveHeight (x length curviness : R) : R :=
  let n := curviness / 10 in
  let amplitude := 5 * n in
  let frequency := 1 + 2 * n in
  let waveform := amplitude * sin (2 * PI * frequency * x / length) in
  waveform * cos theta - x * sin theta + (- 0.5 * (x / length)).

End CurveSpec.

(** ** geometry-generator.js *)

Module GeometryGenerator.

(** A mesh of the scene graph, reduced to what this program reads and
    writes: the outline of its geometry, its vertical offset
    ([position.y]) and the two [userData] entries. *)
Record Mesh : Type := mkMesh {
  geometry : list (R * R);
  mesh_position_y : R;
  isCollidable : bool;
  curveFunction : option (R -> R)
}.

(** [x.toFixed(1)]: the sign and the integer [n] whose tenth is nearest
    to [|x|], the larger one on a tie. *)
Definition toFixed1 (x : R) : bool * Z :=
  if Rlt_dec x 0 then (true, Zfloor (- x * 10 + 1 / 2))
  else (false, Zfloor (x * 10 + 1 / 2)).

(** The cache key [`platform-${length}-${width}-${curviness.toFixed(1)}`],
    kept as its three components: two keys are the same string when the
    lengths, the widths and the rounded curviness agree. *)
Record CacheKey : Type := mkKey {
  key_length : R;
  key_width : R;
  key_curviness : bool * Z
}.

Definition cacheKey (length width curviness : R) : CacheKey :=
  mkKey length width (toFixed1 curviness).

Definition key_eq_dec (a b : CacheKey) : {a = b} + {a <> b}.
Proof.
  destruct a as [l1 w1 [s1 n1]], b as [l2 w2 [s2 n2]].
  destruct (Req_dec_T l1 l2) as [El | Nl]; [ | right; congruence].
  destruct (Req_dec_T w1 w2) as [Ew | Nw]; [ | right; congruence].
  destruct (Bool.bool_dec s1 s2) as [Es | Ns]; [ | right; congruence].
  destruct (Z.eq_dec n1 n2) as [En | Nn]; [ | right; congruence].
  left; congruence.
Qed.

(** [geometryCache]: an object used as a map from keys to meshes. *)
Definition Cache : Type := list (CacheKey * Mesh).

Fixpoint cacheGet (cache : Cache) (k : CacheKey) : option Mesh :=
  match cache with
  | [] => None
  | (k', m) :: rest => if key_eq_dec k k' then Some m else cacheGet rest k
  end.

Definition cacheSet (cache : Cache) (k : CacheKey) (m : Mesh) : Cache :=
  (k, m) :: cache.

(** [init] empties the cache. *)
Definition init : Cache := [].

(** [Math.max(10, Math.floor(length * 2))] *)
Definition platformSegments (length : R) : Z := Z.max 10 (Zfloor (length * 2)).

(** The loop indices [0 .. segments]. *)
Definition indices (segments : Z) : list nat := seq 0 (S (Z.to_nat segments)).

Definition topPoint (length curviness : R) (segments : Z) (i : nat) : R * R :=
  let x := (INR i / IZR segments) * length in
  let y := Utils.generateCurve x length curviness in
  (x, y).

Definition bottomPoint (length curviness : R) (segments : Z) (i : nat) : R * R :=
  let x := (INR i / IZR segments) * length in
  let y := Utils.generateCurve x length curviness - CONFIG.game.minPlatformHeight in
  (x, y).

(** [geometry.translate(dx, 0, 0)] *)
Definition translateX (dx : R) (pts : list (R * R)) : list (R * R) :=
  map (fun p => (fst p + dx, snd p)) pts.

(** The mesh [createCurvedPlatform] builds when the cache has no entry:
    the top surface forward, the bottom backward, centred on the X axis,
    with the collision data attached. *)
Definition buildCurvedPlatform (length width curviness : R) : Mesh :=
  let segments := platformSegments length in
  let points := map (topPoint length curviness segments) (indices segments) in
  let bottom := map (bottomPoint length curviness segments) (rev (indices segments)) in
  {| geometry := translateX (- length / 2) (points ++ bottom);
     mesh_position_y := 0;
     isCollidable := true;
     curveFunction := Some (fun x =>
       let curveX := x + length / 2 in
       Utils.generateCurve curveX length curviness) |}.

(** One sample of the text ribbon: the top and the bottom vertex, offset
    from the curve along its normal. *)
Definition ribbonVertices (platformLength curviness : R) (segments : Z) (i : nat)
  : list (R * R) :=
  let x := (INR i / IZR segments) * platformLength - platformLength / 2 in
  let normalizedX := (INR i / IZR segments) * platformLength in
  let y := Utils.generateCurve normalizedX platformLength curviness in
  let delta := 0.01 in
  let y1 := Utils.generateCurve (Rmax 0 (normalizedX - delta)) platformLength curviness in
  let y2 := Utils.generateCurve (Rmin platformLength (normalizedX + delta))
  platformLength curviness in
  let tangentX := 2 * delta in
  let tangentY := y2 - y1 in
  let tangentLength := sqrt (tangentX * tangentX + tangentY * tangentY) in
  let normalizedTangentX := tangentX / tangentLength in
  let normalizedTangentY := tangentY / tangentLength in
  let normalX := - normalizedTangentY in
  let normalY := normalizedTangentX in
  let textHeight := 0.8 in
  [ (x + normalX * textHeight / 2, y + normalY * textHeight / 2);
    (x - normalX * textHeight / 2, y - normalY * textHeight / 2) ].

(** [createTextOnPlatform]: the texture is the renderer's business; the
    mesh carries no collision data. *)
Definition createTextOnPlatform (text : string) (platformLength curviness : R) : Mesh :=
  let segments := Z.max 20 (Zfloor (platformLength * 3)) in
  {| geometry := flat_map (ribbonVertices platformLength curviness segments)
       (indices segments);
     mesh_position_y := 0;
     isCollidable := false;
     curveFunction := None |}.

Record Sentence : Type := mkSentence {
  sentence_id : option string;
  sentence_text : string;
  sentence_length : option R;
  sentence_curviness : option R
}.

Record UserData : Type := mkUserData {
  ud_sentence : Sentence;
  ud_length : R;
  ud_curviness : R;
  ud_words : list string
}.

(** A platform container; [name] keeps what follows the [platform-]
    prefix: the sentence id, or the index when the id is missing or
    empty. *)
Record Platform : Type := mkPlatform {
  name : string + nat;
  position_x : R;
  position_y : R;
  children : list Mesh;
  userData : UserData
}.

Record Level : Type := mkLevel {
  level_children : list Platform;
  totalLength : R;
  sentenceCount : nat
}.

(** [sentence.length || Utils.countWords(sentence.text)] *)
Definition wordCountOf (sentence : Sentence) : R :=
  match sentence_length sentence with
  | Some l => if Req_dec_T l 0 then INR (Utils.countWords (sentence_text sentence)) else l
  | None => INR (Utils.countWords (sentence_text sentence))
  end.

(** [sentence.id || index] *)
Definition nameOf (sentence : Sentence) (index : nat) : string + nat :=
  match sentence_id sentence with
  | Some EmptyString | None => inr index
  | Some i => inl i
  end.

Definition setMeshY (m : Mesh) (y : R) : Mesh :=
  {| geometry := geometry m; mesh_position_y := y;
     isCollidable := isCollidable m; curveFunction := curveFunction m |}.

Definition setPosition (p : Platform) (x y : R) : Platform :=
  {| name := name p; position_x := x; position_y := y;
     children := children p; userData := userData p |}.

(** What the loop of [createLevel] has produced so far: the platforms
    added, the running [nextStartX] and the geometry cache. *)
Record Layout : Type := mkLayout {
  lay_platforms : list Platform;
  lay_nextStartX : R;
  lay_cache : Cache
}.

Section SceneGraph.

(** [Mesh.clone()] belongs to the rendering engine; the generator is
    embedded for an arbitrary one. *)
Variable clone : Mesh -> Mesh.

(** [createCurvedPlatform]: the mesh returned and the cache left. *)
Definition createCurvedPlatform (cache : Cache) (length width curviness : R)
  : Mesh * Cache :=
  let key := cacheKey length width curviness in
  match cacheGet cache key with
  | Some cached => (clone cached, cache)
  | None =>
      let mesh := buildCurvedPlatform length width curviness in
      (mesh, cacheSet cache key (clone mesh))
  end.

Definition createPlatform (cache : Cache) (sentence : Sentence) (index : nat)
  : Platform * Cache :=
  let wordCount := wordCountOf sentence in
  let platformLength := wordCount * 2 in
  let curviness :=
    match sentence_curviness sentence with
    | Some c => c
    | None => CONFIG.content.defaultCurviness
    end in
  let created :=
    createCurvedPlatform cache platformLength CONFIG.game.platformWidth curviness in
  let platformMesh := fst created in
  let textMesh :=
    setMeshY (createTextOnPlatform (sentence_text sentence) platformLength curviness) 0.1 in
  ({| name := nameOf sentence index;
      position_x := 0;
      position_y := 0;
      children := [platformMesh; textMesh];
      userData := {| ud_sentence := sentence;
                     ud_length := platformLength;
                     ud_curviness := curviness;
                     ud_words := Utils.splitWhitespace (sentence_text sentence) |} |},
   snd created).

(** The body of [sentences.forEach] in [createLevel], threaded through
    the remaining sentences: [index] is the position in the input,
    [nextStartX] and [currentY] the running layout slot. *)
Fixpoint placePlatforms (cache : Cache) (index : nat) (nextStartX currentY : R)
  (sentences : list Sentence) : Layout :=
  match sentences with
  | [] => {| lay_platforms := []; lay_nextStartX := nextStartX; lay_cache := cache |}
  | sentence :: rest =>
      if (Utils.countWords (sentence_text sentence) <? CONFIG.content.minSentenceLength)%nat
      then placePlatforms cache (S index) nextStartX currentY rest
      else
        let globalDownwardSlope := 5 in
        let created := createPlatform cache sentence index in
        let platform := fst created in
        let platformLength := ud_length (userData platform) in
        let platformCenterX := nextStartX + platformLength / 2 in
        let placed := setPosition platform platformCenterX currentY in
        let platformEndX := platformCenterX + platformLength / 2 in
        let gapBetweenPlatforms := 2 in
        let later :=
          placePlatforms (snd created) (S index) (platformEndX + gapBetweenPlatforms)
            (currentY - globalDownwardSlope) rest in
        {| lay_platforms := placed :: lay_platforms later;
           lay_nextStartX := lay_nextStartX later;
           lay_cache := lay_cache later |}
  end.

Definition createLevel (cache : Cache) (sentences : list Sentence) : Level * Cache :=
  let layout := placePlatforms cache 0 0 0 sentences in
  ({| level_children := lay_platforms layout;
      totalLength := lay_nextStartX layout;
      sentenceCount := List.length sentences |},
   lay_cache layout).

End SceneGraph.

(** [getPlatformYAtX]: the curve function of the first child, [0] when
    there is none. *)
Definition getPlatformYAtX (platform : Platform) (x : R) : R :=
  match children platform with
  | platformMesh :: _ =>
      match curveFunction platformMesh with
      | Some f => f x
      | None => 0
      end
  | [] => 0
  end.

(** [Math.max(20, Math.floor(platformLength * 3))], the number of segments
    of the text ribbon. *)
Definition textSegments (platformLength : R) : Z :=
  Z.max 20 (Zfloor (platformLength * 3)).

(** The index buffer of [createTextOnPlatform]: two triangles for each
    segment, over the vertices in the order they were pushed. *)
Definition textTriangles (segments : Z) : list nat :=
  flat_map
    (fun i =>
       let topLeft := (i * 2)%nat in
       let bottomLeft := (i * 2 + 1)%nat in
       let topRight := ((i + 1) * 2)%nat in
       let bottomRight := ((i + 1) * 2 + 1)%nat in
       [topLeft; bottomLeft; topRight; bottomLeft; bottomRight; topRight])
    (seq 0 (Z.to_nat segments)).

End GeometryGenerator.

(** ** player.js *)

Module Player.

Import GeometryGenerator.

(** Comparisons of numbers as conditions. *)
Definition Rle_bool (a b : R) : bool := if Rle_dec a b then true else false.
Definition Rlt_bool (a b : R) : bool := if Rlt_dec a b then true else false.

Record Vec3 : Type := mkVec3 { vec_x : R; vec_y : R; vec_z : R }.

(** A reference to a platform object of the level: platform objects are
    created once, by [createLevel], and never mutated afterwards, so a
    reference is the position of the object among the level's children
    together with the object found there.  [===] on two references
    compares the positions. *)
Record PlatformRef : Type := mkRef {
  ref_index : nat;
  ref_platform : Platform
}.

Record State : Type := mkState {
  position : Vec3;
  velocity : Vec3;
  isJumping : bool;
  isGrounded : bool;
  currentPlatform : option PlatformRef;
  currentWordIndex : Z;
  score : Z;
  perfectSurfs : Z
}.

Record Input : Type := mkInput {
  left : bool; right : bool; up : bool; down : bool; jump : bool
}.

(** What a tick tells its collaborators: the two calls into the audio
    manager and the perfect-surf award, each with the index of the
    platform concerned. *)
Inductive Event : Type :=
| PlaySentence (platform : nat)
| PlayWord (platform : nat) (wordIndex : Z)
| PerfectSurf (platform : nat).

Definition resetState : State :=
  {| position := mkVec3 0 0 0;
     velocity := mkVec3 0 0 0;
     isJumping := false;
     isGrounded := false;
     currentPlatform := None;
     currentWordIndex := 0;
     score := 0;
     perfectSurfs := 0 |}.

Definition noInput : Input := mkInput false false false false false.

(** Field updates. *)
Definition setPosition (st : State) (p : Vec3) : State :=
  mkState p (velocity st) (isJumping st) (isGrounded st) (currentPlatform st)
    (currentWordIndex st) (score st) (perfectSurfs st).
Definition setVelocity (st : State) (v : Vec3) : State :=
  mkState (position st) v (isJumping st) (isGrounded st) (currentPlatform st)
    (currentWordIndex st) (score st) (perfectSurfs st).
Definition setIsJumping (st : State) (b : bool) : State :=
  mkState (position st) (velocity st) b (isGrounded st) (currentPlatform st)
    (currentWordIndex st) (score st) (perfectSurfs st).
Definition setIsGrounded (st : State) (b : bool) : State :=
  mkState (position st) (velocity st) (isJumping st) b (currentPlatform st)
    (currentWordIndex st) (score st) (perfectSurfs st).
Definition setCurrentPlatform (st : State) (p : option PlatformRef) : State :=
  mkState (position st) (velocity st) (isJumping st) (isGrounded st) p
    (currentWordIndex st) (score st) (perfectSurfs st).
Definition setCurrentWordIndex (st : State) (i : Z) : State :=
  mkState (position st) (velocity st) (isJumping st) (isGrounded st) (currentPlatform st)
    i (score st) (perfectSurfs st).
Definition setScore (st : State) (s : Z) : State :=
  mkState (position st) (velocity st) (isJumping st) (isGrounded st) (currentPlatform st)
    (currentWordIndex st) s (perfectSurfs st).
Definition setPerfectSurfs (st : State) (n : Z) : State :=
  mkState (position st) (velocity st) (isJumping st) (isGrounded st) (currentPlatform st)
    (currentWordIndex st) (score st) n.

Definition setX (v : Vec3) (x : R) : Vec3 := mkVec3 x (vec_y v) (vec_z v).
Definition setY (v : Vec3) (y : R) : Vec3 := mkVec3 (vec_x v) y (vec_z v).

(** [processInput] *)
Definition processInput (input : Input) (deltaTime : R) (st : State) : State :=
  let vx := vec_x (velocity st) in
  let vx' :=
    if left input then Rmax (vx - 0.5) (- CONFIG.game.playerSpeed)
    else if right input then Rmin (vx + 0.5) CONFIG.game.playerSpeed
    else vx * 0.9 in
  let st1 := setVelocity st (setX (velocity st) vx') in
  if jump input && isGrounded st1 && negb (isJumping st1) then
    setIsGrounded
      (setIsJumping (setVelocity st1 (setY (velocity st1) CONFIG.game.jumpForce)) true)
      false
  else st1.

(** [applyPhysics] *)
Definition applyPhysics (deltaTime : R) (st : State) : State :=
  let vy := vec_y (velocity st) - CONFIG.game.gravity in
  let px := vec_x (position st) + vec_x (velocity st) * deltaTime in
  let py := vec_y (position st) + vy * deltaTime in
  setVelocity (setPosition st (setY (setX (position st) px) py))
    (setY (velocity st) (Rmax vy (-20))).

(** [onPlatformChange]: the platform always carries its [userData] and
    its sentence. *)
Definition onPlatformChange (newPlatform : PlatformRef) (st : State)
  : State * list Event :=
  (setCurrentWordIndex st 0, [PlaySentence (ref_index newPlatform)]).

(** The test [platformY < absolutePlatformY] on the running maximum,
    which starts at minus infinity ([None]). *)
Definition higherThan (best : option (PlatformRef * R)) (absolutePlatformY : R) : bool :=
  match best with
  | None => true
  | Some (_, platformY) => Rlt_bool platformY absolutePlatformY
  end.

(** One round of [level.children.forEach] in [checkPlatformCollisions]:
    [best] is the pair [(currentPlatform, platformY)]. *)
Definition scanPlatform (playerX playerY playerRadius : R)
  (best : option (PlatformRef * R)) (entry : nat * Platform)
  : option (PlatformRef * R) :=
  let (index, platform) := entry in
  if Req_dec_T (ud_length (userData platform)) 0 then best
  else
    let platformLength := ud_length (userData platform) in
    let platformLeft := position_x platform - platformLength / 2 in
    let platformRight := position_x platform + platformLength / 2 in
    if Rle_bool platformLeft playerX && Rle_bool playerX platformRight then
      let relativeX := playerX - position_x platform in
      let platformHeightAtX := getPlatformYAtX platform relativeX in
      let absolutePlatformY := position_y platform + platformHeightAtX in
      if higherThan best absolutePlatformY
         && Rle_bool absolutePlatformY (playerY + playerRadius)
      then Some (mkRef index platform, absolutePlatformY)
      else best
    else best.

Definition indexed (platforms : list Platform) : list (nat * Platform) :=
  combine (seq 0 (List.length platforms)) platforms.

Definition findPlatform (level : Level) (playerX playerY playerRadius : R)
  : option (PlatformRef * R) :=
  fold_left (scanPlatform playerX playerY playerRadius)
    (indexed (level_children level)) None.

Definition sameRef (a : option PlatformRef) (b : PlatformRef) : bool :=
  match a with
  | Some r => (ref_index r =? ref_index b)%nat
  | None => false
  end.

(** [checkPlatformCollisions] *)
Definition checkPlatformCollisions (level : option Level) (st : State)
  : State * list Event :=
  match level with
  | None => (st, [])
  | Some level =>
      let playerX := vec_x (position st) in
      let playerY := vec_y (position st) in
      let playerRadius := 0.5 in
      let isFalling := Rlt_bool (vec_y (velocity st)) 0 in
      let st1 := if isFalling then setIsGrounded st false else st in
      match findPlatform level playerX playerY playerRadius with
      | Some (found, platformY) =>
          if isFalling then
            let distanceToGround := playerY - platformY in
            if Rle_bool distanceToGround playerRadius then
              let st2 := setPosition st1 (setY (position st1) (platformY + playerRadius)) in
              let st3 := setVelocity st2 (setY (velocity st2) 0) in
              let st4 := setIsJumping (setIsGrounded st3 true) false in
              let (st5, events) :=
if sameRef (currentPlatform st4) found then (st4, [])
else onPlatformChange found st4 in
              (setCurrentPlatform st5 (Some found), events)
            else (st1, [])
          else (st1, [])
      | None =>
          if isGrounded st1 then
            (setCurrentPlatform (setIsGrounded st1 false) None, [])
          else (st1, [])
      end
  end.

(** [awardPerfectSurf] *)
Definition awardPerfectSurf (st : State) : State :=
  let bonus := (CONFIG.game.scorePerWord * CONFIG.game.bonusMultiplier)%Z in
  setPerfectSurfs (setScore st (score st + bonus)%Z) (perfectSurfs st + 1)%Z.

(** The two quantities [checkWordSurfing] derives from the player's X. *)
Definition relativePosOn (platform : Platform) (playerX : R) : R :=
  let platformLength := ud_length (userData platform) in
  let platformLeft := position_x platform - platformLength / 2 in
  (playerX - platformLeft) / platformLength.

Definition wordIndexOn (platform : Platform) (playerX : R) : Z :=
  let words := ud_words (userData platform) in
  let wordsLength := Z.of_nat (List.length words) in
  Z.min (Zfloor (relativePosOn platform playerX * IZR wordsLength)) (wordsLength - 1).

(** [checkWordSurfing] *)
Definition checkWordSurfing (st : State) : State * list Event :=
  match currentPlatform st with
  | None => (st, [])
  | Some ref =>
      let platform := ref_platform ref in
      let wordsLength := Z.of_nat (List.length (ud_words (userData platform))) in
      let playerX := vec_x (position st) in
      let relativePos := relativePosOn platform playerX in
      let wordIndex := wordIndexOn platform playerX in
      let (st1, events) :=
        if (currentWordIndex st <? wordIndex)%Z then
          let pointsPerWord := CONFIG.game.scorePerWord in
          (setCurrentWordIndex (setScore st (score st + pointsPerWord)%Z) wordIndex,
           [PlayWord (ref_index ref) wordIndex])
        else (st, []) in
      if (wordIndex =? wordsLength - 1)%Z && Rle_bool 0.95 relativePos then
        if (currentWordIndex st1 =? wordsLength - 1)%Z then
          (setCurrentWordIndex (awardPerfectSurf st1) wordsLength,
           events ++ [PerfectSurf (ref_index ref)])
        else (st1, events)
      else (st1, events)
  end.

(** [update]: input, physics, collisions, word surfing.  [updatePosition]
    copies the position into the scene object and leaves the state as it
    is. *)
Definition update (input : Input) (deltaTime : R) (level : option Level) (st : State)
  : State * list Event :=
  let st1 := processInput input deltaTime st in
  let st2 := applyPhysics deltaTime st1 in
  let (st3, events1) := checkPlatformCollisions level st2 in
  let (st4, events2) := checkWordSurfing st3 in
  (st4, events1 ++ events2).

(** [handleKeyDown] and [handleKeyUp]: the [switch] on the key code, on
    the input flags. *)
Definition handleKeyDown (keyCode : string) (input : Input) : Input :=
  if (keyCode =? "ArrowLeft")%string || (keyCode =? "KeyA")%string then
    mkInput true (right input) (up input) (down input) (jump input)
  else if (keyCode =? "ArrowRight")%string || (keyCode =? "KeyD")%string then
    mkInput (left input) true (up input) (down input) (jump input)
  else if (keyCode =? "ArrowUp")%string || (keyCode =? "KeyW")%string then
    mkInput (left input) (right input) true (down input) (jump input)
  else if (keyCode =? "ArrowDown")%string || (keyCode =? "KeyS")%string then
    mkInput (left input) (right input) (up input) true (jump input)
  else if (keyCode =? "Space")%string then
    mkInput (left input) (right input) (up input) (down input) true
  else input.

Definition handleKeyUp (keyCode : string) (input : Input) : Input :=
  if (keyCode =? "ArrowLeft")%string || (keyCode =? "KeyA")%string then
    mkInput false (right input) (up input) (down input) (jump input)
  else if (keyCode =? "ArrowRight")%string || (keyCode =? "KeyD")%string then
    mkInput (left input) false (up input) (down input) (jump input)
  else if (keyCode =? "ArrowUp")%string || (keyCode =? "KeyW")%string then
    mkInput (left input) (right input) false (down input) (jump input)
  else if (keyCode =? "ArrowDown")%string || (keyCode =? "KeyS")%string then
    mkInput (left input) (right input) (up input) false (jump input)
  else if (keyCode =? "Space")%string then
    mkInput (left input) (right input) (up input) (down input) false
  else input.

End Player.

(** ** game.js *)

Module Game.

Import GeometryGenerator.

Record State : Type := mkState {
  isPlaying : bool;
  level : option Level;
  player : Player.State
}.

(** One animation frame: the input flags as the handlers left them and
    the time since the previous frame. *)
Record Frame : Type := mkFrame {
  frame_input : Player.Input;
  frame_deltaTime : R
}.

(** [positionPlayerAtStart] *)
Definition positionPlayerAtStart (level : Level) (st : Player.State) : Player.State :=
  match level_children level with
  | [] => st
  | firstPlatform :: _ =>
      let platformLength := ud_length (userData firstPlatform) in
      let startX := position_x firstPlatform - platformLength / 2 + 1 in
      let startY := position_y firstPlatform + 2 in
      Player.setPosition st
        (Player.setY (Player.setX (Player.position st) startX) startY)
  end.

(** The state [startGame] leaves once the level is built. *)
Definition start (level : Level) : State :=
  {| isPlaying := true;
     level := Some level;
     player := positionPlayerAtStart level Player.resetState |}.

(** [checkLevelCompletion], with [endLevel] reduced to the flag it
    clears. *)
Definition checkLevelCompletion (gs : State) : State :=
  match level gs with
  | None => gs
  | Some lv =>
      if isPlaying gs then
        let playerPos := Player.position (player gs) in
        let levelLength := totalLength lv in
        let gs1 :=
          if Player.Rle_bool levelLength (Player.vec_x playerPos)
          then mkState false (level gs) (player gs) else gs in
        if Player.Rlt_bool (Player.vec_y playerPos) (-20)
        then mkState false (level gs1) (player gs1) else gs1
      else gs
  end.

(** [update] *)
Definition update (input : Player.Input) (deltaTime : R) (gs : State)
  : State * list Player.Event :=
  let cappedDelta := Rmin deltaTime 0.1 in
  let (p, events) := Player.update input cappedDelta (level gs) (player gs) in
  (checkLevelCompletion (mkState (isPlaying gs) (level gs) p), events).

(** The body of [animate] for one frame. *)
Definition animate (frame : Frame) (gs : State) : State * list Player.Event :=
  if isPlaying gs then update (frame_input frame) (frame_deltaTime frame) gs
  else (gs, []).

(** The frames of a run, in order, with everything they emit. *)
Fixpoint run (frames : list Frame) (gs : State) : State * list Player.Event :=
  match frames with
  | [] => (gs, [])
  | frame :: rest =>
      let (gs1, events1) := animate frame gs in
      let (gs2, events2) := run rest gs1 in
      (gs2, events1 ++ events2)
  end.

End Game.


(** ** content-pipeline.js *)

Module ContentPipeline.

Import GeometryGenerator.

(** The structured content, reduced to its paragraphs; the [source] entry
    (url, title, retrieval date) plays no part in what follows. *)
Record Paragraph : Type := mkParagraph {
  paragraph_index : nat;
  paragraph_text : string;
  paragraph_sentences : list Sentence
}.

Record Content : Type := mkContent {
  paragraphs : list Paragraph
}.

(** What the extraction step hands over; a field that is missing is
    [None]. *)
Record ArticleContent : Type := mkArticle {
  article_url : option string;
  article_title : option string;
  article_text : option string
}.

(** An entry of the tone analysis. *)
Record CurvinessItem : Type := mkItem {
  item_sentence : string;
  item_curviness : R
}.

(** [paragraphs.forEach(paragraph => paragraph.sentences.forEach(...))]
    when the body rewrites the sentence. *)
Definition mapSentences (f : Sentence -> Sentence) (content : Content) : Content :=
  {| paragraphs :=
       map (fun paragraph =>
              {| paragraph_index := paragraph_index paragraph;
                 paragraph_text := paragraph_text paragraph;
                 paragraph_sentences := map f (paragraph_sentences paragraph) |})
         (paragraphs content) |}.

Definition setCurviness (sentence : Sentence) (curviness : R) : Sentence :=
  {| sentence_id := sentence_id sentence;
     sentence_text := sentence_text sentence;
     sentence_length := sentence_length sentence;
     sentence_curviness := Some curviness |}.

(** The text used when the article has none: a missing text and the empty
    one are both falsy. *)
Definition fallbackText : string :=
  "No content available. This is fallback text generated when the article couldn't be retrieved properly.".

(** The id [`s${pIndex}`]. *)
Definition sentenceId (pIndex : nat) : string :=
  "s" ++ NilEmpty.string_of_uint (Nat.to_uint pIndex).

Definition sentenceData (pIndex : nat) (sentenceText : string) : Sentence :=
  {| sentence_id := Some (sentenceId pIndex);
     sentence_text := sentenceText;
     sentence_length := Some (INR (Utils.countWords sentenceText));
     sentence_curviness := None |}.

(** [fallbackStructureContent]: one paragraph of one sentence for each
    sentence of the text.  The function reads [articleContent.url] for its
    log before it tests [articleContent], so that a missing article raises:
    [None] stands for the exception. *)
Definition fallbackStructureContent (articleContent : option ArticleContent)
  : option Content :=
  match articleContent with
  | None => None
  | Some article =>
      let text :=
        match article_text article with
        | Some EmptyString | None => fallbackText
        | Some t => t
        end in
      let sentences := Utils.splitIntoSentences text in
      Some {| paragraphs :=
                map (fun entry =>
                       let pIndex := fst entry in
                       let paragraphText := snd entry in
                       {| paragraph_index := pIndex;
                          paragraph_text := paragraphText;
                          paragraph_sentences := [sentenceData pIndex paragraphText] |})
                  (combine (seq 0 (List.length sentences)) sentences) |}
  end.

(** [curvinessMap]: an object used as a map from sentence texts to
    scores, the newest entry first. *)
Definition CurvinessMap : Type := list (string * R).

Definition mapSet (m : CurvinessMap) (k : string) (v : R) : CurvinessMap := (k, v) :: m.

Fixpoint mapGet (m : CurvinessMap) (k : string) : option R :=
  match m with
  | [] => None
  | (k', v) :: rest => if (k =? k')%string then Some v else mapGet rest k
  end.

(** The names every object inherits: looking one of them up in
    [curvinessMap] gives the inherited value where [mapGet] gives [None].
    [mergeCurvinessScores] is embedded for sentence texts other than
    these. *)
Definition inheritedKeys : list string :=
  [ "constructor"; "toString"; "toLocaleString"; "valueOf"; "hasOwnProperty";
    "isPrototypeOf"; "propertyIsEnumerable"; "__proto__"; "__defineGetter__";
    "__defineSetter__"; "__lookupGetter__"; "__lookupSetter__" ]%string.

(** [mergeCurvinessScores] *)
Definition mergeCurvinessScores (structuredContent : Content)
  (curvinessData : list CurvinessItem) : Content :=
  let curvinessMap :=
    fold_left (fun m item => mapSet m (item_sentence item) (item_curviness item))
      curvinessData [] in
  mapSentences
    (fun sentence =>
       match mapGet curvinessMap (sentence_text sentence) with
       | Some curviness => setCurviness sentence curviness
       | None => setCurviness sentence CONFIG.content.defaultCurviness
       end)
    structuredContent.

(** [text.includes(c)] for a one-character [c]. *)
Fixpoint includes (text : string) (c : ascii) : bool :=
  match text with
  | EmptyString => false
  | String d rest => Ascii.eqb d c || includes rest c
  end.

(** The body of the loop of [fallbackAssignCurviness] for one sentence;
    [random] is what [Math.random()] returned. *)
Definition heuristicCurviness (sentence : Sentence) (random : R) : R :=
  let curviness := CONFIG.content.defaultCurviness in
  let wordCount := wordCountOf sentence in
  let curviness :=
    if Rlt_dec 15 wordCount then curviness + 2
    else if Rlt_dec wordCount 5 then curviness - 2
    else curviness in
  let curviness :=
    if includes (sentence_text sentence) "!" then curviness + 3
    else if includes (sentence_text sentence) "?" then curviness + 2
    else curviness in
  let curviness := curviness + (random * 2 - 1) in
  Rmax 0 (Rmin 10 curviness).

(** The sentences of a paragraph, then the paragraphs, each sentence
    taking the next value of [Math.random]: [rand k] is the value of the
    call number [k], [n] the number of calls made so far. *)
Fixpoint assignSentences (rand : nat -> R) (n : nat) (sentences : list Sentence)
  : list Sentence * nat :=
  match sentences with
  | [] => ([], n)
  | sentence :: rest =>
      let assigned := setCurviness sentence (heuristicCurviness sentence (rand n)) in
      let later := assignSentences rand (S n) rest in
      (assigned :: fst later, snd later)
  end.

Fixpoint assignParagraphs (rand : nat -> R) (n : nat) (ps : list Paragraph)
  : list Paragraph :=
  match ps with
  | [] => []
  | paragraph :: rest =>
      let assigned := assignSentences rand n (paragraph_sentences paragraph) in
      {| paragraph_index := paragraph_index paragraph;
         paragraph_text := paragraph_text paragraph;
         paragraph_sentences := fst assigned |}
      :: assignParagraphs rand (snd assigned) rest
  end.

(** [fallbackAssignCurviness] *)
Definition fallbackAssignCurviness (rand : nat -> R) (structuredContent : Content)
  : Content :=
  {| paragraphs := assignParagraphs rand 0 (paragraphs structuredContent) |}.

(** [getAllSentences], of the article data stored by [processUrl]. *)
Definition getAllSentences (articleData : option Content) : list Sentence :=
  match articleData with
  | None => []
  | Some data => flat_map paragraph_sentences (paragraphs data)
  end.

End ContentPipeline.

(** ** Notions used in the statements *)

(** The angle of 35 degrees, in radians. *)
Definition deg35 : R := 35 * (PI / 180).

(** The sentences [createLevel] keeps. *)
Definition retained (sentence : GeometryGenerator.Sentence) : bool :=
  negb (Utils.countWords (GeometryGenerator.sentence_text sentence)
        <? CONFIG.content.minSentenceLength)%nat.

(** A platform without its name. *)
Definition unnamed (p : GeometryGenerator.Platform)
  : R * R * list GeometryGenerator.Mesh * GeometryGenerator.UserData :=
  (GeometryGenerator.position_x p, GeometryGenerator.position_y p,
   GeometryGenerator.children p, GeometryGenerator.userData p).

(** The sentences of the mock article of [generateMockResponse], with the
    mock curviness scores merged in. *)
Definition mockSentences : list GeometryGenerator.Sentence :=
  [ GeometryGenerator.mkSentence (Some "s0"%string)
      "This is a sample article." (Some 5) (Some 2.0);
    GeometryGenerator.mkSentence (Some "s1"%string)
      "It contains several sentences." (Some 4) (Some 3.5);
    GeometryGenerator.mkSentence (Some "s2"%string)
      "Each sentence will become a platform in the game." (Some 9) (Some 5.0);
    GeometryGenerator.mkSentence (Some "s3"%string)
      "Some sentences are more dynamic and emotional!" (Some 7) (Some 8.5);
    GeometryGenerator.mkSentence (Some "s4"%string)
      "Others are quite neutral and factual." (Some 6) (Some 1.5) ].

(** The number of words of a platform. *)
Definition wordCountOn (ref : Player.PlatformRef) : Z :=
  Z.of_nat (List.length (GeometryGenerator.ud_words
                           (GeometryGenerator.userData (Player.ref_platform ref)))).

(** The player stands on the platform [ref]. *)
Definition groundedOn (ref : Player.PlatformRef) (st : Player.State) : Prop :=
  Player.isGrounded st = true /\ Player.currentPlatform st = Some ref.

(** The game states a run goes through: the initial one, then the state
    after each frame. *)
Fixpoint visited (frames : list Game.Frame) (gs : Game.State) : list Game.State :=
  gs :: match frames with
        | [] => []
        | frame :: rest => visited rest (fst (Game.animate frame gs))
        end.

(** How many times the perfect-surf bonus was awarded on platform [p]. *)
Fixpoint perfectSurfCount (p : nat) (events : list Player.Event) : nat :=
  match events with
  | [] => 0
  | Player.PerfectSurf q :: rest =>
      if (q =? p)%nat then S (perfectSurfCount p rest) else perfectSurfCount p rest
  | _ :: rest => perfectSurfCount p rest
  end.

(** The word indices for which the per-word score was awarded on platform
    [p], in the order of the awards. *)
Fixpoint wordsAwarded (p : nat) (events : list Player.Event) : list Z :=
  match events with
  | [] => []
  | Player.PlayWord q i :: rest =>
      if (q =? p)%nat then i :: wordsAwarded p rest else wordsAwarded p rest
  | _ :: rest => wordsAwarded p rest
  end.

(** The points the events of a run stand for. *)
Fixpoint scoreOf (events : list Player.Event) : Z :=
  match events with
  | [] => 0
  | Player.PlaySentence _ :: rest => scoreOf rest
  | Player.PlayWord _ _ :: rest => CONFIG.game.scorePerWord + scoreOf rest
  | Player.PerfectSurf _ :: rest =>
      CONFIG.game.scorePerWord * CONFIG.game.bonusMultiplier + scoreOf rest
  end%Z.

(** A sequence of [createCurvedPlatform(length, width, curviness)] calls,
    of which only the effect on the cache is kept. *)
Fixpoint createMany (clone : GeometryGenerator.Mesh -> GeometryGenerator.Mesh)
  (calls : list (R * R * R)) (cache : GeometryGenerator.Cache)
  : GeometryGenerator.Cache :=
  match calls with
  | [] => cache
  | (length, width, curviness) :: rest =>
      createMany clone rest
        (snd (GeometryGenerator.createCurvedPlatform clone cache length width curviness))
  end.

(** *** A two-platform level and a recorded run on it *)

Definition surfSentences : list GeometryGenerator.Sentence :=
  [ GeometryGenerator.mkSentence None "Surf the words" None (Some 0);
    GeometryGenerator.mkSentence None "Ride every sentence home" None (Some 0) ].

(** The level of these two sentences, built with an empty cache. *)
Definition surfLevel : GeometryGenerator.Level :=
  fst (GeometryGenerator.createLevel (fun m => m) GeometryGenerator.init surfSentences).

(** Its two platforms, written out. *)
Definition platformA : GeometryGenerator.Platform :=
  {| GeometryGenerator.name := inr 0%nat;
     GeometryGenerator.position_x := 3;
     GeometryGenerator.position_y := 0;
     GeometryGenerator.children :=
       [ GeometryGenerator.buildCurvedPlatform 6 2 0;
         GeometryGenerator.setMeshY
           (GeometryGenerator.createTextOnPlatform "Surf the words" 6 0) 0.1 ];
     GeometryGenerator.userData :=
       {| GeometryGenerator.ud_sentence :=
            GeometryGenerator.mkSentence None "Surf the words" None (Some 0);
          GeometryGenerator.ud_length := 6;
          GeometryGenerator.ud_curviness := 0;
          GeometryGenerator.ud_words := ["Surf"; "the"; "words"]%string |} |}.

Definition platformB : GeometryGenerator.Platform :=
  {| GeometryGenerator.name := inr 1%nat;
     GeometryGenerator.position_x := 12;
     GeometryGenerator.position_y := -5;
     GeometryGenerator.children :=
       [ GeometryGenerator.buildCurvedPlatform 8 2 0;
         GeometryGenerator.setMeshY
           (GeometryGenerator.createTextOnPlatform "Ride every sentence home" 8 0) 0.1 ];
     GeometryGenerator.userData :=
       {| GeometryGenerator.ud_sentence :=
            GeometryGenerator.mkSentence None "Ride every sentence home" None (Some 0);
          GeometryGenerator.ud_length := 8;
          GeometryGenerator.ud_curviness := 0;
          GeometryGenerator.ud_words := ["Ride"; "every"; "sentence"; "home"]%string |} |}.

Definition refA : Player.PlatformRef := Player.mkRef 0 platformA.
Definition refB : Player.PlatformRef := Player.mkRef 1 platformB.

(** The world height of their surfaces at the world abscissa [x]. *)
Definition surfaceA (x : R) : R := (sin deg35 - 0.5 / 6) * x.
Definition surfaceB (x : R) : R := -5 + (sin deg35 - 0.5 / 8) * (x - 8).

Definition pressRight : Player.Input := Player.mkInput false true false false false.
Definition pressLeft : Player.Input := Player.mkInput true false false false false.
Definition pressLeftJump : Player.Input := Player.mkInput true false false false true.
Definition pressRightJump : Player.Input := Player.mkInput false true false false true.

(** A player state by its fields: x, y, the two velocities, jumping,
    grounded, current platform, word index, score, perfect surfs. *)
Definition snapshot (x y vx vy : R) (jumping grounded : bool)
  (current : option Player.PlatformRef) (wordIndex score perfect : Z) : Player.State :=
  Player.mkState (Player.mkVec3 x y 0) (Player.mkVec3 vx vy 0) jumping grounded
    current wordIndex score perfect.

(** The game while it is played on [surfLevel]. *)
Definition playing (st : Player.State) : Game.State :=
  Game.mkState true (Some surfLevel) st.

(** A row of a recorded run: the input of a frame of a tenth of a second,
    the player state after it and what the frame emitted. *)
Definition Row : Type := Player.Input * Player.State * list Player.Event.

Definition frameOf (row : Row) : Game.Frame := Game.mkFrame (fst (fst row)) 0.1.
Definition framesOf (rows : list Row) : list Game.Frame := map frameOf rows.
Definition eventsOf (rows : list Row) : list Player.Event := flat_map snd rows.
Definition lastOf (st : Player.State) (rows : list Row) : Player.State :=
  fold_left (fun _ row => snd (fst row)) rows st.

(** The game, started in [st], goes through the rows one frame after the
    other. *)
Fixpoint replays (st : Player.State) (rows : list Row) : Prop :=
  match rows with
  | [] => True
  | row :: rest =>
      Game.animate (frameOf row) (playing st) = (playing (snd (fst row)), snd row)
      /\ replays (snd (fst row)) rest
  end.

(** Where [positionPlayerAtStart] puts the player on [surfLevel]. *)
Definition surfStart : Player.State := snapshot 1 2 0 0 false false None 0 0 0.

(** The player drops onto the first platform. *)
Definition landOnA : list Row :=
  [
    (pressRight, snapshot 1.05 1.95 0.5 (-0.5) false false None 0 0 0,
     []);
    (pressRight, snapshot 1.15 1.85 1 (-1) false false None 0 0 0,
     []);
    (pressRight, snapshot 1.3 1.7 1.5 (-1.5) false false None 0 0 0,
     []);
    (pressRight, snapshot 1.5 1.5 2 (-2) false false None 0 0 0,
     []);
    (pressRight, snapshot 1.75 (17/48 + 1.75 * sin deg35) 2.5 0 false true (Some refA) 0 0 0,
     [Player.PlaySentence 0])
  ].

(** The player rides the first platform to its last word. *)
Definition rideA : list Row :=
  [
    (pressRight, snapshot 2.05 (79/240 + 2.05 * sin deg35) 3 0 false true (Some refA) 1 10 0,
     [Player.PlayWord 0 1]);
    (pressRight, snapshot 2.4 (0.3 + 2.4 * sin deg35) 3.5 0 false true (Some refA) 1 10 0,
     []);
    (pressRight, snapshot 2.8 (4/15 + 2.8 * sin deg35) 4 0 false true (Some refA) 1 10 0,
     []);
    (pressRight, snapshot 3.25 (11/48 + 3.25 * sin deg35) 4.5 0 false true (Some refA) 1 10 0,
     []);
    (pressRight, snapshot 3.75 (0.1875 + 3.75 * sin deg35) 5 0 false true (Some refA) 1 10 0,
     []);
    (pressRight, snapshot 4.25 (7/48 + 4.25 * sin deg35) 5 0 false true (Some refA) 2 20 0,
     [Player.PlayWord 0 2]);
    (pressRight, snapshot 4.75 (5/48 + 4.75 * sin deg35) 5 0 false true (Some refA) 2 20 0,
     []);
    (pressRight, snapshot 5.25 (0.0625 + 5.25 * sin deg35) 5 0 false true (Some refA) 2 20 0,
     []);
    (pressRight, snapshot 5.75 (1/48 + 5.75 * sin deg35) 5 0 false true (Some refA) 3 40 1,
     [Player.PerfectSurf 0])
  ].

(** The player runs off the end and comes down on the second platform. *)
Definition dropToB : list Row :=
  [
    (pressRight, snapshot 6.25 (-7/240 + 5.75 * sin deg35) 5 (-0.5) false false (Some refA) 3 40 1,
     []);
    (pressRight, snapshot 6.75 (-31/240 + 5.75 * sin deg35) 5 (-1) false false (Some refA) 3 40 1,
     []);
    (pressRight, snapshot 7.25 (-67/240 + 5.75 * sin deg35) 5 (-1.5) false false (Some refA) 3 40 1,
     []);
    (pressRight, snapshot 7.75 (-23/48 + 5.75 * sin deg35) 5 (-2) false false (Some refA) 3 40 1,
     []);
    (pressRight, snapshot 8.25 (-35/48 + 5.75 * sin deg35) 5 (-2.5) false false (Some refA) 3 40 1,
     []);
    (pressRight, snapshot 8.75 (-247/240 + 5.75 * sin deg35) 5 (-3) false false (Some refA) 3 40 1,
     []);
    (pressLeft, snapshot 9.2 (-331/240 + 5.75 * sin deg35) 4.5 (-3.5) false false (Some refA) 3 40 1,
     []);
    (pressLeft, snapshot 9.6 (-427/240 + 5.75 * sin deg35) 4 (-4) false false (Some refA) 3 40 1,
     []);
    (pressLeft, snapshot 9.95 (-107/48 + 5.75 * sin deg35) 3.5 (-4.5) false false (Some refA) 3 40 1,
     []);
    (pressLeft, snapshot 10.25 (-131/48 + 5.75 * sin deg35) 3 (-5) false false (Some refA) 3 40 1,
     []);
    (pressLeft, snapshot 10.5 (-787/240 + 5.75 * sin deg35) 2.5 (-5.5) false false (Some refA) 3 40 1,
     []);
    (pressLeft, snapshot 10.7 (-931/240 + 5.75 * sin deg35) 2 (-6) false false (Some refA) 3 40 1,
     []);
    (pressLeft, snapshot 10.85 (-1087/240 + 5.75 * sin deg35) 1.5 (-6.5) false false (Some refA) 3 40 1,
     []);
    (pressLeft, snapshot 10.95 (-251/48 + 5.75 * sin deg35) 1 (-7) false false (Some refA) 3 40 1,
     []);
    (pressLeft, snapshot 11 (-287/48 + 5.75 * sin deg35) 0.5 (-7.5) false false (Some refA) 3 40 1,
     []);
    (pressLeft, snapshot 11 (-4.6875 + 3 * sin deg35) 0 0 false true (Some refB) 1 50 1,
     [Player.PlaySentence 1; Player.PlayWord 1 1])
  ].

(** The player jumps back and lands on the last word of the first platform. *)
Definition jumpBack : list Row :=
  [
    (pressLeftJump, snapshot 10.95 (-3.9375 + 3 * sin deg35) (-0.5) 7.5 true false (Some refB) 1 50 1,
     []);
    (pressLeft, snapshot 10.85 (-3.2375 + 3 * sin deg35) (-1) 7 true false (Some refB) 1 50 1,
     []);
    (pressLeft, snapshot 10.7 (-2.5875 + 3 * sin deg35) (-1.5) 6.5 true false (Some refB) 1 50 1,
     []);
    (pressLeft, snapshot 10.5 (-1.9875 + 3 * sin deg35) (-2) 6 true false (Some refB) 1 50 1,
     []);
    (pressLeft, snapshot 10.25 (-1.4375 + 3 * sin deg35) (-2.5) 5.5 true false (Some refB) 1 50 1,
     []);
    (pressLeft, snapshot 9.95 (-0.9375 + 3 * sin deg35) (-3) 5 true false (Some refB) 1 50 1,
     []);
    (pressLeft, snapshot 9.6 (-0.4875 + 3 * sin deg35) (-3.5) 4.5 true false (Some refB) 1 50 1,
     []);
    (pressLeft, snapshot 9.2 (-0.0875 + 3 * sin deg35) (-4) 4 true false (Some refB) 1 50 1,
     []);
    (pressLeft, snapshot 8.75 (0.2625 + 3 * sin deg35) (-4.5) 3.5 true false (Some refB) 1 50 1,
     []);
    (pressLeft, snapshot 8.25 (0.5625 + 3 * sin deg35) (-5) 3 true false (Some refB) 1 50 1,
     []);
    (pressLeft, snapshot 7.75 (0.8125 + 3 * sin deg35) (-5) 2.5 true false (Some refB) 1 50 1,
     []);
    (pressRight, snapshot 7.3 (1.0125 + 3 * sin deg35) (-4.5) 2 true false (Some refB) 1 50 1,
     []);
    (pressRight, snapshot 6.9 (1.1625 + 3 * sin deg35) (-4) 1.5 true false (Some refB) 1 50 1,
     []);
    (pressRight, snapshot 6.55 (1.2625 + 3 * sin deg35) (-3.5) 1 true false (Some refB) 1 50 1,
     []);
    (pressRight, snapshot 6.25 (1.3125 + 3 * sin deg35) (-3) 0.5 true false (Some refB) 1 50 1,
     []);
    (pressRight, snapshot 6 (1.3125 + 3 * sin deg35) (-2.5) 0 true false (Some refB) 1 50 1,
     []);
    (pressRight, snapshot 5.8 (1/60 + 5.8 * sin deg35) (-2) 0 false true (Some refA) 3 80 2,
     [Player.PlaySentence 0; Player.PlayWord 0 2; Player.PerfectSurf 0])
  ].

(** Instead of riding on, the player jumps. *)
Definition jumpOverA : list Row :=
  [
    (pressRightJump, snapshot 2.05 (53/48 + 1.75 * sin deg35) 3 7.5 true false (Some refA) 1 10 0,
     [Player.PlayWord 0 1])
  ].


Definition surfTrace : list Row := landOnA ++ rideA ++ dropToB ++ jumpBack.

(** The frames of the recorded run: twenty frames with the right key
    down, ten with the left key, a jump to the left, ten more frames to
    the left and six to the right. *)
Definition surfFrames : list Game.Frame :=
  map (fun input => Game.mkFrame input 0.1)
    (repeat pressRight 20 ++ repeat pressLeft 10 ++ [pressLeftJump]
     ++ repeat pressLeft 10 ++ repeat pressRight 6).

(** *** Texts *)

(** The characters of a string that are not white space, in order. *)
Fixpoint strip (s : string) : string :=
  match s with
  | EmptyString => EmptyString
  | String c rest => if Utils.isSpace c then strip rest else String c (strip rest)
  end.

(** The characters other than white space of a list of strings. *)
Definition stripAll (l : list string) : string :=
  fold_right (fun s acc => (strip s ++ acc)%string) EmptyString l.

(** A word: a string that is not empty and holds no white space. *)
Definition isWord (w : string) : Prop := w <> EmptyString /\ strip w = w.

(** Some character of the string satisfies [p]. *)
Fixpoint mentions (p : ascii -> bool) (s : string) : bool :=
  match s with
  | EmptyString => false
  | String c rest => p c || mentions p rest
  end.
(** *** Platforms *)

(** The line the curve winds around. *)
Definition slopeLine (x length : R) : R := x * sin deg35 - 0.5 * (x / length).


(** The right end of a platform, in world coordinates. *)
Definition rightEdge (p : GeometryGenerator.Platform) : R :=
  GeometryGenerator.position_x p
  + GeometryGenerator.ud_length (GeometryGenerator.userData p) / 2.

(** The cache key of the mesh of a platform. *)
Definition keyOf (p : GeometryGenerator.Platform) : GeometryGenerator.CacheKey :=
  GeometryGenerator.cacheKey
    (GeometryGenerator.ud_length (GeometryGenerator.userData p))
    CONFIG.game.platformWidth
    (GeometryGenerator.ud_curviness (GeometryGenerator.userData p)).
(** *** Collisions and motion *)

(** The world height of the surface of a platform at the world abscissa
    [x]. *)
Definition surfaceAt (platform : GeometryGenerator.Platform) (x : R) : R :=
  GeometryGenerator.position_y platform
  + GeometryGenerator.getPlatformYAtX platform (x - GeometryGenerator.position_x platform).

(** The platform has a length, spans the abscissa of the player and its
    surface there is not above the centre of the player by more than the
    radius. *)
Definition underPlayer (platform : GeometryGenerator.Platform)
  (playerX playerY playerRadius : R) : Prop :=
  GeometryGenerator.ud_length (GeometryGenerator.userData platform) <> 0
  /\ GeometryGenerator.position_x platform
     - GeometryGenerator.ud_length (GeometryGenerator.userData platform) / 2 <= playerX
  /\ playerX <= GeometryGenerator.position_x platform
                + GeometryGenerator.ud_length (GeometryGenerator.userData platform) / 2
  /\ surfaceAt platform playerX <= playerY + playerRadius.

(** What the collision scan has found after the platforms [l]: nothing
    when none of them is under the player, else one of them that is, with
    the height of its surface, no other one under the player being
    higher. *)
Definition scanSpec (l : list GeometryGenerator.Platform) (x y r : R)
  (res : option (Player.PlatformRef * R)) : Prop :=
  match res with
  | None => forall q, In q l -> ~ underPlayer q x y r
  | Some (ref, h) =>
      nth_error l (Player.ref_index ref) = Some (Player.ref_platform ref)
      /\ h = surfaceAt (Player.ref_platform ref) x
      /\ underPlayer (Player.ref_platform ref) x y r
      /\ forall q, In q l -> underPlayer q x y r -> surfaceAt q x <= h
  end.

(** The speeds the controls and the physics allow. *)
Definition withinSpeed (st : Player.State) : Prop :=
  - CONFIG.game.playerSpeed <= Player.vec_x (Player.velocity st) <= CONFIG.game.playerSpeed
  /\ -20 <= Player.vec_y (Player.velocity st)
           <= CONFIG.game.jumpForce - CONFIG.game.gravity.

(** A grounded player is at rest vertically, is not jumping and has a
    current platform. *)
Definition steady (st : Player.State) : Prop :=
  Player.isGrounded st = true ->
  Player.vec_y (Player.velocity st) = 0
  /\ Player.isJumping st = false
  /\ Player.currentPlatform st <> None.

(** The player as the last frame of [landOnA] leaves it: grounded on the
    first platform of the recorded run. *)
Definition landedOnA : Player.State :=
  snapshot 1.75 (17/48 + 1.75 * sin deg35) 2.5 0 false true (Some refA) 0 0 0.

(** The number of perfect-surf awards among the events. *)
Fixpoint bonusCount (events : list Player.Event) : Z :=
  match events with
  | [] => 0
  | Player.PerfectSurf _ :: rest => 1 + bonusCount rest
  | _ :: rest => bonusCount rest
  end%Z.

(** What holds of the game in every state of a run on [level]: the level
    is the one the game started with, a grounded player is at rest on a
    platform, the speeds are within their limits and the word index is
    not negative. *)
Definition wellFormed (level : GeometryGenerator.Level) (gs : Game.State) : Prop :=
  Game.level gs = Some level
  /\ steady (Game.player gs)
  /\ withinSpeed (Game.player gs)
  /\ (0 <= Player.currentWordIndex (Game.player gs))%Z.
(** *** The content pipeline *)

(** The score of the last entry of the tone analysis for a text, the
    default curviness when there is none. *)
Definition scoreFor (curvinessData : list ContentPipeline.CurvinessItem) (text : string)
  : R :=
  match
    find (fun item => (text =? ContentPipeline.item_sentence item)%string)
      (rev curvinessData)
  with
  | Some item => ContentPipeline.item_curviness item
  | None => CONFIG.content.defaultCurviness
  end.

(** The text [fallbackStructureContent] splits. *)
Definition textOf (article : ContentPipeline.ArticleContent) : string :=
  match ContentPipeline.article_text article with
  | Some EmptyString | None => ContentPipeline.fallbackText
  | Some t => t
  end.

(** The data of the mock responses of [generateMockResponse]. *)
Definition mockBemAI : ContentPipeline.Content :=
  ContentPipeline.mkContent
    [ ContentPipeline.mkParagraph 0 "This is a sample article."
        [ GeometryGenerator.mkSentence (Some "s0"%string)
            "This is a sample article." (Some 5) None ];
      ContentPipeline.mkParagraph 1 "It contains several sentences."
        [ GeometryGenerator.mkSentence (Some "s1"%string)
            "It contains several sentences." (Some 4) None ];
      ContentPipeline.mkParagraph 2 "Each sentence will become a platform in the game."
        [ GeometryGenerator.mkSentence (Some "s2"%string)
            "Each sentence will become a platform in the game." (Some 9) None ];
      ContentPipeline.mkParagraph 3 "Some sentences are more dynamic and emotional!"
        [ GeometryGenerator.mkSentence (Some "s3"%string)
            "Some sentences are more dynamic and emotional!" (Some 7) None ];
      ContentPipeline.mkParagraph 4 "Others are quite neutral and factual."
        [ GeometryGenerator.mkSentence (Some "s4"%string)
            "Others are quite neutral and factual." (Some 6) None ] ].

Definition mockOpenAI : list ContentPipeline.CurvinessItem :=
  [ ContentPipeline.mkItem "This is a sample article." 2.0;
    ContentPipeline.mkItem "It contains several sentences." 3.5;
    ContentPipeline.mkItem "Each sentence will become a platform in the game." 5.0;
    ContentPipeline.mkItem "Some sentences are more dynamic and emotional!" 8.5;
    ContentPipeline.mkItem "Others are quite neutral and factual." 1.5 ].

Definition mockApifyText : string :=
  "This is a sample article. It contains several sentences. Each sentence will become a platform in the game. Some sentences are more dynamic and emotional! Others are quite neutral and factual.".

(** A sentence as the fallback structuring records it: the text is
    trimmed and the length, when there is one, is its word count. *)
Definition tidy (s : GeometryGenerator.Sentence) : Prop :=
  Utils.trim (GeometryGenerator.sentence_text s) = GeometryGenerator.sentence_text s
  /\ (GeometryGenerator.sentence_length s = None
      \/ GeometryGenerator.sentence_length s
         = Some (INR (Utils.countWords (GeometryGenerator.sentence_text s)))).

(** A platform that is two units long for each of its words, which are
    at least three, none empty and none with white space. *)
Definition twoUnitsPerWord (p : GeometryGenerator.Platform) : Prop :=
  let words := GeometryGenerator.ud_words (GeometryGenerator.userData p) in
  GeometryGenerator.ud_length (GeometryGenerator.userData p) = 2 * INR (List.length words)
  /\ (3 <= List.length words)%nat
  /\ Forall isWord words.

(** * Properties *)

(** ** Counting words *)

Example countWords_scenario :
  Utils.countWords "Each sentence will become a platform in the game." = 9%nat.
Proof. reflexivity. Qed.

(** A text of blanks only is not falsy: it trims to the empty string,
    which splits into one empty piece. *)
Example countWords_blank : Utils.countWords "   " = 1%nat.
Proof. reflexivity. Qed.

Example countWords_empty : Utils.countWords "" = 0%nat.
Proof. reflexivity. Qed.

Example splitWhitespace_edges :
  Utils.splitWhitespace " a  b " = [""; "a"; "b"; ""]%string.
Proof. reflexivity. Qed.

(** ** The curve function *)

Module CurveFacts.

Import Utils.

Lemma angle_is_minus_deg35 : -35 * (PI / 180) = - deg35.
Proof. unfold deg35; lra. Qed.

Lemma deg35_range : PI / 6 < deg35 < PI / 4.
Proof. unfold deg35; generalize PI_RGT_0; lra. Qed.

(** 30 degrees < 35 degrees, and the sine increases there. *)
Lemma sin_deg35_gt_half : 1 / 2 < sin deg35.
Proof.
  rewrite <- sin_PI6.
  generalize deg35_range PI_RGT_0; intros [Hlo Hhi] Hpi.
  apply sin_increasing_1; lra.
Qed.

Lemma sin_deg35_lt_1 : sin deg35 < 1.
Proof.
  rewrite <- sin_PI2.
  generalize deg35_range PI_RGT_0; intros [Hlo Hhi] Hpi.
  apply sin_increasing_1; lra.
Qed.

(** The partial sums of the sine series that bound the sine from below
    and from above. *)
Lemma INR_fact (n : nat) (z : Z) : Z.of_nat (fact n) = z -> INR (fact n) = IZR z.
Proof. intros <-. apply INR_IZR_INZ. Qed.

Lemma sin_lb_poly (a : R) :
  sin_lb a = a - a ^ 3 / 6 + a ^ 5 / 120 - a ^ 7 / 5040.
Proof.
  unfold sin_lb, sin_approx, sin_term. cbn [sum_f_R0].
  change (2 * 0 + 1)%nat with 1%nat. change (2 * 1 + 1)%nat with 3%nat.
  change (2 * 2 + 1)%nat with 5%nat. change (2 * 3 + 1)%nat with 7%nat.
  rewrite (INR_fact 1 1), (INR_fact 3 6), (INR_fact 5 120), (INR_fact 7 5040)
    by (vm_compute; reflexivity).
  field.
Qed.

Lemma sin_ub_poly (a : R) :
  sin_ub a = a - a ^ 3 / 6 + a ^ 5 / 120 - a ^ 7 / 5040 + a ^ 9 / 362880.
Proof.
  unfold sin_ub, sin_approx, sin_term. cbn [sum_f_R0].
  change (2 * 0 + 1)%nat with 1%nat. change (2 * 1 + 1)%nat with 3%nat.
  change (2 * 2 + 1)%nat with 5%nat. change (2 * 3 + 1)%nat with 7%nat.
  change (2 * 4 + 1)%nat with 9%nat.
  rewrite (INR_fact 1 1), (INR_fact 3 6), (INR_fact 5 120), (INR_fact 7 5040),
    (INR_fact 9 362880) by (vm_compute; reflexivity).
  field.
Qed.

(** [3 < PI <= 4] puts 35 degrees between 7/12 and 7/9 radians. *)
Lemma sin_deg35_bounds : 0.55 < sin deg35 < 0.702.
Proof.
  assert (Hpi : 3 < PI) by (generalize PI2_3_2; lra).
  assert (Hpi4 := PI_4).
  assert (Hlo : 0.55 < sin (7 / 12)).
  { destruct (SIN (7 / 12)) as [H _]; [lra | lra | ].
    rewrite sin_lb_poly in H. lra. }
  assert (Hhi : sin (7 / 9) < 0.702).
  { destruct (SIN (7 / 9)) as [_ H]; [lra | lra | ].
    rewrite sin_ub_poly in H. lra. }
  split.
  - apply Rlt_trans with (1 := Hlo).
    apply sin_increasing_1; unfold deg35; lra.
  - apply Rle_lt_trans with (2 := Hhi).
    apply sin_incr_1; unfold deg35; lra.
Qed.

Lemma cos_deg35_pos : 0 < cos deg35.
Proof.
  generalize deg35_range PI_RGT_0; intros [Hlo Hhi] Hpi.
  apply cos_gt_0; lra.
Qed.

(** The curve written with the sine and cosine of 35 degrees. *)
Lemma generateCurve_unfold (x length curviness : R) :
  generateCurve x length curviness =
    curviness / 10 * 5
      * sin (2 * PI * (1 + curviness / 10 * 2) * x / length) * cos deg35
    + x * sin deg35 - 0.5 * (x / length).
Proof.
  unfold generateCurve, CONFIG.game.maxCurviness.
  rewrite angle_is_minus_deg35, sin_neg, cos_neg. lra.
Qed.

(** With no curviness the wave vanishes and a line through the origin
    is left. *)
Lemma generateCurve_flat (x length : R) :
  generateCurve x length 0 = (sin deg35 - 0.5 / length) * x.
Proof.
  rewrite generateCurve_unfold. unfold Rdiv. ring.
Qed.

Lemma flat_slope_positive (length : R) :
  1 <= length -> 0 < sin deg35 - 0.5 / length.
Proof.
  intros Hl. generalize sin_deg35_gt_half; intros Hs.
  assert (0.5 / length <= 0.5).
  { unfold Rdiv. rewrite <- (Rmult_1_r 0.5) at 2.
    apply Rmult_le_compat_l; [lra | ].
    rewrite <- Rinv_1. apply Rinv_le_contravar; lra. }
  lra.
Qed.


End CurveFacts.

(** C2.  On its domain ([x] in [[0, length]], [length > 0], [curviness]
    in [[0, 10]]) [generateCurve] is the reference formula of the
    specification: normalised curviness [n = curviness/10], amplitude [5n],
    frequency [1 + 2n], the sine waveform, the rotation by -35 degrees and
    the bias [-0.5 (x/length)]. *)
Theorem generateCurve_is_reference_formula (x length curviness : R) :
  0 <= x <= length -> 0 < length -> 0 <= curviness <= 10 ->
  Utils.generateCurve x length curviness = CurveSpec.curveHeight x length curviness.
Proof.
  intros _ _ _.
  unfold Utils.generateCurve, CurveSpec.curveHeight, CurveSpec.theta,
    CONFIG.game.maxCurviness.
  replace (1 + curviness / 10 * 2) with (1 + 2 * (curviness / 10)) by ring.
  ring.
Qed.

Lemma generateCurve_is_reference_formula_witness :
  Utils.generateCurve 9 18 5 = CurveSpec.curveHeight 9 18 5.
Proof.
  apply generateCurve_is_reference_formula; lra.
Defined.

(** C3.  With curviness 0 the curve is the rotated zero waveform plus the
    bias, a straight line through the origin; but on a three-word platform
    (length 6) its slope is positive and the right end lies above the left
    end: the line ascends where the documentation of [generateCurve]
    announces a downward trend. *)
Theorem generateCurve_flat_line_ascends :
  (forall x length : R,
      Utils.generateCurve x length 0
      = 0 * cos (-35 * (PI / 180)) - x * sin (-35 * (PI / 180)) + - 0.5 * (x / length))
  /\ (forall x : R, Utils.generateCurve x 6 0 = (sin deg35 - 0.5 / 6) * x)
  /\ 0 < sin deg35 - 0.5 / 6
  /\ Utils.generateCurve 0 6 0 < Utils.generateCurve 6 6 0.
Proof.
  assert (Hs : 0 < sin deg35 - 0.5 / 6)
    by (apply CurveFacts.flat_slope_positive; lra).
  repeat split.
  - intros x length. unfold Utils.generateCurve, CONFIG.game.maxCurviness.
    unfold Rdiv. ring.
  - intros x. apply CurveFacts.generateCurve_flat.
  - exact Hs.
  - rewrite !CurveFacts.generateCurve_flat. lra.
Qed.

(** ** The geometry cache and the height query *)

Module GeometryFacts.

Import GeometryGenerator.

Lemma toFixed1_nonneg (x : R) (n : Z) :
  0 <= x -> IZR n <= x * 10 + 1 / 2 < IZR n + 1 -> toFixed1 x = (false, n).
Proof.
  intros Hx Hn. unfold toFixed1.
  destruct (Rlt_dec x 0) as [Hneg | _]; [lra | ].
  now rewrite (Zfloor_eq n).
Qed.

Lemma cacheGet_set_same (cache : Cache) (k : CacheKey) (m : Mesh) :
  cacheGet (cacheSet cache k m) k = Some m.
Proof.
  unfold cacheSet; simpl. destruct (key_eq_dec k k); congruence.
Qed.

Section WithClone.

Variable clone : Mesh -> Mesh.

Lemma createCurvedPlatform_miss (cache : Cache) (length width curviness : R) :
  cacheGet cache (cacheKey length width curviness) = None ->
  createCurvedPlatform clone cache length width curviness
  = (buildCurvedPlatform length width curviness,
     cacheSet cache (cacheKey length width curviness)
       (clone (buildCurvedPlatform length width curviness))).
Proof.
  intros Hmiss. unfold createCurvedPlatform. now rewrite Hmiss.
Qed.

Lemma createCurvedPlatform_hit (cache : Cache) (length width curviness : R) (cached : Mesh) :
  cacheGet cache (cacheKey length width curviness) = Some cached ->
  createCurvedPlatform clone cache length width curviness = (clone cached, cache).
Proof.
  intros Hhit. unfold createCurvedPlatform. now rewrite Hhit.
Qed.

(** An entry, once stored, is never replaced. *)
Lemma createCurvedPlatform_keeps (cache : Cache) (length width curviness : R)
  (k : CacheKey) (m : Mesh) :
  cacheGet cache k = Some m ->
  cacheGet (snd (createCurvedPlatform clone cache length width curviness)) k = Some m.
Proof.
  intros Hk. unfold createCurvedPlatform.
  destruct (cacheGet cache (cacheKey length width curviness)) eqn:Hnew; simpl.
  - exact Hk.
  - destruct (key_eq_dec k (cacheKey length width curviness)) as [-> | _].
    + congruence.
    + exact Hk.
Qed.

Lemma createMany_keeps (calls : list (R * R * R)) (cache : Cache) (k : CacheKey) (m : Mesh) :
  cacheGet cache k = Some m -> cacheGet (createMany clone calls cache) k = Some m.
Proof.
  revert cache. induction calls as [ | [[l w] c] rest IH]; intros cache Hk; simpl.
  - exact Hk.
  - apply IH. now apply createCurvedPlatform_keeps.
Qed.

(** Whatever the first call finds, the second one is served from the
    cache the first one left. *)
Lemma second_call_is_a_hit (cache : Cache) (calls : list (R * R * R))
  (length width c1 c2 : R) :
  toFixed1 c1 = toFixed1 c2 ->
  exists cached,
    cacheGet (snd (createCurvedPlatform clone cache length width c1))
      (cacheKey length width c1) = Some cached
    /\ createCurvedPlatform clone
         (createMany clone calls (snd (createCurvedPlatform clone cache length width c1)))
         length width c2
       = (clone cached,
          createMany clone calls (snd (createCurvedPlatform clone cache length width c1))).
Proof.
  intros Hkey.
  assert (Hk : cacheKey length width c2 = cacheKey length width c1)
    by (unfold cacheKey; now rewrite Hkey).
  assert (Hex : exists cached,
    cacheGet (snd (createCurvedPlatform clone cache length width c1))
      (cacheKey length width c1) = Some cached).
  { unfold createCurvedPlatform.
    destruct (cacheGet cache (cacheKey length width c1)) eqn:Hc; cbn [snd].
    - eauto.
    - rewrite cacheGet_set_same. eauto. }
  destruct Hex as [cached Hcached]. exists cached. split; [exact Hcached | ].
  apply createCurvedPlatform_hit. rewrite Hk. now apply createMany_keeps.
Qed.

End WithClone.

Lemma getPlatformYAtX_first_child (p : Platform) (m : Mesh) (rest : list Mesh) (x : R) :
  children p = m :: rest ->
  getPlatformYAtX p x
  = match curveFunction m with Some f => f x | None => 0 end.
Proof.
  intros Hc. unfold getPlatformYAtX. now rewrite Hc.
Qed.

Lemma translateX_app (dx : R) (a b : list (R * R)) :
  translateX dx (a ++ b) = translateX dx a ++ translateX dx b.
Proof. unfold translateX. apply map_app. Qed.

Lemma indices_length (segments : Z) :
  List.length (indices segments) = S (Z.to_nat segments).
Proof. unfold indices. apply length_seq. Qed.

Lemma buildCurvedPlatform_geometry (length width curviness : R) :
  geometry (buildCurvedPlatform length width curviness)
  = translateX (- length / 2)
      (map (topPoint length curviness (platformSegments length))
         (indices (platformSegments length))
       ++ map (bottomPoint length curviness (platformSegments length))
            (rev (indices (platformSegments length)))).
Proof. reflexivity. Qed.

(** The first [segments + 1] vertices of a built mesh are its top
    surface. *)
Lemma top_surface (length width curviness : R) :
  firstn (S (Z.to_nat (platformSegments length)))
    (geometry (buildCurvedPlatform length width curviness))
  = translateX (- length / 2)
      (map (topPoint length curviness (platformSegments length))
         (indices (platformSegments length))).
Proof.
  rewrite buildCurvedPlatform_geometry, translateX_app.
  rewrite firstn_app.
  replace (S (Z.to_nat (platformSegments length))
           - List.length (translateX (- length / 2)
               (map (topPoint length curviness (platformSegments length))
                  (indices (platformSegments length)))))%nat with 0%nat.
  - rewrite firstn_O, app_nil_r. apply firstn_all2.
    unfold translateX. rewrite !length_map, indices_length. lia.
  - unfold translateX. rewrite !length_map, indices_length. lia.
Qed.

(** The curves of curviness 0.04 and 0 differ at a quarter of the length:
    there the wave of the first has phase 0.504 pi, strictly between 0 and
    pi. *)
Lemma curves_differ : Utils.generateCurve 1 4 0.04 <> Utils.generateCurve 1 4 0.
Proof.
  rewrite CurveFacts.generateCurve_flat, CurveFacts.generateCurve_unfold.
  set (a := 2 * PI * (1 + 0.04 / 10 * 2) * 1 / 4).
  assert (Ha : 0 < sin a).
  { apply sin_gt_0; unfold a; generalize PI_RGT_0; lra. }
  assert (Hp : 0 < sin a * cos deg35)
    by (apply Rmult_lt_0_compat; [exact Ha | exact CurveFacts.cos_deg35_pos]).
  intros Heq.
  assert (Hz : 0.04 / 10 * 5 * (sin a * cos deg35) = 0) by lra.
  lra.
Qed.

(** The second vertex of the outline of a built mesh: the first sample
    of the top surface after the left end. *)
Lemma second_vertex (length width curviness : R) :
  nth_error (geometry (buildCurvedPlatform length width curviness)) 1
  = Some (INR 1 / IZR (platformSegments length) * length + - length / 2,
          Utils.generateCurve (INR 1 / IZR (platformSegments length) * length)
            length curviness).
Proof.
  rewrite buildCurvedPlatform_geometry. unfold indices, translateX.
  assert (H : (10 <= platformSegments length)%Z) by (unfold platformSegments; lia).
  destruct (Z.to_nat (platformSegments length)) as [ | n] eqn:E; [lia | ].
  cbn [seq map app nth_error]. reflexivity.
Qed.

(** At that sample the curves of curviness 0.04 and 0 on a platform of
    length 4 differ: the phase of the wave lies strictly between 0 and
    pi. *)
Lemma curves_differ_at_first_sample :
  Utils.generateCurve (INR 1 / IZR (platformSegments 4) * 4) 4 0.04
  <> Utils.generateCurve (INR 1 / IZR (platformSegments 4) * 4) 4 0.
Proof.
  assert (H : (10 <= platformSegments 4)%Z) by (unfold platformSegments; lia).
  apply IZR_le in H.
  set (s := IZR (platformSegments 4)) in *.
  assert (Hx : 0 < INR 1 / s * 4 <= 0.4).
  { cbn [INR]. split.
    - apply Rmult_lt_0_compat; [ | lra]. apply Rdiv_lt_0_compat; lra.
    - apply Rmult_le_reg_r with s; [lra | ]. field_simplify; lra. }
  set (x := INR 1 / s * 4) in *.
  rewrite CurveFacts.generateCurve_flat, CurveFacts.generateCurve_unfold.
  set (a := 2 * PI * (1 + 0.04 / 10 * 2) * x / 4).
  assert (Ha : 0 < sin a).
  { apply sin_gt_0; unfold a; generalize PI_RGT_0; intros; nra. }
  assert (Hp : 0 < sin a * cos deg35)
    by (apply Rmult_lt_0_compat; [exact Ha | exact CurveFacts.cos_deg35_pos]).
  intros Heq.
  assert (Hz : 0.04 / 10 * 5 * (sin a * cos deg35) = 0) by lra.
  lra.
Qed.

End GeometryFacts.

(** C10, as stated for any two calls, fails for every [clone] that keeps
    the geometry, as the engine's and the identity do: when a call with
    curviness 0 has filled the cache, two calls with curviness 0.04 (same
    length 4, width 2, same rounded curviness) are both served the mesh
    built with curviness 0, whose outline differs from the one of
    curviness 0.04 at its second vertex. *)
Lemma rounded_key_serves_older_mesh_counterexample :
  ~ exists clone : GeometryGenerator.Mesh -> GeometryGenerator.Mesh,
      (forall m, GeometryGenerator.geometry (clone m) = GeometryGenerator.geometry m)
      /\ forall (cache : GeometryGenerator.Cache) (calls : list (R * R * R))
                (length width c1 c2 : R),
           GeometryGenerator.toFixed1 c1 = GeometryGenerator.toFixed1 c2 ->
           fst (GeometryGenerator.createCurvedPlatform clone
                  (createMany clone calls
                     (snd (GeometryGenerator.createCurvedPlatform clone cache
                             length width c1)))
                  length width c2)
           = clone (clone (GeometryGenerator.buildCurvedPlatform length width c1)).
Proof.
  intros [clone [Hgeo Hclaim]].
  assert (K4 : GeometryGenerator.toFixed1 0.04 = (false, 0%Z))
    by (apply GeometryFacts.toFixed1_nonneg; simpl; lra).
  assert (K0 : GeometryGenerator.toFixed1 0 = (false, 0%Z))
    by (apply GeometryFacts.toFixed1_nonneg; simpl; lra).
  assert (Hk : GeometryGenerator.cacheKey 4 2 0.04 = GeometryGenerator.cacheKey 4 2 0)
    by (unfold GeometryGenerator.cacheKey; congruence).
  pose (cache := snd (GeometryGenerator.createCurvedPlatform clone
                        GeometryGenerator.init 4 2 0)).
  assert (Hold : GeometryGenerator.cacheGet cache (GeometryGenerator.cacheKey 4 2 0.04)
                 = Some (clone (GeometryGenerator.buildCurvedPlatform 4 2 0))).
  { unfold cache.
    rewrite (GeometryFacts.createCurvedPlatform_miss clone GeometryGenerator.init 4 2 0)
      by reflexivity.
    cbn [snd]. rewrite Hk. apply GeometryFacts.cacheGet_set_same. }
  assert (Hfirst : GeometryGenerator.createCurvedPlatform clone cache 4 2 0.04
                   = (clone (clone (GeometryGenerator.buildCurvedPlatform 4 2 0)), cache))
    by now apply GeometryFacts.createCurvedPlatform_hit.
  assert (H := Hclaim cache [] 4 2 0.04 0.04 eq_refl).
  cbn [createMany] in H. rewrite Hfirst in H. cbn [snd] in H.
  rewrite Hfirst in H. cbn [fst] in H.
  apply (f_equal GeometryGenerator.geometry) in H. rewrite !Hgeo in H.
  apply (f_equal (fun g => nth_error g 1)) in H.
  rewrite !GeometryFacts.second_vertex in H.
  injection H as H. symmetry in H.
  exact (GeometryFacts.curves_differ_at_first_sample H).
Qed.

(** C10, amended.  The cache is keyed by length, width and the curviness
    rounded to one decimal.  When a call finds no entry under its key, and
    so builds and caches a mesh, any later call with the same length and
    width and a curviness that rounds to the same decimal gets a clone of
    the cached mesh, which is a clone of the mesh built with the first
    call's curviness; its own curviness is not used and the cache stays as
    it is. *)
Theorem rounded_key_serves_first_mesh
  (clone : GeometryGenerator.Mesh -> GeometryGenerator.Mesh)
  (cache : GeometryGenerator.Cache) (calls : list (R * R * R))
  (length width c1 c2 : R) :
  GeometryGenerator.toFixed1 c1 = GeometryGenerator.toFixed1 c2 ->
  GeometryGenerator.cacheGet cache (GeometryGenerator.cacheKey length width c1) = None ->
  let first := GeometryGenerator.createCurvedPlatform clone cache length width c1 in
  let later := createMany clone calls (snd first) in
  let second := GeometryGenerator.createCurvedPlatform clone later length width c2 in
  fst first = GeometryGenerator.buildCurvedPlatform length width c1
  /\ GeometryGenerator.cacheGet later (GeometryGenerator.cacheKey length width c2)
     = Some (clone (GeometryGenerator.buildCurvedPlatform length width c1))
  /\ fst second = clone (clone (GeometryGenerator.buildCurvedPlatform length width c1))
  /\ snd second = later.
Proof.
  intros Hkey Hmiss first later second.
  assert (Hk : GeometryGenerator.cacheKey length width c2
               = GeometryGenerator.cacheKey length width c1)
    by (unfold GeometryGenerator.cacheKey; now rewrite Hkey).
  assert (Hfirst : first
    = (GeometryGenerator.buildCurvedPlatform length width c1,
       GeometryGenerator.cacheSet cache (GeometryGenerator.cacheKey length width c1)
         (clone (GeometryGenerator.buildCurvedPlatform length width c1))))
    by now apply GeometryFacts.createCurvedPlatform_miss.
  assert (Hlater : GeometryGenerator.cacheGet later
                     (GeometryGenerator.cacheKey length width c2)
    = Some (clone (GeometryGenerator.buildCurvedPlatform length width c1))).
  { unfold later. rewrite Hk. apply GeometryFacts.createMany_keeps.
    rewrite Hfirst. apply GeometryFacts.cacheGet_set_same. }
  assert (Hsecond : second
    = (clone (clone (GeometryGenerator.buildCurvedPlatform length width c1)), later))
    by now apply GeometryFacts.createCurvedPlatform_hit.
  rewrite Hsecond, Hfirst. auto.
Qed.

Lemma rounded_key_serves_first_mesh_witness :
  GeometryGenerator.toFixed1 4.96 = GeometryGenerator.toFixed1 5.04
  /\ fst (GeometryGenerator.createCurvedPlatform (fun m => m)
            (snd (GeometryGenerator.createCurvedPlatform (fun m => m)
                    GeometryGenerator.init 6 2 4.96))
            6 2 5.04)
     = GeometryGenerator.buildCurvedPlatform 6 2 4.96.
Proof.
  assert (Hkey : GeometryGenerator.toFixed1 4.96 = GeometryGenerator.toFixed1 5.04).
  { rewrite (GeometryFacts.toFixed1_nonneg 4.96 50), (GeometryFacts.toFixed1_nonneg 5.04 50);
      [reflexivity | lra | simpl; lra | lra | simpl; lra]. }
  split; [exact Hkey | ].
  exact (proj1 (proj2 (proj2
    (rounded_key_serves_first_mesh (fun m => m) GeometryGenerator.init [] 6 2 4.96 5.04
       Hkey eq_refl)))).
Defined.

(** C1, as stated, fails whatever the engine's [clone] does: after a call
    with curviness 0.04 has filled the cache, the calls with curviness 0.04
    and with curviness 0 are served the same mesh, and one height function
    cannot equal two curves that differ at [x = -1]. *)
Lemma height_query_of_cached_mesh_counterexample :
  ~ exists clone : GeometryGenerator.Mesh -> GeometryGenerator.Mesh,
      forall (calls : list (R * R * R)) (length width curviness : R)
             (p : GeometryGenerator.Platform) (rest : list GeometryGenerator.Mesh) (x : R),
        GeometryGenerator.children p
        = fst (GeometryGenerator.createCurvedPlatform clone
                 (createMany clone calls GeometryGenerator.init) length width curviness)
          :: rest ->
        GeometryGenerator.getPlatformYAtX p x
        = Utils.generateCurve (x + length / 2) length curviness.
Proof.
  intros [clone Hclaim].
  assert (K4 : GeometryGenerator.toFixed1 0.04 = (false, 0%Z))
    by (apply GeometryFacts.toFixed1_nonneg; simpl; lra).
  assert (K0 : GeometryGenerator.toFixed1 0 = (false, 0%Z))
    by (apply GeometryFacts.toFixed1_nonneg; simpl; lra).
  pose (calls := [(4, 2, 0.04)] : list (R * R * R)).
  destruct (GeometryFacts.second_call_is_a_hit clone GeometryGenerator.init [] 4 2 0.04 0.04
              eq_refl) as [cached [Hc Hsame]].
  destruct (GeometryFacts.second_call_is_a_hit clone GeometryGenerator.init [] 4 2 0.04 0)
    as [cached' [Hc' Hother]]; [congruence | ].
  assert (Hcc : cached' = cached) by congruence.
  subst cached'. clear Hc'.
  simpl createMany in Hsame, Hother.
  pose (ud := GeometryGenerator.mkUserData
                (GeometryGenerator.mkSentence None EmptyString None None) 4 0 []).
  pose (p := GeometryGenerator.mkPlatform (inr 0%nat) 0 0 [clone cached] ud).
  assert (H4 := Hclaim calls 4 2 0.04 p [] (-1)).
  assert (H0 := Hclaim calls 4 2 0 p [] (-1)).
  simpl createMany in H4, H0.
  rewrite Hother in H0. rewrite Hsame in H4.
  specialize (H4 eq_refl). specialize (H0 eq_refl).
  rewrite H4 in H0.
  replace (-1 + 4 / 2) with 1 in H0 by lra.
  exact (GeometryFacts.curves_differ H0).
Qed.

(** C1, amended.  A mesh that [createCurvedPlatform] builds itself (the
    cache has no entry under its key) answers every height query with
    [generateCurve(x + length/2, length, curviness)], and the vertices of
    its top surface lie on that same curve. *)
Theorem fresh_mesh_height_query
  (clone : GeometryGenerator.Mesh -> GeometryGenerator.Mesh)
  (cache : GeometryGenerator.Cache) (length width curviness : R)
  (p : GeometryGenerator.Platform) (rest : list GeometryGenerator.Mesh) (x : R) :
  GeometryGenerator.cacheGet cache (GeometryGenerator.cacheKey length width curviness) = None ->
  GeometryGenerator.children p
  = fst (GeometryGenerator.createCurvedPlatform clone cache length width curviness) :: rest ->
  GeometryGenerator.getPlatformYAtX p x
  = Utils.generateCurve (x + length / 2) length curviness
  /\ forall v : R * R,
       In v (firstn (S (Z.to_nat (GeometryGenerator.platformSegments length)))
               (GeometryGenerator.geometry
                  (fst (GeometryGenerator.createCurvedPlatform clone cache
                          length width curviness)))) ->
       snd v = GeometryGenerator.getPlatformYAtX p (fst v).
Proof.
  intros Hmiss Hchild.
  rewrite (GeometryFacts.createCurvedPlatform_miss clone _ _ _ _ Hmiss) in *.
  cbn [fst] in *.
  assert (Hq : forall t, GeometryGenerator.getPlatformYAtX p t
                         = Utils.generateCurve (t + length / 2) length curviness).
  { intros t. now rewrite (GeometryFacts.getPlatformYAtX_first_child _ _ _ _ Hchild). }
  split; [apply Hq | ].
  intros v Hv. rewrite GeometryFacts.top_surface in Hv.
  unfold GeometryGenerator.translateX in Hv. rewrite map_map in Hv.
  apply in_map_iff in Hv. destruct Hv as [i [<- _]].
  rewrite Hq. unfold GeometryGenerator.topPoint; cbn [fst snd].
  f_equal. lra.
Qed.

Lemma fresh_mesh_height_query_witness :
  GeometryGenerator.getPlatformYAtX
    (GeometryGenerator.mkPlatform (inr 0%nat) 0 0
       [fst (GeometryGenerator.createCurvedPlatform (fun m => m)
               GeometryGenerator.init 18 2 5)]
       (GeometryGenerator.mkUserData
          (GeometryGenerator.mkSentence None EmptyString None None) 18 5 []))
    (-9)
  = Utils.generateCurve (-9 + 18 / 2) 18 5.
Proof.
  exact (proj1 (fresh_mesh_height_query (fun m => m) GeometryGenerator.init 18 2 5
                  (GeometryGenerator.mkPlatform (inr 0%nat) 0 0
                     [fst (GeometryGenerator.createCurvedPlatform (fun m => m)
                             GeometryGenerator.init 18 2 5)]
                     (GeometryGenerator.mkUserData
                        (GeometryGenerator.mkSentence None EmptyString None None) 18 5 []))
                  [] (-9) eq_refl eq_refl)).
Defined.

(** ** The level layout *)

Module LevelFacts.

Import GeometryGenerator.

Section WithClone.

Variable clone : Mesh -> Mesh.

Lemma placePlatforms_skip (cache : Cache) (index : nat) (x y : R)
  (sentence : Sentence) (rest : list Sentence) :
  retained sentence = false ->
  placePlatforms clone cache index x y (sentence :: rest)
  = placePlatforms clone cache (S index) x y rest.
Proof.
  unfold retained. intros H. apply negb_false_iff in H. simpl. now rewrite H.
Qed.

Lemma placePlatforms_keep (cache : Cache) (index : nat) (x y : R)
  (sentence : Sentence) (rest : list Sentence) :
  retained sentence = true ->
  placePlatforms clone cache index x y (sentence :: rest)
  = let created := createPlatform clone cache sentence index in
    let platformLength := ud_length (userData (fst created)) in
    let later :=
      placePlatforms clone (snd created) (S index)
        (x + platformLength / 2 + platformLength / 2 + 2) (y - 5) rest in
    {| lay_platforms :=
         setPosition (fst created) (x + platformLength / 2) y :: lay_platforms later;
       lay_nextStartX := lay_nextStartX later;
       lay_cache := lay_cache later |}.
Proof.
  unfold retained. intros H. apply negb_true_iff in H. simpl. now rewrite H.
Qed.

(** The first platform laid out starts at the running X and sits at the
    running Y. *)
Lemma first_platform_slot (sentences : list Sentence) (cache : Cache) (index : nat)
  (x y : R) (p : Platform) (later : list Platform) :
  lay_platforms (placePlatforms clone cache index x y sentences) = p :: later ->
  position_x p - ud_length (userData p) / 2 = x /\ position_y p = y.
Proof.
  revert cache index. induction sentences as [ | s rest IH]; intros cache index H.
  - discriminate.
  - destruct (retained s) eqn:Hs.
    + rewrite (placePlatforms_keep _ _ _ _ _ _ Hs) in H. cbn in H.
      injection H as <- _. cbn. split; lra.
    + rewrite (placePlatforms_skip _ _ _ _ _ _ Hs) in H. now apply IH in H.
Qed.

Lemma consecutive_slots (sentences : list Sentence) (cache : Cache) (index : nat)
  (x y : R) (i : nat) (a b : Platform) :
  nth_error (lay_platforms (placePlatforms clone cache index x y sentences)) i = Some a ->
  nth_error (lay_platforms (placePlatforms clone cache index x y sentences)) (S i) = Some b ->
  position_x b - ud_length (userData b) / 2
  = position_x a + ud_length (userData a) / 2 + 2
  /\ position_y b = position_y a - 5.
Proof.
  revert cache index x y i.
  induction sentences as [ | s rest IH]; intros cache index x y i Ha Hb.
  - destruct i; discriminate.
  - destruct (retained s) eqn:Hs.
    + rewrite (placePlatforms_keep _ _ _ _ _ _ Hs) in Ha, Hb. cbn in Ha, Hb.
      destruct i as [ | i].
      * injection Ha as <-.
        destruct (lay_platforms (placePlatforms clone _ _ _ _ rest)) as [ | q later] eqn:Hl;
          [discriminate | ].
        injection Hb as ->.
        apply first_platform_slot in Hl. destruct Hl as [Hx Hy].
        cbn. split; lra.
      * exact (IH _ _ _ _ _ Ha Hb).
    + rewrite (placePlatforms_skip _ _ _ _ _ _ Hs) in Ha, Hb.
      exact (IH _ _ _ _ _ Ha Hb).
Qed.

(** One platform per retained sentence, in order. *)
Lemma platforms_of_retained (sentences : list Sentence) (cache : Cache) (index : nat)
  (x y : R) :
  map (fun p => ud_sentence (userData p))
    (lay_platforms (placePlatforms clone cache index x y sentences))
  = filter retained sentences.
Proof.
  revert cache index x y. induction sentences as [ | s rest IH]; intros cache index x y.
  - reflexivity.
  - cbn [filter]. destruct (retained s) eqn:Hs.
    + rewrite (placePlatforms_keep _ _ _ _ _ _ Hs). cbn. now rewrite IH.
    + rewrite (placePlatforms_skip _ _ _ _ _ _ Hs). apply IH.
Qed.

(** Dropping the short sentences beforehand changes the indices, hence
    the names, and nothing else. *)
Lemma dropped_leave_no_trace (sentences : list Sentence) (cache : Cache) (i j : nat)
  (x y : R) :
  map unnamed (lay_platforms (placePlatforms clone cache i x y sentences))
  = map unnamed (lay_platforms (placePlatforms clone cache j x y (filter retained sentences)))
  /\ lay_nextStartX (placePlatforms clone cache i x y sentences)
     = lay_nextStartX (placePlatforms clone cache j x y (filter retained sentences))
  /\ lay_cache (placePlatforms clone cache i x y sentences)
     = lay_cache (placePlatforms clone cache j x y (filter retained sentences)).
Proof.
  revert cache i j x y. induction sentences as [ | s rest IH]; intros cache i j x y.
  - auto.
  - cbn [filter]. destruct (retained s) eqn:Hs.
    + rewrite !(placePlatforms_keep _ _ _ _ _ _ Hs). cbn.
      destruct (IH (snd (createCurvedPlatform clone cache (wordCountOf s * 2)
                           CONFIG.game.platformWidth
                           match sentence_curviness s with
                           | Some c => c
                           | None => CONFIG.content.defaultCurviness
                           end))
                  (S i) (S j)
                  (x + wordCountOf s * 2 / 2 + wordCountOf s * 2 / 2 + 2) (y - 5))
        as [H1 [H2 H3]].
      rewrite H1, H2, H3. auto.
    + rewrite (placePlatforms_skip _ _ _ _ _ _ Hs). apply IH.
Qed.

End WithClone.

End LevelFacts.

(** C4.  In the level [createLevel] builds, each platform starts exactly 2
    units after the end of the one before it, hence strictly to its right,
    and sits exactly 5 units lower. *)
Theorem level_gap_and_step
  (clone : GeometryGenerator.Mesh -> GeometryGenerator.Mesh)
  (cache : GeometryGenerator.Cache) (sentences : list GeometryGenerator.Sentence)
  (i : nat) (a b : GeometryGenerator.Platform) :
  nth_error (GeometryGenerator.level_children
               (fst (GeometryGenerator.createLevel clone cache sentences))) i = Some a ->
  nth_error (GeometryGenerator.level_children
               (fst (GeometryGenerator.createLevel clone cache sentences))) (S i) = Some b ->
  GeometryGenerator.position_x b
    - GeometryGenerator.ud_length (GeometryGenerator.userData b) / 2
  = GeometryGenerator.position_x a
    + GeometryGenerator.ud_length (GeometryGenerator.userData a) / 2 + 2
  /\ GeometryGenerator.position_x a
       + GeometryGenerator.ud_length (GeometryGenerator.userData a) / 2
     < GeometryGenerator.position_x b
       - GeometryGenerator.ud_length (GeometryGenerator.userData b) / 2
  /\ GeometryGenerator.position_y b = GeometryGenerator.position_y a - 5.
Proof.
  unfold GeometryGenerator.createLevel; cbn [fst GeometryGenerator.level_children].
  intros Ha Hb.
  destruct (LevelFacts.consecutive_slots clone sentences cache 0 0 0 i a b Ha Hb)
    as [Hgap Hstep].
  repeat split; [exact Hgap | lra | exact Hstep].
Qed.

Lemma level_gap_and_step_witness :
  exists a b : GeometryGenerator.Platform,
    nth_error (GeometryGenerator.level_children
                 (fst (GeometryGenerator.createLevel (fun m => m)
                         GeometryGenerator.init mockSentences))) 1 = Some a
    /\ nth_error (GeometryGenerator.level_children
                    (fst (GeometryGenerator.createLevel (fun m => m)
                            GeometryGenerator.init mockSentences))) 2 = Some b
    /\ GeometryGenerator.position_x b
         - GeometryGenerator.ud_length (GeometryGenerator.userData b) / 2
       = GeometryGenerator.position_x a
         + GeometryGenerator.ud_length (GeometryGenerator.userData a) / 2 + 2
    /\ GeometryGenerator.position_y b = GeometryGenerator.position_y a - 5.
Proof.
  eexists. eexists.
  split; [reflexivity | ].
  split; [reflexivity | ].
  destruct (level_gap_and_step (fun m => m) GeometryGenerator.init mockSentences 1 _ _
              eq_refl eq_refl) as [Hgap [_ Hstep]].
  split; [exact Hgap | exact Hstep].
Defined.

(** C8.  [createLevel] builds one platform for each sentence of at least
    three words, in order, and none for the others; the sentences dropped
    leave the layout as if they had never been in the input; and
    [sentenceCount] is the length of the whole input, so that it exceeds
    the number of platforms by the number of sentences dropped. *)
Theorem createLevel_drops_short_sentences
  (clone : GeometryGenerator.Mesh -> GeometryGenerator.Mesh)
  (cache : GeometryGenerator.Cache) (sentences : list GeometryGenerator.Sentence) :
  let level := fst (GeometryGenerator.createLevel clone cache sentences) in
  let filtered :=
    fst (GeometryGenerator.createLevel clone cache (filter retained sentences)) in
  (forall s, retained s = true
             <-> (3 <= Utils.countWords (GeometryGenerator.sentence_text s))%nat)
  /\ map (fun p => GeometryGenerator.ud_sentence (GeometryGenerator.userData p))
       (GeometryGenerator.level_children level)
     = filter retained sentences
  /\ GeometryGenerator.sentenceCount level = List.length sentences
  /\ (GeometryGenerator.sentenceCount level
      - List.length (GeometryGenerator.level_children level))%nat
     = List.length (filter (fun s => negb (retained s)) sentences)
  /\ map unnamed (GeometryGenerator.level_children level)
     = map unnamed (GeometryGenerator.level_children filtered)
  /\ GeometryGenerator.totalLength level = GeometryGenerator.totalLength filtered.
Proof.
  intros level filtered.
  assert (Hmap : map (fun p => GeometryGenerator.ud_sentence (GeometryGenerator.userData p))
                   (GeometryGenerator.level_children level)
                 = filter retained sentences)
    by apply LevelFacts.platforms_of_retained.
  destruct (LevelFacts.dropped_leave_no_trace clone sentences cache 0 0 0 0)
    as [Hlayout [Htotal _]].
  split; [ | split; [exact Hmap | split; [reflexivity | split; [ | split]]]].
  - intros s. unfold retained, CONFIG.content.minSentenceLength.
    rewrite negb_true_iff, Nat.ltb_ge. tauto.
  - assert (Hlen : List.length (GeometryGenerator.level_children level)
                   = List.length (filter retained sentences))
      by (rewrite <- Hmap; now rewrite length_map).
    rewrite Hlen. cbn [GeometryGenerator.sentenceCount level fst
                       GeometryGenerator.createLevel].
    generalize (filter_length retained sentences). lia.
  - exact Hlayout.
  - exact Htotal.
Qed.

(** ** The player: collisions and word surfing *)

Module PlayerFacts.

Import GeometryGenerator Player.

Lemma Rle_bool_true (a b : R) : a <= b -> Rle_bool a b = true.
Proof. intros H. unfold Rle_bool. destruct (Rle_dec a b); [reflexivity | contradiction]. Qed.

Lemma Rle_bool_false (a b : R) : b < a -> Rle_bool a b = false.
Proof. intros H. unfold Rle_bool. destruct (Rle_dec a b); [lra | reflexivity]. Qed.

Lemma Rlt_bool_true (a b : R) : a < b -> Rlt_bool a b = true.
Proof. intros H. unfold Rlt_bool. destruct (Rlt_dec a b); [reflexivity | contradiction]. Qed.

Lemma Rlt_bool_false (a b : R) : b <= a -> Rlt_bool a b = false.
Proof. intros H. unfold Rlt_bool. destruct (Rlt_dec a b); [lra | reflexivity]. Qed.

Lemma Rle_bool_spec (a b : R) : Rle_bool a b = true <-> a <= b.
Proof.
  unfold Rle_bool. destruct (Rle_dec a b); split; intros; try assumption;
    try reflexivity; try discriminate; contradiction.
Qed.

Lemma Rlt_bool_spec (a b : R) : Rlt_bool a b = true <-> a < b.
Proof.
  unfold Rlt_bool. destruct (Rlt_dec a b); split; intros; try assumption;
    try reflexivity; try discriminate; contradiction.
Qed.

(** Case analysis on the next integer test of the goal. *)
Ltac case_test :=
  match goal with
  | |- context [(?a <? ?b)%Z] => destruct (Z.ltb_spec a b)
  | |- context [(?a =? ?b)%Z] => destruct (Z.eqb_spec a b)
  | |- context [(?a =? ?b)%nat] => destruct (Nat.eqb_spec a b)
  end.

(** *** What each stage of a tick leaves alone *)

Lemma processInput_keeps (input : Input) (dt : R) (st : State) :
  currentPlatform (processInput input dt st) = currentPlatform st
  /\ currentWordIndex (processInput input dt st) = currentWordIndex st
  /\ score (processInput input dt st) = score st
  /\ perfectSurfs (processInput input dt st) = perfectSurfs st
  /\ position (processInput input dt st) = position st.
Proof.
  unfold processInput.
  destruct (jump input && isGrounded _ && negb (isJumping _)); cbn; repeat split.
Qed.

Lemma applyPhysics_keeps (dt : R) (st : State) :
  currentPlatform (applyPhysics dt st) = currentPlatform st
  /\ currentWordIndex (applyPhysics dt st) = currentWordIndex st
  /\ score (applyPhysics dt st) = score st
  /\ perfectSurfs (applyPhysics dt st) = perfectSurfs st
  /\ isGrounded (applyPhysics dt st) = isGrounded st
  /\ isJumping (applyPhysics dt st) = isJumping st.
Proof. unfold applyPhysics; cbn; repeat split. Qed.

Lemma checkWordSurfing_keeps (st : State) :
  currentPlatform (fst (checkWordSurfing st)) = currentPlatform st
  /\ position (fst (checkWordSurfing st)) = position st
  /\ velocity (fst (checkWordSurfing st)) = velocity st
  /\ isGrounded (fst (checkWordSurfing st)) = isGrounded st
  /\ isJumping (fst (checkWordSurfing st)) = isJumping st.
Proof.
  unfold checkWordSurfing. destruct (currentPlatform st) as [ref | ] eqn:Hc; [ | auto].
  destruct (currentWordIndex st <? _)%Z; cbn;
    destruct (_ && _); cbn; try destruct (_ =? _)%Z; cbn; repeat split; exact Hc.
Qed.

(** *** Collisions *)

(** The events of the collision stage are sentence playbacks. *)
Lemma collisions_events (level : option Level) (st : State) (p : nat) :
  wordsAwarded p (snd (checkPlatformCollisions level st)) = []
  /\ perfectSurfCount p (snd (checkPlatformCollisions level st)) = 0%nat.
Proof.
  unfold checkPlatformCollisions. destruct level as [lv | ]; [ | auto].
  destruct (findPlatform lv _ _ _) as [[found platformY] | ].
  - destruct (Rlt_bool _ 0); [ | auto].
    destruct (Rle_bool _ _); [ | auto].
    destruct (sameRef _ found); cbn; auto.
  - destruct (isGrounded _); cbn; auto.
Qed.

(** A collision stage that leaves the current platform as it was has not
    touched the word index. *)
Lemma collisions_same_platform (level : option Level) (st : State) (ref : PlatformRef) :
  currentPlatform st = Some ref ->
  currentPlatform (fst (checkPlatformCollisions level st)) = Some ref ->
  currentWordIndex (fst (checkPlatformCollisions level st)) = currentWordIndex st
  /\ snd (checkPlatformCollisions level st) = [].
Proof.
  intros Hbefore. unfold checkPlatformCollisions. destruct level as [lv | ]; [ | auto].
  destruct (findPlatform lv _ _ _) as [[found platformY] | ].
  - destruct (Rlt_bool _ 0); [ | cbn; auto].
    destruct (Rle_bool _ _); [ | cbn; auto].
    cbn [setIsJumping setIsGrounded setVelocity setPosition currentPlatform
         isGrounded isJumping velocity position currentWordIndex score perfectSurfs].
    rewrite Hbefore. cbn [sameRef].
    destruct (ref_index ref =? ref_index found)%nat eqn:Hsame; cbn; [auto | ].
    intros Hafter. injection Hafter as ->. rewrite Nat.eqb_refl in Hsame. discriminate.
  - destruct (Rlt_bool _ 0); cbn.
    + auto.
    + destruct (isGrounded st); cbn; [ | auto].
      intros Hafter. discriminate.
Qed.

(** The outcomes of [checkPlatformCollisions], by what the scan finds and
    by the vertical velocity. *)
Lemma collisions_land (level : Level) (st : State) (found : PlatformRef) (h : R) :
  vec_y (velocity st) < 0 ->
  findPlatform level (vec_x (position st)) (vec_y (position st)) 0.5 = Some (found, h) ->
  vec_y (position st) - h <= 0.5 ->
  checkPlatformCollisions (Some level) st
  = (mkState (setY (position st) (h + 0.5)) (setY (velocity st) 0) false true (Some found)
       (if sameRef (currentPlatform st) found then currentWordIndex st else 0%Z)
       (score st) (perfectSurfs st),
     if sameRef (currentPlatform st) found then [] else [PlaySentence (ref_index found)]).
Proof.
  intros Hv Hf Hd. unfold checkPlatformCollisions. rewrite Hf.
  rewrite (Rlt_bool_true _ _ Hv), (Rle_bool_true _ _ Hd).
  cbn. destruct (sameRef (currentPlatform st) found); reflexivity.
Qed.

Lemma collisions_far (level : Level) (st : State) (found : PlatformRef) (h : R) :
  vec_y (velocity st) < 0 ->
  findPlatform level (vec_x (position st)) (vec_y (position st)) 0.5 = Some (found, h) ->
  0.5 < vec_y (position st) - h ->
  checkPlatformCollisions (Some level) st = (setIsGrounded st false, []).
Proof.
  intros Hv Hf Hd. unfold checkPlatformCollisions. rewrite Hf.
  rewrite (Rlt_bool_true _ _ Hv), (Rle_bool_false _ _ Hd).
  reflexivity.
Qed.

Lemma collisions_rising (level : Level) (st : State) (found : PlatformRef) (h : R) :
  0 <= vec_y (velocity st) ->
  findPlatform level (vec_x (position st)) (vec_y (position st)) 0.5 = Some (found, h) ->
  checkPlatformCollisions (Some level) st = (st, []).
Proof.
  intros Hv Hf. unfold checkPlatformCollisions. rewrite Hf.
  rewrite (Rlt_bool_false _ _ Hv). reflexivity.
Qed.

Lemma collisions_none_falling (level : Level) (st : State) :
  vec_y (velocity st) < 0 ->
  findPlatform level (vec_x (position st)) (vec_y (position st)) 0.5 = None ->
  checkPlatformCollisions (Some level) st = (setIsGrounded st false, []).
Proof.
  intros Hv Hf. unfold checkPlatformCollisions. rewrite Hf.
  rewrite (Rlt_bool_true _ _ Hv). reflexivity.
Qed.

Lemma collisions_none_rising (level : Level) (st : State) :
  0 <= vec_y (velocity st) -> isGrounded st = false ->
  findPlatform level (vec_x (position st)) (vec_y (position st)) 0.5 = None ->
  checkPlatformCollisions (Some level) st = (st, []).
Proof.
  intros Hv Hg Hf. unfold checkPlatformCollisions. rewrite Hf.
  rewrite (Rlt_bool_false _ _ Hv). now rewrite Hg.
Qed.

(** While the player does not fall, the collision stage moves nothing. *)
Lemma collisions_not_falling (level : option Level) (st : State) :
  0 <= vec_y (velocity st) ->
  position (fst (checkPlatformCollisions level st)) = position st
  /\ velocity (fst (checkPlatformCollisions level st)) = velocity st
  /\ isJumping (fst (checkPlatformCollisions level st)) = isJumping st
  /\ (isGrounded (fst (checkPlatformCollisions level st)) = true -> isGrounded st = true).
Proof.
  intros Hv. unfold checkPlatformCollisions.
  destruct level as [lv | ]; [ | cbn; repeat split; auto].
  rewrite (Rlt_bool_false _ _ Hv).
  destruct (findPlatform lv _ _ _) as [[found platformY] | ]; [cbn; repeat split; auto | ].
  destruct (isGrounded st) eqn:Hg; cbn; rewrite ?Hg; repeat split; auto.
Qed.

(** The collision stage changes the current platform in two ways only. *)
Lemma collisions_change (level : option Level) (st : State) :
  currentPlatform (fst (checkPlatformCollisions level st)) <> currentPlatform st ->
  (exists (lv : Level) (found : PlatformRef) (platformY : R),
      level = Some lv
      /\ vec_y (velocity st) < 0
      /\ findPlatform lv (vec_x (position st)) (vec_y (position st)) 0.5
         = Some (found, platformY)
      /\ vec_y (position st) - platformY <= 0.5
      /\ currentPlatform (fst (checkPlatformCollisions level st)) = Some found)
  \/ (exists lv : Level,
         level = Some lv
         /\ ~ vec_y (velocity st) < 0
         /\ findPlatform lv (vec_x (position st)) (vec_y (position st)) 0.5 = None
         /\ isGrounded st = true
         /\ currentPlatform (fst (checkPlatformCollisions level st)) = None).
Proof.
  unfold checkPlatformCollisions. destruct level as [lv | ]; [ | cbn; congruence].
  destruct (findPlatform lv _ _ _) as [[found platformY] | ] eqn:Hf.
  - destruct (Rlt_bool _ 0) eqn:Hv; [ | cbn; congruence].
    destruct (Rle_bool _ _) eqn:Hd; [ | cbn; congruence].
    intros _. left. exists lv, found, platformY.
    apply Rlt_bool_spec in Hv. apply Rle_bool_spec in Hd.
    repeat split; auto.
    destruct (sameRef _ found); reflexivity.
  - destruct (Rlt_bool _ 0) eqn:Hv; [cbn; congruence | ].
    destruct (isGrounded st) eqn:Hg; cbn; [ | congruence].
    intros _. right. exists lv. repeat split; auto.
    intros Hlt. apply Rlt_bool_spec in Hlt. congruence.
Qed.

(** *** Word surfing *)

Section WordSurfing.

Variable st : State.
Variable ref : PlatformRef.
Hypothesis Hon : currentPlatform st = Some ref.

Let wordsLength : Z := Z.of_nat (List.length (ud_words (userData (ref_platform ref)))).
Let wordIndex : Z := wordIndexOn (ref_platform ref) (vec_x (position st)).
Let relativePos : R := relativePosOn (ref_platform ref) (vec_x (position st)).

Lemma wordIndex_below_count : (wordIndex <= wordsLength - 1)%Z.
Proof. unfold wordIndex, wordIndexOn. apply Z.le_min_r. Qed.

(** The word index never goes down in [checkWordSurfing]. *)
Lemma wordSurfing_monotone :
  (currentWordIndex st <= currentWordIndex (fst (checkWordSurfing st)))%Z.
Proof.
  generalize wordIndex_below_count. unfold wordIndex, wordsLength. intros Hle.
  unfold checkWordSurfing. rewrite Hon.
  destruct (Rle_bool 0.95 _); repeat (case_test; cbn); lia.
Qed.

(** A word is scored only for an index above the current one, and the
    current index is at least that index afterwards. *)
Lemma wordSurfing_words (p : nat) (i : Z) :
  In i (wordsAwarded p (snd (checkWordSurfing st))) ->
  wordsAwarded p (snd (checkWordSurfing st)) = [i]
  /\ (currentWordIndex st < i <= currentWordIndex (fst (checkWordSurfing st)))%Z.
Proof.
  generalize wordIndex_below_count. unfold wordIndex, wordsLength. intros Hle.
  unfold checkWordSurfing. rewrite Hon.
  destruct (Rle_bool 0.95 _); repeat (case_test; cbn); try tauto;
    intros [<- | []]; split; try reflexivity; lia.
Qed.

(** The bonus: when it is awarded, for which platform, and what it
    leaves. *)
Lemma wordSurfing_bonus (p : nat) :
  (perfectSurfCount p (snd (checkWordSurfing st)) <= 1)%nat
  /\ (perfectSurfCount p (snd (checkWordSurfing st)) = 1%nat ->
      p = ref_index ref
      /\ wordIndex = (wordsLength - 1)%Z
      /\ 0.95 <= relativePos
      /\ (currentWordIndex st <= wordsLength - 1)%Z
      /\ currentWordIndex (fst (checkWordSurfing st)) = wordsLength
      /\ perfectSurfs (fst (checkWordSurfing st)) = (perfectSurfs st + 1)%Z
      /\ (score (fst (checkWordSurfing st))
          = score st + CONFIG.game.scorePerWord * CONFIG.game.bonusMultiplier
          \/ score (fst (checkWordSurfing st))
             = score st + CONFIG.game.scorePerWord
               + CONFIG.game.scorePerWord * CONFIG.game.bonusMultiplier)%Z).
Proof.
  generalize wordIndex_below_count. unfold wordIndex, wordsLength, relativePos. intros Hle.
  unfold checkWordSurfing. rewrite Hon.
  destruct (Rle_bool 0.95 _) eqn:Hrel; repeat (case_test; cbn);
    (split; [lia | ]); try discriminate; intros _;
    apply Rle_bool_spec in Hrel; repeat split; auto; try lia.
Qed.

(** Once the index has reached the word count, nothing is awarded. *)
Lemma wordSurfing_completed :
  (wordsLength <= currentWordIndex st)%Z ->
  snd (checkWordSurfing st) = []
  /\ currentWordIndex (fst (checkWordSurfing st)) = currentWordIndex st.
Proof.
  generalize wordIndex_below_count. unfold wordIndex, wordsLength. intros Hle Hdone.
  unfold checkWordSurfing. rewrite Hon.
  destruct (Rle_bool 0.95 _); repeat (case_test; cbn); auto; lia.
Qed.

End WordSurfing.

End PlayerFacts.

(** ** Runs that stay on one platform *)

Module RunFacts.

Import GeometryGenerator Player.

Lemma applyPhysics_keeps_index (dt : R) (st : State) :
  currentPlatform (applyPhysics dt st) = currentPlatform st
  /\ currentWordIndex (applyPhysics dt st) = currentWordIndex st.
Proof. split; reflexivity. Qed.

Lemma wordsAwarded_app (p : nat) (a b : list Event) :
  wordsAwarded p (a ++ b) = wordsAwarded p a ++ wordsAwarded p b.
Proof.
  induction a as [ | e a IH]; [reflexivity | ].
  destruct e; cbn; try destruct (_ =? _)%nat; cbn; now rewrite ?IH.
Qed.

Lemma perfectSurfCount_app (p : nat) (a b : list Event) :
  perfectSurfCount p (a ++ b) = (perfectSurfCount p a + perfectSurfCount p b)%nat.
Proof.
  induction a as [ | e a IH]; [reflexivity | ].
  destruct e; cbn; try destruct (_ =? _)%nat; cbn; now rewrite ?IH.
Qed.

(** One tick of the player during which the current platform stays
    [ref]. *)
Lemma update_on_platform (input : Input) (dt : R) (level : option Level) (st : State)
  (ref : PlatformRef) :
  currentPlatform st = Some ref ->
  currentPlatform (fst (update input dt level st)) = Some ref ->
  let st' := fst (update input dt level st) in
  let events := snd (update input dt level st) in
  (currentWordIndex st <= currentWordIndex st')%Z
  /\ (forall q i, In i (wordsAwarded q events) ->
        wordsAwarded q events = [i]
        /\ (currentWordIndex st < i <= currentWordIndex st')%Z)
  /\ (forall q, (perfectSurfCount q events <= 1)%nat
        /\ (perfectSurfCount q events = 1%nat ->
            (currentWordIndex st <= wordCountOn ref - 1)%Z
            /\ currentWordIndex st' = wordCountOn ref))
  /\ ((wordCountOn ref <= currentWordIndex st)%Z -> events = []).
Proof.
  intros Hbefore. unfold update.
  set (st2 := applyPhysics dt (processInput input dt st)).
  assert (H2 : currentPlatform st2 = Some ref /\ currentWordIndex st2 = currentWordIndex st).
  { unfold st2.
    destruct (applyPhysics_keeps_index dt (processInput input dt st)) as [-> ->].
    destruct (PlayerFacts.processInput_keeps input dt st) as [-> [-> _]]. auto. }
  destruct H2 as [Hp2 Hi2].
  destruct (checkPlatformCollisions level st2) as [st3 ev1] eqn:Hcol.
  destruct (checkWordSurfing st3) as [st4 ev2] eqn:Hsurf.
  cbn [fst snd]. intros Hafter.
  assert (Hp3 : currentPlatform st3 = Some ref).
  { destruct (PlayerFacts.checkWordSurfing_keeps st3) as [Hk _].
    rewrite Hsurf in Hk. cbn in Hk. congruence. }
  assert (H3 : currentWordIndex st3 = currentWordIndex st /\ ev1 = []).
  { generalize (PlayerFacts.collisions_same_platform level st2 ref Hp2).
    rewrite Hcol. cbn [fst snd]. intros H. destruct (H Hp3) as [-> ->]. auto. }
  destruct H3 as [Hi3 ->]. cbn [app]. rewrite <- Hi3.
  generalize (PlayerFacts.wordSurfing_monotone st3 ref Hp3)
             (PlayerFacts.wordSurfing_words st3 ref Hp3)
             (PlayerFacts.wordSurfing_bonus st3 ref Hp3)
             (PlayerFacts.wordSurfing_completed st3 ref Hp3).
  rewrite Hsurf. cbn [fst snd]. intros Hm Hw Hb Hc.
  split; [exact Hm | ]. split; [exact Hw | ]. split.
  - intros q. destruct (Hb q) as [Hle Hone]. split; [exact Hle | ].
    intros H1. destruct (Hone H1) as [_ [_ [_ [Hlow [Hset _]]]]]. auto.
  - intros Hdone. exact (proj1 (Hc Hdone)).
Qed.

Lemma checkLevelCompletion_player (gs : Game.State) :
  Game.player (Game.checkLevelCompletion gs) = Game.player gs.
Proof.
  unfold Game.checkLevelCompletion.
  destruct (Game.level gs); [ | reflexivity].
  destruct (Game.isPlaying gs); [ | reflexivity].
  destruct (Rle_bool _ _); destruct (Rlt_bool _ _); reflexivity.
Qed.

(** A frame is a tick of the player, or nothing when the game is over. *)
Lemma animate_player (frame : Game.Frame) (gs : Game.State) :
  (Game.isPlaying gs = true ->
   Game.player (fst (Game.animate frame gs))
   = fst (update (Game.frame_input frame) (Rmin (Game.frame_deltaTime frame) 0.1)
            (Game.level gs) (Game.player gs))
   /\ snd (Game.animate frame gs)
      = snd (update (Game.frame_input frame) (Rmin (Game.frame_deltaTime frame) 0.1)
               (Game.level gs) (Game.player gs)))
  /\ (Game.isPlaying gs = false -> Game.animate frame gs = (gs, [])).
Proof.
  unfold Game.animate, Game.update. split; intros ->; [ | reflexivity].
  destruct (update _ _ _ _) as [p events]. cbn [fst snd].
  now rewrite checkLevelCompletion_player.
Qed.

Lemma animate_on_platform (frame : Game.Frame) (gs : Game.State) (ref : PlatformRef) :
  currentPlatform (Game.player gs) = Some ref ->
  currentPlatform (Game.player (fst (Game.animate frame gs))) = Some ref ->
  let c := currentWordIndex (Game.player gs) in
  let c' := currentWordIndex (Game.player (fst (Game.animate frame gs))) in
  let events := snd (Game.animate frame gs) in
  (c <= c')%Z
  /\ (forall q i, In i (wordsAwarded q events) ->
        wordsAwarded q events = [i] /\ (c < i <= c')%Z)
  /\ (forall q, (perfectSurfCount q events <= 1)%nat
        /\ (perfectSurfCount q events = 1%nat ->
            (c <= wordCountOn ref - 1)%Z /\ c' = wordCountOn ref))
  /\ ((wordCountOn ref <= c)%Z -> events = []).
Proof.
  intros Hbefore Hafter.
  destruct (animate_player frame gs) as [Hplay Hover].
  destruct (Game.isPlaying gs).
  - destruct (Hplay eq_refl) as [Hp He]. rewrite Hp in *. rewrite He.
    now apply update_on_platform.
  - rewrite (Hover eq_refl). cbn.
    split; [lia | ]. split; [intros q i [] | ]. split; [ | reflexivity].
    intros q. split; [lia | discriminate].
Qed.

Lemma visited_cons (frame : Game.Frame) (rest : list Game.Frame) (gs : Game.State) :
  visited (frame :: rest) gs = gs :: visited rest (fst (Game.animate frame gs)).
Proof. reflexivity. Qed.

Lemma visited_head (frames : list Game.Frame) (gs : Game.State) :
  exists later, visited frames gs = gs :: later.
Proof. destruct frames; cbn; eauto. Qed.

Lemma run_cons (frame : Game.Frame) (rest : list Game.Frame) (gs : Game.State) :
  Game.run (frame :: rest) gs
  = (fst (Game.run rest (fst (Game.animate frame gs))),
     snd (Game.animate frame gs) ++ snd (Game.run rest (fst (Game.animate frame gs)))).
Proof.
  cbn [Game.run]. destruct (Game.animate frame gs) as [gs1 ev1]. cbn [fst snd].
  destruct (Game.run rest gs1) as [gs2 ev2]. reflexivity.
Qed.

(** A run during which the current platform stays [ref]: the word index
    only grows, every word scored lies above the index the run started
    with and at most at the index it ends with, in increasing order, and
    the bonus is awarded at most once, which takes the index to the word
    count. *)
Lemma run_on_platform (ref : PlatformRef) (frames : list Game.Frame) :
  forall gs : Game.State,
    Forall (fun g => currentPlatform (Game.player g) = Some ref) (visited frames gs) ->
    let c := currentWordIndex (Game.player gs) in
    let c' := currentWordIndex (Game.player (fst (Game.run frames gs))) in
    let events := snd (Game.run frames gs) in
    (c <= c')%Z
    /\ Sorted Z.le (map (fun g => currentWordIndex (Game.player g)) (visited frames gs))
    /\ Sorted Z.lt (wordsAwarded (ref_index ref) events)
    /\ Forall (fun i => (c < i <= c')%Z) (wordsAwarded (ref_index ref) events)
    /\ (perfectSurfCount (ref_index ref) events <= 1)%nat
    /\ (perfectSurfCount (ref_index ref) events = 1%nat -> (wordCountOn ref <= c')%Z)
    /\ ((wordCountOn ref <= c)%Z -> events = []).
Proof.
  induction frames as [ | frame rest IH]; intros gs Hstay.
  - cbn. repeat split; try lia; try discriminate; repeat constructor.
  - rewrite visited_cons in Hstay. inversion Hstay as [ | g l Hgs Hrest]; subst.
    set (gs1 := fst (Game.animate frame gs)) in *.
    assert (Hgs1 : currentPlatform (Game.player gs1) = Some ref).
    { destruct (visited_head rest gs1) as [later Hl]. rewrite Hl in Hrest.
      now inversion Hrest. }
    destruct (animate_on_platform frame gs ref Hgs Hgs1)
      as [Hm [Hw [Hb Hd]]]. fold gs1 in Hm, Hw, Hb.
    destruct (IH gs1 Hrest) as [IHm [IHs [IHw [IHf [IHb [IHone IHd]]]]]].
    rewrite run_cons, visited_cons. fold gs1. cbn [fst snd map].
    rewrite wordsAwarded_app, perfectSurfCount_app.
    set (c := currentWordIndex (Game.player gs)) in *.
    set (c1 := currentWordIndex (Game.player gs1)) in *.
    set (c' := currentWordIndex (Game.player (fst (Game.run rest gs1)))) in *.
    set (ev1 := snd (Game.animate frame gs)) in *.
    set (ev2 := snd (Game.run rest gs1)) in *.
    assert (Hw1 : wordsAwarded (ref_index ref) ev1 = []
                  \/ exists i, wordsAwarded (ref_index ref) ev1 = [i] /\ (c < i <= c1)%Z).
    { destruct (wordsAwarded (ref_index ref) ev1) as [ | i l] eqn:E; [now left | right].
      exists i. specialize (Hw (ref_index ref) i). rewrite E in Hw.
      destruct (Hw (or_introl eq_refl)) as [Heq Hr]. split; [exact Heq | exact Hr]. }
    split; [lia | ]. split.
    { constructor; [exact IHs | ].
      destruct (visited_head rest gs1) as [later Hl]. rewrite Hl. cbn.
      constructor. exact Hm. }
    split.
    { destruct Hw1 as [-> | [i [-> Hi]]]; cbn [app]; [exact IHw | ].
      constructor; [exact IHw | ].
      destruct (wordsAwarded (ref_index ref) ev2) as [ | j l]; constructor.
      inversion IHf; subst. lia. }
    split.
    { apply Forall_app. split.
      - destruct Hw1 as [-> | [i [-> Hi]]]; constructor; [lia | constructor].
      - eapply Forall_impl; [ | exact IHf]. cbn. intros i Hi. lia. }
    destruct (Hb (ref_index ref)) as [Hb1 Hone1].
    split.
    { destruct (Nat.eq_dec (perfectSurfCount (ref_index ref) ev1) 1) as [E1 | N1].
      - destruct (Hone1 E1) as [_ Hc1]. fold c1 in Hc1.
        assert (Hz : ev2 = []) by (apply IHd; lia).
        rewrite Hz. cbn. lia.
      - lia. }
    split.
    { intros Hsum.
      destruct (Nat.eq_dec (perfectSurfCount (ref_index ref) ev1) 1) as [E1 | N1].
      - destruct (Hone1 E1) as [_ Hc1]. fold c1 in Hc1. lia.
      - apply IHone. lia. }
    intros Hdone. rewrite (Hd Hdone). cbn [app]. apply IHd. lia.
Qed.

(** *** The score is the sum of what the events stand for *)

Lemma scoreOf_app (a b : list Event) : scoreOf (a ++ b) = (scoreOf a + scoreOf b)%Z.
Proof.
  induction a as [ | e a IH]; [reflexivity | ].
  destruct e; cbn [app scoreOf]; rewrite IH; lia.
Qed.

Lemma collisions_score (level : option Level) (st : State) :
  score (fst (checkPlatformCollisions level st)) = score st
  /\ scoreOf (snd (checkPlatformCollisions level st)) = 0%Z.
Proof.
  unfold checkPlatformCollisions. destruct level as [lv | ]; [ | auto].
  destruct (findPlatform lv _ _ _) as [[found platformY] | ].
  - destruct (Rlt_bool _ 0); [ | cbn; auto].
    destruct (Rle_bool _ _); [ | cbn; auto].
    destruct (sameRef _ found); cbn; auto.
  - destruct (Rlt_bool _ 0); destruct (isGrounded _); cbn; auto.
Qed.

Lemma wordSurfing_score (st : State) :
  score (fst (checkWordSurfing st)) = (score st + scoreOf (snd (checkWordSurfing st)))%Z.
Proof.
  unfold checkWordSurfing. destruct (currentPlatform st) as [ref | ]; [ | cbn; lia].
  destruct (Rle_bool 0.95 _); repeat (PlayerFacts.case_test; cbn);
    unfold CONFIG.game.scorePerWord, CONFIG.game.bonusMultiplier; lia.
Qed.

Lemma update_score (input : Input) (dt : R) (level : option Level) (st : State) :
  score (fst (update input dt level st))
  = (score st + scoreOf (snd (update input dt level st)))%Z.
Proof.
  unfold update.
  set (st2 := applyPhysics dt (processInput input dt st)).
  assert (H2 : score st2 = score st).
  { unfold st2.
    destruct (PlayerFacts.applyPhysics_keeps dt (processInput input dt st))
      as [_ [_ [-> _]]].
    now destruct (PlayerFacts.processInput_keeps input dt st) as [_ [_ [-> _]]]. }
  generalize (collisions_score level st2).
  destruct (checkPlatformCollisions level st2) as [st3 ev1]. cbn [fst snd].
  intros [H3 H0].
  generalize (wordSurfing_score st3).
  destruct (checkWordSurfing st3) as [st4 ev2]. cbn [fst snd].
  intros H4. rewrite scoreOf_app. lia.
Qed.

Lemma run_score (frames : list Game.Frame) :
  forall gs : Game.State,
    score (Game.player (fst (Game.run frames gs)))
    = (score (Game.player gs) + scoreOf (snd (Game.run frames gs)))%Z.
Proof.
  induction frames as [ | frame rest IH]; intros gs; [cbn; lia | ].
  rewrite run_cons. cbn [fst snd]. rewrite IH, scoreOf_app.
  destruct (animate_player frame gs) as [Hplay Hover].
  destruct (Game.isPlaying gs).
  - destruct (Hplay eq_refl) as [-> ->]. rewrite update_score. lia.
  - rewrite (Hover eq_refl). cbn. lia.
Qed.

Lemma sorted_lt_NoDup (l : list Z) : Sorted Z.lt l -> NoDup l.
Proof.
  intros Hs. apply Sorted_StronglySorted in Hs; [ | intros x y z; lia].
  induction Hs as [ | a l Hs IH Hall]; constructor; [ | exact IH].
  intros Hin. rewrite Forall_forall in Hall. specialize (Hall a Hin). lia.
Qed.

Lemma collisions_keep_score (level : option Level) (st : State) :
  score (fst (checkPlatformCollisions level st)) = score st
  /\ perfectSurfs (fst (checkPlatformCollisions level st)) = perfectSurfs st.
Proof.
  unfold checkPlatformCollisions. destruct level as [lv | ]; [ | auto].
  destruct (findPlatform lv _ _ _) as [[found platformY] | ].
  - destruct (Rlt_bool _ 0); [ | cbn; auto].
    destruct (Rle_bool _ _); [ | cbn; auto].
    destruct (sameRef _ found); cbn; auto.
  - destruct (Rlt_bool _ 0); destruct (isGrounded _); cbn; auto.
Qed.

Lemma wordSurfing_nowhere (st : State) :
  currentPlatform st = None -> checkWordSurfing st = (st, []).
Proof. intros H. unfold checkWordSurfing. now rewrite H. Qed.

(** The bonus of a tick: at most one, and only at the last word, in
    the last twentieth of the platform; it leaves the word count in the
    word index and one more perfect surf. *)
Lemma update_bonus (input : Input) (dt : R) (level : option Level) (st : State) (p : nat) :
  let st' := fst (update input dt level st) in
  let events := snd (update input dt level st) in
  (perfectSurfCount p events <= 1)%nat
  /\ (perfectSurfCount p events = 1%nat ->
      exists ref : PlatformRef,
        currentPlatform st' = Some ref
        /\ p = ref_index ref
        /\ wordIndexOn (ref_platform ref) (vec_x (position st')) = (wordCountOn ref - 1)%Z
        /\ 0.95 <= relativePosOn (ref_platform ref) (vec_x (position st'))
        /\ currentWordIndex st' = wordCountOn ref
        /\ perfectSurfs st' = (perfectSurfs st + 1)%Z).
Proof.
  unfold update.
  set (st2 := applyPhysics dt (processInput input dt st)).
  assert (Hps2 : perfectSurfs st2 = perfectSurfs st).
  { unfold st2.
    destruct (PlayerFacts.applyPhysics_keeps dt (processInput input dt st))
      as [_ [_ [_ [-> _]]]].
    now destruct (PlayerFacts.processInput_keeps input dt st) as [_ [_ [_ [-> _]]]]. }
  generalize (PlayerFacts.collisions_events level st2 p) (collisions_keep_score level st2).
  destruct (checkPlatformCollisions level st2) as [st3 ev1]. cbn [fst snd].
  intros [_ Hnone] [_ Hps3].
  generalize (PlayerFacts.checkWordSurfing_keeps st3).
  destruct (currentPlatform st3) as [ref | ] eqn:Hp3.
  - generalize (PlayerFacts.wordSurfing_bonus st3 ref Hp3 p).
    destruct (checkWordSurfing st3) as [st4 ev2]. cbn [fst snd].
    intros [Hle Hone] [Hk [Hpos _]].
    rewrite perfectSurfCount_app, Hnone. cbn [Nat.add].
    split; [exact Hle | ]. intros H1.
    destruct (Hone H1) as [Hp [Hwi [Hrel [_ [Hidx [Hps _]]]]]].
    exists ref. rewrite Hpos. unfold wordCountOn.
    repeat split; auto. congruence.
  - rewrite (wordSurfing_nowhere st3 Hp3). cbn [fst snd]. intros _.
    rewrite perfectSurfCount_app, Hnone. cbn. split; [lia | discriminate].
Qed.

Lemma animate_bonus (frame : Game.Frame) (gs : Game.State) (p : nat) :
  let st := Game.player gs in
  let st' := Game.player (fst (Game.animate frame gs)) in
  let events := snd (Game.animate frame gs) in
  (perfectSurfCount p events <= 1)%nat
  /\ (perfectSurfCount p events = 1%nat ->
      exists ref : PlatformRef,
        currentPlatform st' = Some ref
        /\ p = ref_index ref
        /\ wordIndexOn (ref_platform ref) (vec_x (position st')) = (wordCountOn ref - 1)%Z
        /\ 0.95 <= relativePosOn (ref_platform ref) (vec_x (position st'))
        /\ currentWordIndex st' = wordCountOn ref
        /\ perfectSurfs st' = (perfectSurfs st + 1)%Z).
Proof.
  destruct (animate_player frame gs) as [Hplay Hover].
  destruct (Game.isPlaying gs).
  - destruct (Hplay eq_refl) as [Hp He]. cbv zeta. rewrite Hp, He.
    apply update_bonus.
  - cbv zeta. rewrite (Hover eq_refl). cbn. split; [lia | discriminate].
Qed.

End RunFacts.

(** ** The recorded run on the two-platform level *)

Module SurfRun.

Import GeometryGenerator Player.

Lemma platform_eq (n : string + nat) (x x' y y' : R) (c c' : list Mesh) (u u' : UserData) :
  x = x' -> y = y' -> c = c' -> u = u' ->
  mkPlatform n x y c u = mkPlatform n x' y' c' u'.
Proof. now intros -> -> -> ->. Qed.

(** [createPlatform] for a sentence without a [length] field, on a cache
    miss. *)
Lemma createPlatform_fresh (clone : Mesh -> Mesh) (cache : Cache) (s : Sentence)
  (index : nat) (length curviness : R) :
  sentence_length s = None ->
  INR (Utils.countWords (sentence_text s)) * 2 = length ->
  sentence_curviness s = Some curviness ->
  cacheGet cache (cacheKey length CONFIG.game.platformWidth curviness) = None ->
  createPlatform clone cache s index
  = ({| name := nameOf s index;
        position_x := 0;
        position_y := 0;
        children := [ buildCurvedPlatform length CONFIG.game.platformWidth curviness;
                      setMeshY (createTextOnPlatform (sentence_text s) length curviness) 0.1 ];
        userData := {| ud_sentence := s;
                       ud_length := length;
                       ud_curviness := curviness;
                       ud_words := Utils.splitWhitespace (sentence_text s) |} |},
     cacheSet cache (cacheKey length CONFIG.game.platformWidth curviness)
       (clone (buildCurvedPlatform length CONFIG.game.platformWidth curviness))).
Proof.
  intros Hl Hn Hc Hmiss. unfold createPlatform, wordCountOf. rewrite Hl, Hn, Hc.
  rewrite (GeometryFacts.createCurvedPlatform_miss clone _ _ _ _ Hmiss). reflexivity.
Qed.

(** What [createLevel] makes of the two sentences: both platforms miss
    the cache, so the engine's [clone] has no part in the level. *)
Lemma surf_level_built (clone : Mesh -> Mesh) :
  fst (createLevel clone init surfSentences) = mkLevel [platformA; platformB] 18 2.
Proof.
  unfold createLevel, surfSentences.
  rewrite (LevelFacts.placePlatforms_keep clone) by reflexivity.
  rewrite (createPlatform_fresh clone init _ 0 6 0);
    [ | reflexivity | simpl; lra | reflexivity | reflexivity ].
  cbv zeta. cbn [fst snd userData ud_length].
  rewrite (LevelFacts.placePlatforms_keep clone) by reflexivity.
  rewrite (createPlatform_fresh clone _ _ 1 8 0);
    [ | reflexivity | simpl; lra | reflexivity | ].
  - cbv zeta.
    cbn [fst snd userData ud_length placePlatforms lay_platforms lay_nextStartX
         lay_cache GeometryGenerator.setPosition name position_x position_y children
         List.length].
    unfold platformA, platformB.
    f_equal; [ | lra].
    f_equal; [apply platform_eq; try reflexivity; lra | ].
    f_equal. apply platform_eq; try reflexivity; lra.
  - unfold cacheSet. cbn [cacheGet].
    destruct (key_eq_dec _ _) as [E | _]; [ | reflexivity].
    unfold cacheKey in E. injection E as E. lra.
Qed.

Lemma surfLevel_is : surfLevel = mkLevel [platformA; platformB] 18 2.
Proof. apply surf_level_built. Qed.

Lemma surf_totalLength : totalLength surfLevel = 18.
Proof. rewrite surfLevel_is. reflexivity. Qed.

Lemma heightA (r : R) : getPlatformYAtX platformA r = (sin deg35 - 0.5 / 6) * (r + 6 / 2).
Proof.
  unfold getPlatformYAtX, platformA, buildCurvedPlatform; cbn [children curveFunction].
  apply CurveFacts.generateCurve_flat.
Qed.

Lemma heightB (r : R) : getPlatformYAtX platformB r = (sin deg35 - 0.5 / 8) * (r + 8 / 2).
Proof.
  unfold getPlatformYAtX, platformB, buildCurvedPlatform; cbn [children curveFunction].
  apply CurveFacts.generateCurve_flat.
Qed.

(** One round of the platform scan, over each of the two platforms. *)
Lemma scanA (x y : R) (best : option (PlatformRef * R)) :
  scanPlatform x y 0.5 best (0%nat, platformA)
  = if Rle_bool 0 x && Rle_bool x 6 then
      if higherThan best (surfaceA x) && Rle_bool (surfaceA x) (y + 0.5)
      then Some (refA, surfaceA x) else best
    else best.
Proof.
  unfold scanPlatform.
  replace (position_x platformA) with 3 by reflexivity.
  replace (position_y platformA) with 0 by reflexivity.
  replace (ud_length (userData platformA)) with 6 by reflexivity.
  rewrite heightA.
  destruct (Req_dec_T 6 0) as [E | _]; [lra | ].
  replace (3 - 6 / 2) with 0 by lra. replace (3 + 6 / 2) with 6 by lra.
  replace (0 + (sin deg35 - 0.5 / 6) * (x - 3 + 6 / 2)) with (surfaceA x)
    by (unfold surfaceA; lra).
  reflexivity.
Qed.

Lemma scanB (x y : R) (best : option (PlatformRef * R)) :
  scanPlatform x y 0.5 best (1%nat, platformB)
  = if Rle_bool 8 x && Rle_bool x 16 then
      if higherThan best (surfaceB x) && Rle_bool (surfaceB x) (y + 0.5)
      then Some (refB, surfaceB x) else best
    else best.
Proof.
  unfold scanPlatform.
  replace (position_x platformB) with 12 by reflexivity.
  replace (position_y platformB) with (-5) by reflexivity.
  replace (ud_length (userData platformB)) with 8 by reflexivity.
  rewrite heightB.
  destruct (Req_dec_T 8 0) as [E | _]; [lra | ].
  replace (12 - 8 / 2) with 8 by lra. replace (12 + 8 / 2) with 16 by lra.
  replace (-5 + (sin deg35 - 0.5 / 8) * (x - 12 + 8 / 2)) with (surfaceB x)
    by (unfold surfaceB; lra).
  reflexivity.
Qed.

Lemma find_surf (x y : R) :
  findPlatform surfLevel x y 0.5
  = scanPlatform x y 0.5 (scanPlatform x y 0.5 None (0%nat, platformA)) (1%nat, platformB).
Proof. rewrite surfLevel_is. reflexivity. Qed.

Lemma find_over_A (x y : R) :
  0 <= x <= 6 -> surfaceA x <= y + 0.5 ->
  findPlatform surfLevel x y 0.5 = Some (refA, surfaceA x).
Proof.
  intros Hx Hy. rewrite find_surf, scanB, scanA.
  rewrite (PlayerFacts.Rle_bool_true 0 x), (PlayerFacts.Rle_bool_true x 6) by lra.
  rewrite (PlayerFacts.Rle_bool_true _ _ Hy).
  rewrite (PlayerFacts.Rle_bool_false 8 x) by lra. reflexivity.
Qed.

Lemma find_under_A (x y : R) :
  0 <= x <= 6 -> y + 0.5 < surfaceA x ->
  findPlatform surfLevel x y 0.5 = None.
Proof.
  intros Hx Hy. rewrite find_surf, scanB, scanA.
  rewrite (PlayerFacts.Rle_bool_true 0 x), (PlayerFacts.Rle_bool_true x 6) by lra.
  rewrite (PlayerFacts.Rle_bool_false _ _ Hy).
  rewrite (PlayerFacts.Rle_bool_false 8 x) by lra. reflexivity.
Qed.

Lemma find_over_B (x y : R) :
  8 <= x <= 16 -> surfaceB x <= y + 0.5 ->
  findPlatform surfLevel x y 0.5 = Some (refB, surfaceB x).
Proof.
  intros Hx Hy. rewrite find_surf, scanB, scanA.
  rewrite (PlayerFacts.Rle_bool_false x 6) by lra.
  rewrite (PlayerFacts.Rle_bool_true 8 x), (PlayerFacts.Rle_bool_true x 16) by lra.
  rewrite (PlayerFacts.Rle_bool_true _ _ Hy).
  rewrite andb_false_r. reflexivity.
Qed.

Lemma find_in_gap (x y : R) :
  6 < x < 8 -> findPlatform surfLevel x y 0.5 = None.
Proof.
  intros Hx. rewrite find_surf, scanB, scanA.
  rewrite (PlayerFacts.Rle_bool_false x 6) by lra.
  rewrite (PlayerFacts.Rle_bool_false 8 x) by lra.
  rewrite andb_false_r. reflexivity.
Qed.

(** Relative position and word index on the two platforms. *)
Lemma relativePos_A (x : R) : relativePosOn platformA x = x / 6.
Proof.
  unfold relativePosOn.
  replace (position_x platformA) with 3 by reflexivity.
  replace (ud_length (userData platformA)) with 6 by reflexivity. lra.
Qed.

Lemma relativePos_B (x : R) : relativePosOn platformB x = (x - 8) / 8.
Proof.
  unfold relativePosOn.
  replace (position_x platformB) with 12 by reflexivity.
  replace (ud_length (userData platformB)) with 8 by reflexivity. lra.
Qed.

Lemma wordIndex_A (x : R) (k : Z) :
  IZR k <= x / 2 < IZR k + 1 -> wordIndexOn platformA x = Z.min k 2.
Proof.
  intros Hk. unfold wordIndexOn. rewrite relativePos_A.
  replace (Z.of_nat (List.length (ud_words (userData platformA)))) with 3%Z by reflexivity.
  rewrite (Zfloor_eq k); [reflexivity | lra].
Qed.

Lemma wordIndex_B (x : R) (k : Z) :
  IZR k <= (x - 8) / 2 < IZR k + 1 -> wordIndexOn platformB x = Z.min k 3.
Proof.
  intros Hk. unfold wordIndexOn. rewrite relativePos_B.
  replace (Z.of_nat (List.length (ud_words (userData platformB)))) with 4%Z by reflexivity.
  rewrite (Zfloor_eq k); [reflexivity | lra].
Qed.

Lemma snapshot_eq (x x' y y' vx vx' vy vy' : R) (j g : bool) (c : option PlatformRef)
  (w s p : Z) :
  x = x' -> y = y' -> vx = vx' -> vy = vy' ->
  mkState (mkVec3 x y 0) (mkVec3 vx vy 0) j g c w s p = snapshot x' y' vx' vy' j g c w s p.
Proof. now intros -> -> -> ->. Qed.

(** A frame on [surfLevel], stage by stage. *)
Lemma animate_stages (input : Input) (st st2 st3 st4 st' : State)
  (ev1 ev2 ev : list Event) :
  applyPhysics (Rmin 0.1 0.1) (processInput input (Rmin 0.1 0.1) st) = st2 ->
  checkPlatformCollisions (Some surfLevel) st2 = (st3, ev1) ->
  checkWordSurfing st3 = (st4, ev2) ->
  vec_x (position st4) < 18 -> -20 <= vec_y (position st4) ->
  st4 = st' -> ev1 ++ ev2 = ev ->
  Game.animate (frameOf (input, st', ev)) (playing st) = (playing st', ev).
Proof.
  intros H1 H2 H3 Hx Hy <- <-.
  unfold Game.animate, playing, frameOf, Game.update.
  cbn [Game.isPlaying Game.level Game.player Game.frame_input Game.frame_deltaTime fst snd].
  unfold update. rewrite H1, H2, H3.
  unfold Game.checkLevelCompletion. cbn [Game.isPlaying Game.level Game.player].
  rewrite surf_totalLength.
  rewrite (PlayerFacts.Rle_bool_false _ _ Hx), (PlayerFacts.Rlt_bool_false _ _ Hy).
  reflexivity.
Qed.

(** The arithmetic of a frame is linear in the sine of 35 degrees. *)
Ltac lra_sin :=
  generalize CurveFacts.sin_deg35_bounds; unfold surfaceA, surfaceB; intros; lra.

Ltac reduce_state :=
  cbv beta iota zeta delta
    [applyPhysics processInput pressRight pressLeft pressLeftJump pressRightJump snapshot
     left right jump isGrounded isJumping andb negb velocity position vec_x vec_y vec_z
     setVelocity Player.setPosition setX setY setIsGrounded setIsJumping setCurrentPlatform
     setCurrentWordIndex setScore setPerfectSurfs awardPerfectSurf
     currentPlatform currentWordIndex score perfectSurfs
     CONFIG.game.playerSpeed CONFIG.game.gravity CONFIG.game.jumpForce].

Ltac resolve_minmax :=
  repeat match goal with
  | |- context [Rmin ?a ?b] =>
      first [rewrite (Rmin_left a b) by lra | rewrite (Rmin_right a b) by lra]
  | |- context [Rmax ?a ?b] =>
      first [rewrite (Rmax_left a b) by lra | rewrite (Rmax_right a b) by lra]
  end.

Ltac find_some :=
  reduce_state;
  first [ apply find_over_A; [lra | lra_sin] | apply find_over_B; [lra | lra_sin] ].

Ltac find_none :=
  reduce_state;
  first [ apply find_in_gap; lra | apply find_under_A; [lra | lra_sin] ].

Ltac collide :=
  first
    [ eapply PlayerFacts.collisions_land; [ | find_some | ];
      [reduce_state; lra | reduce_state; lra_sin]
    | eapply PlayerFacts.collisions_far; [ | find_some | ];
      [reduce_state; lra | reduce_state; lra_sin]
    | eapply PlayerFacts.collisions_rising; [ | find_some ]; reduce_state; lra
    | eapply PlayerFacts.collisions_none_falling; [reduce_state; lra | find_none]
    | eapply PlayerFacts.collisions_none_rising;
      [reduce_state; lra | reflexivity | find_none] ].

Ltac surf_index :=
  first
    [ rewrite (wordIndex_A _ 0) by lra | rewrite (wordIndex_A _ 1) by lra
    | rewrite (wordIndex_A _ 2) by lra | rewrite (wordIndex_A _ 3) by lra
    | rewrite (wordIndex_A _ 4) by lra | rewrite (wordIndex_A _ 5) by lra
    | rewrite (wordIndex_B _ (-1)) by lra | rewrite (wordIndex_B _ (-2)) by lra
    | rewrite (wordIndex_B _ 0) by lra | rewrite (wordIndex_B _ 1) by lra
    | rewrite (wordIndex_B _ 2) by lra | rewrite (wordIndex_B _ 3) by lra ].

Ltac surf_relative :=
  rewrite ?relativePos_A, ?relativePos_B;
  repeat match goal with
  | |- context [Rle_bool ?a ?b] =>
      first [rewrite (PlayerFacts.Rle_bool_true a b) by lra
            | rewrite (PlayerFacts.Rle_bool_false a b) by lra]
  end.

Ltac surf :=
  reduce_state;
  cbv beta iota zeta delta [checkWordSurfing currentPlatform position vec_x ref_platform
                            refA refB];
  try (surf_index; surf_relative);
  reflexivity.

(** One frame of a recorded run. *)
Ltac frame :=
  eapply animate_stages;
  [ reduce_state; resolve_minmax; reflexivity
  | collide
  | surf
  | reduce_state; lra
  | reduce_state; lra_sin
  | reduce_state; apply snapshot_eq; lra_sin
  | reflexivity ].

Ltac frames :=
  cbn [replays]; repeat split;
  cbv beta iota delta [surfStart lastOf fold_left landOnA rideA dropToB app fst snd];
  frame.

Lemma landOnA_replays : replays surfStart landOnA.
Proof. unfold landOnA. frames. Qed.

Lemma rideA_replays : replays (lastOf surfStart landOnA) rideA.
Proof. unfold rideA. frames. Qed.

Lemma dropToB_replays : replays (lastOf surfStart (landOnA ++ rideA)) dropToB.
Proof. unfold dropToB. frames. Qed.

Lemma jumpBack_replays : replays (lastOf surfStart (landOnA ++ rideA ++ dropToB)) jumpBack.
Proof. unfold jumpBack. frames. Qed.

Lemma jumpOverA_replays : replays (lastOf surfStart landOnA) jumpOverA.
Proof. unfold jumpOverA. frames. Qed.

Lemma lastOf_app (st : State) (a b : list Row) :
  lastOf st (a ++ b) = lastOf (lastOf st a) b.
Proof. unfold lastOf. apply fold_left_app. Qed.

Lemma replays_app (a b : list Row) :
  forall st : State, replays st a -> replays (lastOf st a) b -> replays st (a ++ b).
Proof.
  induction a as [ | row a IH]; intros st Ha Hb; [exact Hb | ].
  destruct Ha as [Hrow Ha]. split; [exact Hrow | ].
  apply IH; assumption.
Qed.

Lemma surfTrace_replays : replays surfStart surfTrace.
Proof.
  unfold surfTrace.
  apply replays_app; [exact landOnA_replays | ].
  apply replays_app; [exact rideA_replays | ].
  rewrite <- lastOf_app.
  apply replays_app; [exact dropToB_replays | ].
  rewrite <- lastOf_app. rewrite <- app_assoc. exact jumpBack_replays.
Qed.

(** A recorded run gives the result of [Game.run] and the states it goes
    through. *)
Lemma replays_run (rows : list Row) :
  forall st : State,
    replays st rows ->
    Game.run (framesOf rows) (playing st) = (playing (lastOf st rows), eventsOf rows).
Proof.
  induction rows as [ | row rest IH]; intros st H; [reflexivity | ].
  destruct H as [Hrow Hrest].
  change (framesOf (row :: rest)) with (frameOf row :: framesOf rest).
  rewrite RunFacts.run_cons, Hrow. cbn [fst snd]. rewrite (IH _ Hrest). reflexivity.
Qed.

Lemma replays_visited (rows : list Row) :
  forall st : State,
    replays st rows ->
    visited (framesOf rows) (playing st)
    = playing st :: map (fun row => playing (snd (fst row))) rows.
Proof.
  induction rows as [ | row rest IH]; intros st H; [reflexivity | ].
  destruct H as [Hrow Hrest].
  change (framesOf (row :: rest)) with (frameOf row :: framesOf rest).
  rewrite RunFacts.visited_cons, Hrow. cbn [fst map]. now rewrite (IH _ Hrest).
Qed.

(** The game on [surfLevel] starts in [surfStart]. *)
Lemma start_surf : Game.start surfLevel = playing surfStart.
Proof.
  unfold Game.start, playing. f_equal.
  unfold Game.positionPlayerAtStart. rewrite surfLevel_is. cbn [level_children].
  unfold Player.resetState, Player.setPosition, setX, setY, surfStart.
  cbn [position velocity isJumping isGrounded currentPlatform currentWordIndex score
       perfectSurfs vec_x vec_y vec_z].
  apply snapshot_eq; try reflexivity.
  - replace (position_x platformA) with 3 by reflexivity.
    replace (ud_length (userData platformA)) with 6 by reflexivity. lra.
  - replace (position_y platformA) with 0 by reflexivity. lra.
Qed.

Lemma surfFrames_recorded : framesOf surfTrace = surfFrames.
Proof. reflexivity. Qed.

(** What the recorded run emits: the bonus of the first platform twice. *)
Lemma surfTrace_events :
  eventsOf surfTrace
  = [ PlaySentence 0; PlayWord 0 1; PlayWord 0 2; PerfectSurf 0;
      PlaySentence 1; PlayWord 1 1;
      PlaySentence 0; PlayWord 0 2; PerfectSurf 0 ].
Proof. reflexivity. Qed.

End SurfRun.

(** C5.  As long as the player stands on one and the same platform at
    the end of every frame, the word index never decreases from one frame
    to the next, whatever the inputs and frame times, and the indices for
    which the per-word score is awarded are strictly increasing: no index
    is scored twice.  The score moves by what the events stand for and by
    nothing else. *)
Theorem word_index_monotone_while_grounded
  (ref : Player.PlatformRef) (frames : list Game.Frame) (gs : Game.State) :
  Forall (fun g => groundedOn ref (Game.player g)) (visited frames gs) ->
  StronglySorted Z.le
    (map (fun g => Player.currentWordIndex (Game.player g)) (visited frames gs))
  /\ StronglySorted Z.lt (wordsAwarded (Player.ref_index ref) (snd (Game.run frames gs)))
  /\ NoDup (wordsAwarded (Player.ref_index ref) (snd (Game.run frames gs)))
  /\ Player.score (Game.player (fst (Game.run frames gs)))
     = (Player.score (Game.player gs) + scoreOf (snd (Game.run frames gs)))%Z.
Proof.
  intros Hgrounded.
  assert (Hstay : Forall (fun g => Player.currentPlatform (Game.player g) = Some ref)
                    (visited frames gs)).
  { eapply Forall_impl; [ | exact Hgrounded]. intros g [_ H]. exact H. }
  destruct (RunFacts.run_on_platform ref frames gs Hstay)
    as [_ [Hindex [Hwords _]]].
  split; [ | split; [ | split]].
  - apply Sorted_StronglySorted; [intros x y z; lia | exact Hindex].
  - apply Sorted_StronglySorted; [intros x y z; lia | exact Hwords].
  - apply RunFacts.sorted_lt_NoDup. exact Hwords.
  - apply RunFacts.run_score.
Qed.

Lemma word_index_monotone_while_grounded_witness :
  Forall (fun g => groundedOn refA (Game.player g))
    (visited (framesOf rideA) (playing (lastOf surfStart landOnA)))
  /\ StronglySorted Z.lt
       (wordsAwarded 0 (snd (Game.run (framesOf rideA) (playing (lastOf surfStart landOnA))))).
Proof.
  assert (H : Forall (fun g => groundedOn refA (Game.player g))
                (visited (framesOf rideA) (playing (lastOf surfStart landOnA)))).
  { rewrite (SurfRun.replays_visited _ _ SurfRun.rideA_replays).
    unfold groundedOn. repeat constructor. }
  split; [exact H | ].
  exact (proj1 (proj2 (word_index_monotone_while_grounded refA (framesOf rideA)
                         (playing (lastOf surfStart landOnA)) H))).
Defined.

(** C6, as stated, fails, whatever the engine's [clone] does: on the
    level of two sentences the recorded run earns the bonus of the first
    platform in its 14th frame ([x = 5.75], relative position 0.958), comes
    down on the second platform in the 30th, jumps back in the 31st, lands
    on the last word of the first platform in the 47th ([x = 5.8], relative
    position 0.967) and earns the bonus of the first platform again. *)
Lemma perfect_surf_twice_counterexample :
  ~ exists clone : GeometryGenerator.Mesh -> GeometryGenerator.Mesh,
      forall (sentences : list GeometryGenerator.Sentence)
             (frames : list Game.Frame) (p : nat),
        (perfectSurfCount p
           (snd (Game.run frames
                   (Game.start
                      (fst (GeometryGenerator.createLevel clone GeometryGenerator.init
                              sentences)))))
         <= 1)%nat.
Proof.
  intros [clone Hclaim].
  specialize (Hclaim surfSentences surfFrames 0%nat).
  rewrite SurfRun.surf_level_built, <- SurfRun.surfLevel_is in Hclaim.
  rewrite SurfRun.start_surf, <- SurfRun.surfFrames_recorded in Hclaim.
  rewrite (SurfRun.replays_run _ _ SurfRun.surfTrace_replays) in Hclaim.
  cbn [snd] in Hclaim. rewrite SurfRun.surfTrace_events in Hclaim.
  cbn in Hclaim. lia.
Qed.

(** C6, amended.  For as long as the current platform stays the same,
    its bonus is awarded at most once; a frame awards at most one bonus,
    and only with the word index computed from the player's X at the last
    word and the relative position at 0.95 or more, upon which the word
    index holds the word count and the perfect surfs have grown by one. *)
Theorem perfect_surf_once_per_stay
  (ref : Player.PlatformRef) (frames : list Game.Frame) (gs : Game.State) :
  Forall (fun g => Player.currentPlatform (Game.player g) = Some ref) (visited frames gs) ->
  (perfectSurfCount (Player.ref_index ref) (snd (Game.run frames gs)) <= 1)%nat
  /\ forall (frame : Game.Frame) (g : Game.State) (p : nat),
       let st := Game.player g in
       let st' := Game.player (fst (Game.animate frame g)) in
       let events := snd (Game.animate frame g) in
       (perfectSurfCount p events <= 1)%nat
       /\ (perfectSurfCount p events = 1%nat ->
           exists r : Player.PlatformRef,
             Player.currentPlatform st' = Some r
             /\ p = Player.ref_index r
             /\ Player.wordIndexOn (Player.ref_platform r)
                  (Player.vec_x (Player.position st')) = (wordCountOn r - 1)%Z
             /\ 0.95 <= Player.relativePosOn (Player.ref_platform r)
                          (Player.vec_x (Player.position st'))
             /\ Player.currentWordIndex st' = wordCountOn r
             /\ Player.perfectSurfs st' = (Player.perfectSurfs st + 1)%Z).
Proof.
  intros Hstay. split.
  - exact (proj1 (proj2 (proj2 (proj2 (proj2
             (RunFacts.run_on_platform ref frames gs Hstay)))))).
  - intros frame g p. apply RunFacts.animate_bonus.
Qed.

Lemma perfect_surf_once_per_stay_witness :
  Forall (fun g => Player.currentPlatform (Game.player g) = Some refA)
    (visited (framesOf rideA) (playing (lastOf surfStart landOnA)))
  /\ (perfectSurfCount 0
        (snd (Game.run (framesOf rideA) (playing (lastOf surfStart landOnA)))) <= 1)%nat.
Proof.
  assert (H : Forall (fun g => Player.currentPlatform (Game.player g) = Some refA)
                (visited (framesOf rideA) (playing (lastOf surfStart landOnA)))).
  { rewrite (SurfRun.replays_visited _ _ SurfRun.rideA_replays). repeat constructor. }
  split; [exact H | ].
  exact (proj1 (perfect_surf_once_per_stay refA (framesOf rideA)
                  (playing (lastOf surfStart landOnA)) H)).
Defined.

(** C7.  In [checkPlatformCollisions], when the player moves downward
    and the platform selected lies within the player radius below, the
    player is put on the surface plus the radius, the vertical velocity is
    zeroed, the player is grounded and no longer jumping; when the vertical
    velocity is not negative, position, velocity and the jumping flag stay
    as they are and the player does not become grounded. *)
Theorem landing_only_while_falling (level : GeometryGenerator.Level) (st : Player.State) :
  (Player.vec_y (Player.velocity st) < 0 ->
   forall (found : Player.PlatformRef) (platformY : R),
     Player.findPlatform level (Player.vec_x (Player.position st))
       (Player.vec_y (Player.position st)) 0.5 = Some (found, platformY) ->
     Player.vec_y (Player.position st) - platformY <= 0.5 ->
     let st' := fst (Player.checkPlatformCollisions (Some level) st) in
     Player.vec_y (Player.position st') = platformY + 0.5
     /\ Player.vec_x (Player.position st') = Player.vec_x (Player.position st)
     /\ Player.vec_y (Player.velocity st') = 0
     /\ Player.isGrounded st' = true
     /\ Player.isJumping st' = false
     /\ Player.currentPlatform st' = Some found)
  /\ (0 <= Player.vec_y (Player.velocity st) ->
      forall lv : option GeometryGenerator.Level,
        let st' := fst (Player.checkPlatformCollisions lv st) in
        Player.position st' = Player.position st
        /\ Player.velocity st' = Player.velocity st
        /\ Player.isJumping st' = Player.isJumping st
        /\ (Player.isGrounded st' = true -> Player.isGrounded st = true)).
Proof.
  split.
  - intros Hv found platformY Hf Hd.
    rewrite (PlayerFacts.collisions_land level st found platformY Hv Hf Hd).
    cbn. repeat split.
  - intros Hv lv. now apply PlayerFacts.collisions_not_falling.
Qed.

Lemma landing_only_while_falling_witness :
  let st := snapshot 1.75 1.3 2.5 (-2.5) false false None 0 0 0 in
  let st' := fst (Player.checkPlatformCollisions (Some surfLevel) st) in
  Player.vec_y (Player.position st') = surfaceA 1.75 + 0.5
  /\ Player.vec_y (Player.velocity st') = 0
  /\ Player.isGrounded st' = true
  /\ Player.isJumping st' = false.
Proof.
  assert (Hs := CurveFacts.sin_deg35_bounds).
  assert (Hv : Player.vec_y (Player.velocity
                 (snapshot 1.75 1.3 2.5 (-2.5) false false None 0 0 0)) < 0).
  { unfold snapshot; cbn [Player.velocity Player.vec_y]. lra. }
  assert (Hf : Player.findPlatform surfLevel
                 (Player.vec_x (Player.position
                    (snapshot 1.75 1.3 2.5 (-2.5) false false None 0 0 0)))
                 (Player.vec_y (Player.position
                    (snapshot 1.75 1.3 2.5 (-2.5) false false None 0 0 0))) 0.5
               = Some (refA, surfaceA 1.75)).
  { unfold snapshot; cbn [Player.position Player.vec_x Player.vec_y].
    apply SurfRun.find_over_A; unfold surfaceA; lra. }
  assert (Hd : Player.vec_y (Player.position
                 (snapshot 1.75 1.3 2.5 (-2.5) false false None 0 0 0))
               - surfaceA 1.75 <= 0.5).
  { unfold snapshot; cbn [Player.position Player.vec_y]. unfold surfaceA; lra. }
  destruct (proj1 (landing_only_while_falling surfLevel
                     (snapshot 1.75 1.3 2.5 (-2.5) false false None 0 0 0))
              Hv refA (surfaceA 1.75) Hf Hd)
    as [H1 [_ [H2 [H3 [H4 _]]]]].
  intros st st'. repeat split; assumption.
Defined.

(** C9.  Word surfing does not look at the grounded flag: its outcome is
    the same whether the flag is set or not.  A jump clears the flag and
    leaves the current platform in place, as does the physics step; the
    collision stage replaces the current platform only when the player
    lands, or clears it when no platform is found while the player is
    grounded.  And on the level of two sentences a jump from the first
    platform scores its second word in mid-air. *)
Theorem word_surfing_while_airborne :
  (forall (st : Player.State) (b : bool),
      Player.checkWordSurfing (Player.setIsGrounded st b)
      = (Player.setIsGrounded (fst (Player.checkWordSurfing st)) b,
         snd (Player.checkWordSurfing st)))
  /\ (forall (input : Player.Input) (dt : R) (st : Player.State),
         Player.currentPlatform (Player.processInput input dt st)
         = Player.currentPlatform st
         /\ (Player.jump input = true -> Player.isGrounded st = true ->
             Player.isJumping st = false ->
             Player.isGrounded (Player.processInput input dt st) = false
             /\ Player.isJumping (Player.processInput input dt st) = true
             /\ Player.vec_y (Player.velocity (Player.processInput input dt st))
                = CONFIG.game.jumpForce))
  /\ (forall (dt : R) (st : Player.State),
         Player.currentPlatform (Player.applyPhysics dt st) = Player.currentPlatform st)
  /\ (forall (level : option GeometryGenerator.Level) (st : Player.State),
         Player.currentPlatform (fst (Player.checkPlatformCollisions level st))
         <> Player.currentPlatform st ->
         (exists (lv : GeometryGenerator.Level) (found : Player.PlatformRef) (platformY : R),
             level = Some lv
             /\ Player.vec_y (Player.velocity st) < 0
             /\ Player.findPlatform lv (Player.vec_x (Player.position st))
                  (Player.vec_y (Player.position st)) 0.5 = Some (found, platformY)
             /\ Player.vec_y (Player.position st) - platformY <= 0.5
             /\ Player.currentPlatform (fst (Player.checkPlatformCollisions level st))
                = Some found)
         \/ (exists lv : GeometryGenerator.Level,
                level = Some lv
                /\ ~ Player.vec_y (Player.velocity st) < 0
                /\ Player.findPlatform lv (Player.vec_x (Player.position st))
                     (Player.vec_y (Player.position st)) 0.5 = None
                /\ Player.isGrounded st = true
                /\ Player.currentPlatform (fst (Player.checkPlatformCollisions level st))
                   = None))
  /\ (let landed := fst (Game.run (framesOf landOnA) (Game.start surfLevel)) in
      let jumped := Game.animate (Game.mkFrame pressRightJump 0.1) landed in
      groundedOn refA (Game.player landed)
      /\ Player.currentWordIndex (Game.player landed) = 0%Z
      /\ Player.score (Game.player landed) = 0%Z
      /\ Player.isGrounded (Game.player (fst jumped)) = false
      /\ Player.isJumping (Game.player (fst jumped)) = true
      /\ Player.currentPlatform (Game.player (fst jumped)) = Some refA
      /\ Player.currentWordIndex (Game.player (fst jumped)) = 1%Z
      /\ Player.score (Game.player (fst jumped)) = 10%Z
      /\ snd jumped = [Player.PlayWord 0 1]).
Proof.
  split; [ | split; [ | split; [ | split]]].
  - intros st b. unfold Player.checkWordSurfing.
    cbn [Player.setIsGrounded Player.currentPlatform Player.position
         Player.currentWordIndex Player.score].
    destruct (Player.currentPlatform st) as [ref | ]; [ | reflexivity].
    destruct (Player.currentWordIndex st <? _)%Z; cbn;
      destruct (_ && _); cbn; try destruct (_ =? _)%Z; reflexivity.
  - intros input dt st.
    split; [exact (proj1 (PlayerFacts.processInput_keeps input dt st)) | ].
    intros Hj Hg Hn. unfold Player.processInput.
    cbn [Player.setVelocity Player.isGrounded Player.isJumping].
    rewrite Hj, Hg, Hn. cbn. repeat split.
  - intros dt st. reflexivity.
  - apply PlayerFacts.collisions_change.
  - rewrite SurfRun.start_surf.
    rewrite (SurfRun.replays_run _ _ SurfRun.landOnA_replays). cbn [fst].
    assert (Hjump := proj1 SurfRun.jumpOverA_replays).
    unfold jumpOverA, frameOf in Hjump. cbn [fst snd] in Hjump.
    cbv zeta. rewrite Hjump. cbn [fst snd].
    unfold groundedOn. repeat split.
Qed.

(** ** Two scenarios of the specification *)

(** Scenario 4: of a two-word sentence and a nine-word sentence only the
    second becomes a platform; it keeps its input index in its name and
    takes the first layout slot. *)
Example dropped_sentence_scenario :
  let level :=
    fst (GeometryGenerator.createLevel (fun m => m) GeometryGenerator.init
           [ GeometryGenerator.mkSentence None "Hi there." None None;
             GeometryGenerator.mkSentence None
               "Each sentence will become a platform in the game." None (Some 5) ]) in
  GeometryGenerator.sentenceCount level = 2%nat
  /\ map GeometryGenerator.name (GeometryGenerator.level_children level) = [inr 1%nat]
  /\ map (fun p => GeometryGenerator.ud_length (GeometryGenerator.userData p))
       (GeometryGenerator.level_children level) = [18]
  /\ map GeometryGenerator.position_x (GeometryGenerator.level_children level) = [9]
  /\ map GeometryGenerator.position_y (GeometryGenerator.level_children level) = [0]
  /\ GeometryGenerator.totalLength level = 20.
Proof.
  cbv zeta. unfold GeometryGenerator.createLevel.
  rewrite (LevelFacts.placePlatforms_skip (fun m => m)) by reflexivity.
  rewrite (LevelFacts.placePlatforms_keep (fun m => m)) by reflexivity.
  rewrite (SurfRun.createPlatform_fresh (fun m => m) GeometryGenerator.init _ 1 18 5);
    [ | reflexivity | simpl; lra | reflexivity | reflexivity ].
  cbn [fst snd GeometryGenerator.userData GeometryGenerator.ud_length
       GeometryGenerator.placePlatforms GeometryGenerator.lay_platforms
       GeometryGenerator.lay_nextStartX GeometryGenerator.level_children
       GeometryGenerator.totalLength GeometryGenerator.sentenceCount
       GeometryGenerator.setPosition GeometryGenerator.name GeometryGenerator.position_x
       GeometryGenerator.position_y map List.length GeometryGenerator.nameOf
       GeometryGenerator.sentence_id].
  repeat split; try reflexivity; try (f_equal; lra); lra.
Qed.

(** Scenario 3: in the level of the five mock sentences the last platform
    sits four steps of 5 units below the first. *)
Example five_sentence_scenario :
  map GeometryGenerator.position_y
    (GeometryGenerator.level_children
       (fst (GeometryGenerator.createLevel (fun m => m) GeometryGenerator.init
               mockSentences)))
  = [0; 0 - 5; 0 - 5 - 5; 0 - 5 - 5 - 5; 0 - 5 - 5 - 5 - 5].
Proof. reflexivity. Qed.

(** ** Words and sentences of a text *)

Module TextFacts.

Import Utils.

Lemma append_empty_r (s : string) : (s ++ "")%string = s.
Proof. induction s as [ | c s IH]; cbn; [reflexivity | now rewrite IH]. Qed.

Lemma append_assoc (a b c : string) : ((a ++ b) ++ c)%string = (a ++ (b ++ c))%string.
Proof. induction a as [ | x a IH]; cbn; [reflexivity | now rewrite IH]. Qed.

Lemma append_not_empty (a : string) (c : ascii) : (a ++ String c "")%string <> EmptyString.
Proof. destruct a; discriminate. Qed.

Lemma strip_app (a b : string) : strip (a ++ b) = (strip a ++ strip b)%string.
Proof.
  induction a as [ | c a IH]; cbn; [reflexivity | ].
  destruct (isSpace c); cbn; now rewrite IH.
Qed.

Lemma strip_idem (s : string) : strip (strip s) = strip s.
Proof.
  induction s as [ | c s IH]; cbn; [reflexivity | ].
  destruct (isSpace c) eqn:Hc; cbn; [exact IH | ]. now rewrite Hc, IH.
Qed.

Lemma stripAll_app (a b : list string) : stripAll (a ++ b) = (stripAll a ++ stripAll b)%string.
Proof.
  induction a as [ | s a IH]; cbn; [reflexivity | ].
  unfold stripAll in IH. now rewrite IH, append_assoc.
Qed.

(** *** [trim] *)

Lemma trimEnd_nonspace (c : ascii) (rest : string) :
  isSpace c = false -> trimEnd (String c rest) = String c (trimEnd rest).
Proof. intros Hc. cbn [trimEnd]. destruct (trimEnd rest); now rewrite ?Hc. Qed.

Lemma trimEnd_idem (s : string) : trimEnd (trimEnd s) = trimEnd s.
Proof.
  induction s as [ | c rest IH]; [reflexivity | ].
  cbn [trimEnd]. destruct (trimEnd rest) as [ | a kept] eqn:E.
  - destruct (isSpace c) eqn:Hc; [reflexivity | ].
    cbn [trimEnd]. now rewrite Hc.
  - change (trimEnd (String c (String a kept))) with
      (match trimEnd (String a kept) with
       | EmptyString => if isSpace c then EmptyString else String c EmptyString
       | String _ _ as k => String c k
       end).
    now rewrite IH.
Qed.

Lemma strip_trimStart (s : string) : strip (trimStart s) = strip s.
Proof.
  induction s as [ | c rest IH]; [reflexivity | ].
  cbn [trimStart]. destruct (isSpace c) eqn:Hc; [ | reflexivity].
  cbn [strip]. now rewrite Hc.
Qed.

Lemma strip_trimEnd (s : string) : strip (trimEnd s) = strip s.
Proof.
  induction s as [ | c rest IH]; [reflexivity | ].
  cbn [trimEnd]. destruct (trimEnd rest) as [ | a kept] eqn:E.
  - cbn [strip] in IH. destruct (isSpace c) eqn:Hc; cbn [strip]; rewrite Hc, <- IH; reflexivity.
  - cbn [strip]. destruct (isSpace c); rewrite <- IH; reflexivity.
Qed.

Lemma strip_trim (s : string) : strip (trim s) = strip s.
Proof. unfold trim. now rewrite strip_trimEnd, strip_trimStart. Qed.

Lemma trimStart_head (s : string) :
  trimStart s = EmptyString
  \/ exists c rest, trimStart s = String c rest /\ isSpace c = false.
Proof.
  induction s as [ | c rest IH]; [now left | ].
  cbn [trimStart]. destruct (isSpace c) eqn:Hc; [exact IH | ].
  right. now exists c, rest.
Qed.

(** A trimmed text is empty or starts with a character that is not white
    space, and trimming its end again changes nothing. *)
Lemma trim_shape (s : string) :
  trim s = EmptyString
  \/ exists c rest, trim s = String c rest /\ isSpace c = false /\ trimEnd rest = rest.
Proof.
  unfold trim. destruct (trimStart_head s) as [-> | [c [rest [-> Hc]]]]; [now left | ].
  right. exists c, (trimEnd rest). rewrite (trimEnd_nonspace _ _ Hc).
  repeat split; [exact Hc | apply trimEnd_idem].
Qed.

Lemma trim_idem (s : string) : trim (trim s) = trim s.
Proof.
  destruct (trim_shape s) as [-> | [c [rest [-> [Hc Hrest]]]]]; [reflexivity | ].
  unfold trim. cbn [trimStart]. rewrite Hc, (trimEnd_nonspace _ _ Hc). now rewrite Hrest.
Qed.

Lemma strip_empty_trimStart (s : string) : strip s = EmptyString -> trimStart s = EmptyString.
Proof.
  induction s as [ | c rest IH]; [reflexivity | ].
  cbn [strip trimStart]. destruct (isSpace c); [exact IH | discriminate].
Qed.

Lemma trim_empty_iff (s : string) : trim s = EmptyString <-> strip s = EmptyString.
Proof.
  split; intros H.
  - rewrite <- strip_trim, H. reflexivity.
  - unfold trim. now rewrite (strip_empty_trimStart _ H).
Qed.

(** *** [split(/\s+/)] *)

Lemma splitAux_not_nil (s : string) (inSep : bool) (cur : string) : splitAux inSep cur s <> [].
Proof.
  revert inSep cur. induction s as [ | c rest IH]; intros inSep cur; cbn [splitAux].
  - discriminate.
  - destruct (isSpace c); [destruct inSep | ]; try apply IH; discriminate.
Qed.

(** The pieces hold the characters read, white space apart. *)
Lemma splitAux_strip (s : string) (inSep : bool) (cur : string) :
  (inSep = true -> cur = EmptyString) ->
  stripAll (splitAux inSep cur s) = (strip cur ++ strip s)%string.
Proof.
  revert inSep cur. induction s as [ | c rest IH]; intros inSep cur Hsep; cbn [splitAux].
  - cbn. now rewrite !append_empty_r.
  - cbn [strip]. destruct (isSpace c) eqn:Hc.
    + destruct inSep.
      * rewrite (Hsep eq_refl). now apply IH.
      * cbn [stripAll fold_right]. fold (stripAll (splitAux true "" rest)).
        rewrite IH by reflexivity. reflexivity.
    + rewrite IH by discriminate. rewrite strip_app, append_assoc. cbn [strip].
      now rewrite Hc.
Qed.

(** Read after a character that is not white space, a text that does not
    end in white space splits into words. *)
Lemma splitAux_words (s : string) (inSep : bool) (cur : string) :
  strip cur = cur ->
  (inSep = false -> cur <> EmptyString) ->
  (inSep = true -> s <> EmptyString) ->
  trimEnd s = s ->
  Forall isWord (splitAux inSep cur s).
Proof.
  revert inSep cur. induction s as [ | c rest IH]; intros inSep cur Hcur Hne Hsep Hend;
    cbn [splitAux].
  - constructor; [ | constructor]. split; [ | exact Hcur].
    destruct inSep; [now destruct (Hsep eq_refl) | now apply Hne].
  - destruct (isSpace c) eqn:Hc.
    + assert (Hrest : trimEnd rest = rest /\ rest <> EmptyString).
      { cbn [trimEnd] in Hend. destruct (trimEnd rest) as [ | a kept] eqn:E.
        - rewrite Hc in Hend. discriminate.
        - injection Hend as <-. split; [reflexivity | discriminate]. }
      destruct Hrest as [Hrest Hnonempty].
      assert (Hlater : Forall isWord (splitAux true "" rest)).
      { apply IH; auto; discriminate. }
      destruct inSep; [exact Hlater | ].
      constructor; [ | exact Hlater]. split; [now apply Hne | exact Hcur].
    + rewrite (trimEnd_nonspace _ _ Hc) in Hend. injection Hend as Hend.
      apply IH; auto.
      * rewrite strip_app, Hcur. cbn [strip]. now rewrite Hc.
      * intros _. apply append_not_empty.
      * discriminate.
Qed.

(** *** The sentence scan *)

Lemma stripAll_push (t : string) : stripAll (pushSentence t) = strip t.
Proof. destruct t; cbn; [reflexivity | ]. now rewrite append_empty_r. Qed.

Lemma strip_cons (c : ascii) (rest : string) :
  strip (String c rest) = (strip (String c "") ++ strip rest)%string.
Proof. cbn [strip]. destruct (isSpace c); reflexivity. Qed.

Lemma scanSentences_strip (n : nat) :
  forall (s piece : string),
    (String.length s <= n)%nat ->
    stripAll (scanSentences piece s) = (strip piece ++ strip s)%string.
Proof.
  induction n as [ | n IH]; intros s piece Hn.
  - destruct s; [ | cbn in Hn; lia]. cbn [scanSentences strip].
    now rewrite stripAll_push, strip_trim, append_empty_r.
  - destruct s as [ | c rest]; cbn [scanSentences].
    + cbn [strip]. now rewrite stripAll_push, strip_trim, append_empty_r.
    + cbn [String.length] in Hn.
      assert (Hkeep : stripAll (scanSentences (piece ++ String c "") rest)
                      = (strip piece ++ strip (String c rest))%string).
      { rewrite IH by lia. now rewrite strip_app, append_assoc, <- strip_cons. }
      destruct (isSentenceEnd c); [ | exact Hkeep].
      destruct rest as [ | d rest'].
      * rewrite stripAll_push, strip_trim, strip_app. reflexivity.
      * destruct (isSpace d) eqn:Hd; [ | exact Hkeep].
        rewrite stripAll_app, stripAll_push, strip_trim, strip_app.
        cbn [String.length] in Hn. rewrite IH by lia.
        rewrite append_assoc. f_equal.
        cbn [strip append]. rewrite Hd. destruct (isSpace c); reflexivity.
Qed.

Lemma push_trimmed (t : string) :
  Forall (fun s => s <> EmptyString /\ trim s = s) (pushSentence (trim t)).
Proof.
  unfold pushSentence. destruct (trim t) eqn:E; constructor; [ | constructor].
  split; [discriminate | ]. rewrite <- E. apply trim_idem.
Qed.

Lemma scanSentences_trimmed (n : nat) :
  forall (s piece : string),
    (String.length s <= n)%nat ->
    Forall (fun s => s <> EmptyString /\ trim s = s) (scanSentences piece s).
Proof.
  induction n as [ | n IH]; intros s piece Hn.
  - destruct s; [ | cbn in Hn; lia]. apply push_trimmed.
  - destruct s as [ | c rest]; cbn [scanSentences]; [apply push_trimmed | ].
    cbn [String.length] in Hn.
    destruct (isSentenceEnd c); [ | apply IH; lia].
    destruct rest as [ | d rest']; [apply push_trimmed | ].
    cbn [String.length] in Hn.
    destruct (isSpace d); [ | apply IH; cbn [String.length]; lia].
    apply Forall_app. split; [apply push_trimmed | ].
    apply IH; lia.
Qed.

Lemma scanSentences_plain (s piece : string) :
  mentions isSentenceEnd s = false ->
  scanSentences piece s = pushSentence (trim (piece ++ s)).
Proof.
  revert piece. induction s as [ | c rest IH]; intros piece Hs; cbn [scanSentences].
  - now rewrite append_empty_r.
  - cbn [mentions] in Hs. apply orb_false_iff in Hs. destruct Hs as [Hc Hrest].
    rewrite Hc, (IH _ Hrest), append_assoc. reflexivity.
Qed.

Lemma filter_trimmed (l : list string) :
  Forall (fun s => s <> EmptyString /\ trim s = s) l ->
  filter (fun s => (0 <? String.length (trim s))%nat) l = l.
Proof.
  induction 1 as [ | s l [Hs Ht] Hl IH]; [reflexivity | ].
  cbn [filter]. rewrite Ht, IH. destruct s; [contradiction | reflexivity].
Qed.

(** What [splitIntoSentences] returns for a text that is not empty. *)
Lemma splitIntoSentences_cases (text : string) :
  text <> EmptyString ->
  (scanSentences "" text = [] /\ splitIntoSentences text = [trim text])
  \/ (scanSentences "" text <> [] /\ splitIntoSentences text = scanSentences "" text).
Proof.
  intros Hne. destruct text as [ | c rest]; [contradiction | ].
  unfold splitIntoSentences.
  rewrite (filter_trimmed _ (scanSentences_trimmed _ _ _ (Nat.le_refl _))).
  destruct (scanSentences "" (String c rest)) as [ | s l]; [left | right]; split;
    auto; discriminate.
Qed.

Lemma splitIntoSentences_not_nil (text : string) : splitIntoSentences text <> [].
Proof.
  destruct text as [ | c rest]; [discriminate | ].
  destruct (splitIntoSentences_cases (String c rest)) as [[_ ->] | [Hn ->]];
    try discriminate. exact Hn.
Qed.

Lemma splitIntoSentences_shape (text : string) :
  Forall (fun s => trim s = s /\ (strip text <> EmptyString -> s <> EmptyString))
    (splitIntoSentences text).
Proof.
  destruct text as [ | c rest]; [repeat constructor; discriminate | ].
  destruct (splitIntoSentences_cases (String c rest)) as [[_ ->] | [Hn ->]];
    try discriminate.
  - constructor; [ | constructor]. split; [apply trim_idem | ].
    intros Hs E. apply trim_empty_iff in E. contradiction.
  - eapply Forall_impl; [ | apply (scanSentences_trimmed _ _ _ (Nat.le_refl _))].
    cbn. intros s [Hs Ht]. auto.
Qed.

(** The pieces of a text that holds a character other than white space
    are words. *)
Lemma split_words (text : string) :
  strip text <> EmptyString -> Forall isWord (splitWhitespace (trim text)).
Proof.
  intros Hne. destruct (trim_shape text) as [E | [c [rest [E [Hc Hrest]]]]].
  - apply trim_empty_iff in E. contradiction.
  - rewrite E. unfold splitWhitespace. cbn [splitAux]. rewrite Hc.
    apply splitAux_words; auto; try discriminate.
    cbn [strip append]. now rewrite Hc.
Qed.

End TextFacts.

(** X1.  [countWords] gives 0 for the empty text and at least 1 for every
    other text, a text of white space included. *)
Theorem countWords_zero_only_for_empty :
  Utils.countWords "" = 0%nat
  /\ forall (c : ascii) (rest : string), (1 <= Utils.countWords (String c rest))%nat.
Proof.
  split; [reflexivity | ]. intros c rest. unfold Utils.countWords.
  generalize (TextFacts.splitAux_not_nil (Utils.trim (String c rest)) false "").
  unfold Utils.splitWhitespace.
  destruct (Utils.splitAux false "" (Utils.trim (String c rest))); [congruence | cbn; lia].
Qed.

(** X2.  For a text that holds a character other than white space, the
    pieces [countWords] counts are words: none is empty, none holds white
    space, and together they hold the characters of the text other than
    white space, in order. *)
Theorem countWords_counts_words (text : string) :
  strip text <> EmptyString ->
  Forall isWord (Utils.splitWhitespace (Utils.trim text))
  /\ stripAll (Utils.splitWhitespace (Utils.trim text)) = strip text
  /\ Utils.countWords text = List.length (Utils.splitWhitespace (Utils.trim text)).
Proof.
  intros Hne. split; [ | split].
  - now apply TextFacts.split_words.
  - unfold Utils.splitWhitespace. rewrite TextFacts.splitAux_strip by discriminate.
    cbn [strip append]. apply TextFacts.strip_trim.
  - destruct text; [now contradiction Hne | reflexivity].
Qed.

Lemma countWords_counts_words_witness :
  strip "Surf the words" <> EmptyString
  /\ Forall isWord (Utils.splitWhitespace (Utils.trim "Surf the words"))
  /\ stripAll (Utils.splitWhitespace (Utils.trim "Surf the words")) = strip "Surf the words"
  /\ Utils.countWords "Surf the words"
     = List.length (Utils.splitWhitespace (Utils.trim "Surf the words")).
Proof.
  split; [discriminate | ]. apply (countWords_counts_words "Surf the words"). discriminate.
Defined.

(** X3.  [splitIntoSentences] never returns an empty list; every sentence
    it returns is trimmed, and none is empty unless the text holds white
    space only. *)
Theorem splitIntoSentences_trimmed (text : string) :
  Utils.splitIntoSentences text <> []
  /\ Forall (fun s => Utils.trim s = s /\ (strip text <> EmptyString -> s <> EmptyString))
       (Utils.splitIntoSentences text).
Proof.
  split; [apply TextFacts.splitIntoSentences_not_nil | apply TextFacts.splitIntoSentences_shape].
Qed.

(** X4.  Splitting a text into sentences loses white space only: the
    sentences hold, in order, the characters of the text other than white
    space. *)
Theorem splitIntoSentences_keeps_characters (text : string) :
  text <> EmptyString ->
  stripAll (Utils.splitIntoSentences text) = strip text.
Proof.
  intros Hne.
  generalize (TextFacts.scanSentences_strip _ text "" (Nat.le_refl _)). cbn [strip append].
  destruct (TextFacts.splitIntoSentences_cases text Hne) as [[Hs ->] | [_ ->]].
  - intros _. cbn. now rewrite TextFacts.append_empty_r, TextFacts.strip_trim.
  - auto.
Qed.

Lemma splitIntoSentences_keeps_characters_witness :
  stripAll (Utils.splitIntoSentences "Go on! Why? ") = strip "Go on! Why? ".
Proof. apply (splitIntoSentences_keeps_characters "Go on! Why? "). discriminate. Defined.

(** X5.  A text without any of [.], [!] and [?] is one sentence: the
    text, trimmed. *)
Theorem splitIntoSentences_without_sentence_end (text : string) :
  text <> EmptyString ->
  mentions Utils.isSentenceEnd text = false ->
  Utils.splitIntoSentences text = [Utils.trim text].
Proof.
  intros Hne Hplain.
  destruct (TextFacts.splitIntoSentences_cases text Hne) as [[_ ->] | [Hn ->]];
    [reflexivity | ].
  rewrite (TextFacts.scanSentences_plain _ _ Hplain) in *. cbn [append] in *.
  destruct (Utils.trim text); [now contradiction Hn | reflexivity].
Qed.

Lemma splitIntoSentences_without_sentence_end_witness :
  Utils.splitIntoSentences " no end mark " = [Utils.trim " no end mark "].
Proof.
  apply (splitIntoSentences_without_sentence_end " no end mark ");
    [discriminate | reflexivity].
Defined.

(** ** The curve, the outline and the text ribbon *)

(** X6.  The curve stays within half the curviness of the line it winds
    around. *)
Theorem generateCurve_within_amplitude (x length curviness : R) :
  0 <= curviness -> length <> 0 ->
  Rabs (Utils.generateCurve x length curviness - slopeLine x length) <= curviness / 2.
Proof.
  intros Hc _. rewrite CurveFacts.generateCurve_unfold. unfold slopeLine.
  set (s := sin (2 * PI * (1 + curviness / 10 * 2) * x / length)).
  assert (Hs : -1 <= s <= 1) by apply SIN_bound.
  assert (Hk : 0 < cos deg35 <= 1)
    by (split; [exact CurveFacts.cos_deg35_pos | apply COS_bound]).
  replace (curviness / 10 * 5 * s * cos deg35 + x * sin deg35 - 0.5 * (x / length)
           - (x * sin deg35 - 0.5 * (x / length)))
    with (curviness / 2 * (s * cos deg35)) by lra.
  assert (Hp : -1 <= s * cos deg35 <= 1) by nra.
  apply Rabs_le. split; nra.
Qed.

Lemma generateCurve_within_amplitude_witness :
  Rabs (Utils.generateCurve 1 4 2 - slopeLine 1 4) <= 2 / 2.
Proof. apply (generateCurve_within_amplitude 1 4 2); lra. Defined.

Module OutlineFacts.

Import GeometryGenerator.


Lemma textSegments_ge (length : R) : (20 <= textSegments length)%Z.
Proof. unfold textSegments. lia. Qed.




Lemma ribbon_length (platformLength curviness : R) (segments : Z) (l : list nat) :
  List.length (flat_map (ribbonVertices platformLength curviness segments) l)
  = (2 * List.length l)%nat.
Proof.
  induction l as [ | i l IH]; [reflexivity | ].
  cbn [flat_map]. rewrite length_app, IH. cbn [List.length ribbonVertices]. lia.
Qed.

Lemma textTriangles_bound (n bound : nat) :
  (n <= bound)%nat ->
  Forall (fun k => (k < 2 * (bound + 1))%nat)
    (flat_map
       (fun i => [(i * 2)%nat; (i * 2 + 1)%nat; ((i + 1) * 2)%nat; (i * 2 + 1)%nat;
                  ((i + 1) * 2 + 1)%nat; ((i + 1) * 2)%nat])
       (seq 0 n)).
Proof.
  intros Hn. apply Forall_flat_map. apply Forall_forall. intros i Hi.
  apply in_seq in Hi. repeat constructor; lia.
Qed.

Lemma textTriangles_length (start n : nat) :
  List.length
    (flat_map
       (fun i => [(i * 2)%nat; (i * 2 + 1)%nat; ((i + 1) * 2)%nat; (i * 2 + 1)%nat;
                  ((i + 1) * 2 + 1)%nat; ((i + 1) * 2)%nat])
       (seq start n))
  = (6 * n)%nat.
Proof.
  revert start. induction n as [ | n IH]; intros start; [reflexivity | ].
  cbn [seq flat_map]. rewrite length_app, IH. cbn [List.length]. lia.
Qed.

End OutlineFacts.



(** X8.  Each sample of the text ribbon is a pair of vertices whose
    midpoint is the point of the curve sampled and which lie 0.8 apart. *)
Theorem text_ribbon_straddles_curve (platformLength curviness : R) (i : nat) :
  platformLength <> 0 ->
  let segments := GeometryGenerator.textSegments platformLength in
  let x := INR i / IZR segments * platformLength in
  exists top bottom : R * R,
    GeometryGenerator.ribbonVertices platformLength curviness segments i = [top; bottom]
    /\ (fst top + fst bottom) / 2 = x - platformLength / 2
    /\ (snd top + snd bottom) / 2 = Utils.generateCurve x platformLength curviness
    /\ (fst top - fst bottom) * (fst top - fst bottom)
       + (snd top - snd bottom) * (snd top - snd bottom) = 0.8 * 0.8.
Proof.
  intros _ segments x. unfold GeometryGenerator.ribbonVertices. fold segments. fold x.
  set (y1 := Utils.generateCurve (Rmax 0 (x - 0.01)) platformLength curviness).
  set (y2 := Utils.generateCurve (Rmin platformLength (x + 0.01)) platformLength curviness).
  set (t := sqrt (2 * 0.01 * (2 * 0.01) + (y2 - y1) * (y2 - y1))).
  assert (Hsq : t * t = 2 * 0.01 * (2 * 0.01) + (y2 - y1) * (y2 - y1)).
  { unfold t. apply sqrt_sqrt.
    generalize (Rle_0_sqr (y2 - y1)). unfold Rsqr. lra. }
  assert (Ht : t <> 0).
  { intros E. rewrite E in Hsq.
    generalize (Rle_0_sqr (y2 - y1)). unfold Rsqr. lra. }
  eexists. eexists. split; [reflexivity | ]. cbn [fst snd].
  split; [lra | ]. split; [lra | ].
  assert (Hunit : (y2 - y1) / t * ((y2 - y1) / t) + 2 * 0.01 / t * (2 * 0.01 / t) = 1).
  { field_simplify_eq; [ | exact Ht]. lra. }
  nra.
Qed.

Lemma text_ribbon_straddles_curve_witness :
  exists top bottom : R * R,
    GeometryGenerator.ribbonVertices 6 0 (GeometryGenerator.textSegments 6) 3 = [top; bottom]
    /\ (fst top + fst bottom) / 2
       = INR 3 / IZR (GeometryGenerator.textSegments 6) * 6 - 6 / 2
    /\ (snd top + snd bottom) / 2
       = Utils.generateCurve (INR 3 / IZR (GeometryGenerator.textSegments 6) * 6) 6 0
    /\ (fst top - fst bottom) * (fst top - fst bottom)
       + (snd top - snd bottom) * (snd top - snd bottom) = 0.8 * 0.8.
Proof.
  assert (H : 6 <> 0) by lra.
  exact (text_ribbon_straddles_curve 6 0 3 H).
Defined.

(** X9.  The text ribbon has two vertices for each of its [segments + 1]
    samples and two triangles for each segment, and every index of its
    triangles is the index of one of its vertices. *)
Theorem text_triangles_in_range (text : string) (platformLength curviness : R) :
  let segments := Z.to_nat (GeometryGenerator.textSegments platformLength) in
  let vertices :=
    GeometryGenerator.geometry
      (GeometryGenerator.createTextOnPlatform text platformLength curviness) in
  let triangles :=
    GeometryGenerator.textTriangles (GeometryGenerator.textSegments platformLength) in
  List.length vertices = (2 * (segments + 1))%nat
  /\ List.length triangles = (6 * segments)%nat
  /\ (20 <= segments)%nat
  /\ Forall (fun k => (k < List.length vertices)%nat) triangles.
Proof.
  intros segments vertices triangles.
  assert (Hv : List.length vertices = (2 * (segments + 1))%nat).
  { unfold vertices, GeometryGenerator.createTextOnPlatform.
    cbn [GeometryGenerator.geometry].
    rewrite OutlineFacts.ribbon_length, GeometryFacts.indices_length.
    unfold segments, GeometryGenerator.textSegments. lia. }
  split; [exact Hv | ]. split; [apply OutlineFacts.textTriangles_length | ].
  split.
  - generalize (OutlineFacts.textSegments_ge platformLength). unfold segments. lia.
  - rewrite Hv. apply OutlineFacts.textTriangles_bound. lia.
Qed.

(** ** The cache and the extent of a level *)

Module LayoutFacts.

Import GeometryGenerator.

Section WithClone.

Variable clone : Mesh -> Mesh.

(** After a call the cache holds an entry for the key of the call. *)
Lemma createCurvedPlatform_caches (cache : Cache) (length width curviness : R) :
  cacheGet (snd (createCurvedPlatform clone cache length width curviness))
    (cacheKey length width curviness) <> None.
Proof.
  unfold createCurvedPlatform.
  destruct (cacheGet cache (cacheKey length width curviness)) eqn:Hc; cbn [snd].
  - congruence.
  - rewrite GeometryFacts.cacheGet_set_same. discriminate.
Qed.

Lemma createCurvedPlatform_grows (cache : Cache) (length width curviness : R) :
  (List.length (snd (createCurvedPlatform clone cache length width curviness))
   <= S (List.length cache))%nat.
Proof.
  unfold createCurvedPlatform.
  destruct (cacheGet cache (cacheKey length width curviness)); cbn; lia.
Qed.

Lemma createPlatform_keeps (cache : Cache) (sentence : Sentence) (index : nat)
  (k : CacheKey) (m : Mesh) :
  cacheGet cache k = Some m ->
  cacheGet (snd (createPlatform clone cache sentence index)) k = Some m.
Proof. intros Hk. exact (GeometryFacts.createCurvedPlatform_keeps clone _ _ _ _ _ _ Hk). Qed.

Lemma createPlatform_caches (cache : Cache) (sentence : Sentence) (index : nat) :
  cacheGet (snd (createPlatform clone cache sentence index))
    (keyOf (fst (createPlatform clone cache sentence index))) <> None.
Proof. exact (createCurvedPlatform_caches cache _ _ _). Qed.

Lemma createPlatform_grows (cache : Cache) (sentence : Sentence) (index : nat) :
  (List.length (snd (createPlatform clone cache sentence index)) <= S (List.length cache))%nat.
Proof. exact (createCurvedPlatform_grows cache _ _ _). Qed.

Lemma keyOf_setPosition (p : Platform) (x y : R) : keyOf (setPosition p x y) = keyOf p.
Proof. reflexivity. Qed.

(** The layout loop keeps the entries it finds, leaves an entry for each
    platform it places and adds at most one entry for each of them. *)
Lemma placePlatforms_cache (sentences : list Sentence) :
  forall (cache : Cache) (index : nat) (x y : R),
    let layout := placePlatforms clone cache index x y sentences in
    (forall k m, cacheGet cache k = Some m -> cacheGet (lay_cache layout) k = Some m)
    /\ Forall (fun p => cacheGet (lay_cache layout) (keyOf p) <> None) (lay_platforms layout)
    /\ (List.length (lay_cache layout)
        <= List.length cache + List.length (lay_platforms layout))%nat.
Proof.
  induction sentences as [ | s rest IH]; intros cache index x y.
  - cbn. repeat split; auto. lia.
  - destruct (retained s) eqn:Hs.
    + rewrite (LevelFacts.placePlatforms_keep _ _ _ _ _ _ _ Hs).
      cbv zeta. cbn [lay_cache lay_platforms].
      set (created := createPlatform clone cache s index).
      set (x' := x + ud_length (userData (fst created)) / 2
                 + ud_length (userData (fst created)) / 2 + 2).
      destruct (IH (snd created) (S index) x' (y - 5)) as [Hkeep [Hall Hlen]].
      split; [ | split].
      * intros k m Hk. apply Hkeep. now apply createPlatform_keeps.
      * constructor; [ | exact Hall].
        rewrite keyOf_setPosition.
        generalize (createPlatform_caches cache s index). fold created.
        destruct (cacheGet (snd created) (keyOf (fst created))) as [m | ] eqn:E;
          [ | congruence].
        intros _. rewrite (Hkeep _ _ E). discriminate.
      * generalize (createPlatform_grows cache s index). fold created.
        cbn [List.length]. lia.
    + rewrite (LevelFacts.placePlatforms_skip _ _ _ _ _ _ _ Hs). apply IH.
Qed.

(** Where the layout loop stops: at the running X when it has placed
    nothing, else two units beyond the right end of the last platform. *)
Lemma placePlatforms_end (sentences : list Sentence) :
  forall (cache : Cache) (index : nat) (x y : R),
    lay_nextStartX (placePlatforms clone cache index x y sentences)
    = match rev (lay_platforms (placePlatforms clone cache index x y sentences)) with
      | [] => x
      | p :: _ => rightEdge p + 2
      end.
Proof.
  induction sentences as [ | s rest IH]; intros cache index x y; [reflexivity | ].
  destruct (retained s) eqn:Hs.
  - rewrite (LevelFacts.placePlatforms_keep _ _ _ _ _ _ _ Hs).
    cbv zeta. cbn [lay_nextStartX lay_platforms rev].
    rewrite IH.
    destruct (rev (lay_platforms (placePlatforms clone _ _ _ _ rest))) as [ | p l];
      cbn [app]; [ | reflexivity].
    unfold rightEdge. cbn. lra.
  - rewrite (LevelFacts.placePlatforms_skip _ _ _ _ _ _ _ Hs). apply IH.
Qed.

Lemma filter_nil_iff (sentences : list Sentence) :
  filter retained sentences = [] <-> existsb retained sentences = false.
Proof.
  induction sentences as [ | s rest IH]; [split; reflexivity | ].
  cbn [filter existsb]. destruct (retained s); cbn [orb]; [split; discriminate | exact IH].
Qed.

Lemma no_platform_iff (sentences : list Sentence) (cache : Cache) (index : nat) (x y : R) :
  lay_platforms (placePlatforms clone cache index x y sentences) = []
  <-> existsb retained sentences = false.
Proof.
  rewrite <- filter_nil_iff.
  rewrite <- (LevelFacts.platforms_of_retained clone sentences cache index x y).
  split; intros H; [now rewrite H | now apply map_eq_nil in H].
Qed.

End WithClone.

End LayoutFacts.

(** X10.  [createLevel] keeps every cache entry it finds, leaves an entry
    for the key of each platform of the level, and adds at most one entry
    for each platform. *)
Theorem createLevel_cache (clone : GeometryGenerator.Mesh -> GeometryGenerator.Mesh)
  (cache : GeometryGenerator.Cache) (sentences : list GeometryGenerator.Sentence) :
  let level := fst (GeometryGenerator.createLevel clone cache sentences) in
  let cache' := snd (GeometryGenerator.createLevel clone cache sentences) in
  (forall k m, GeometryGenerator.cacheGet cache k = Some m ->
               GeometryGenerator.cacheGet cache' k = Some m)
  /\ Forall (fun p => GeometryGenerator.cacheGet cache' (keyOf p) <> None)
       (GeometryGenerator.level_children level)
  /\ (List.length cache'
      <= List.length cache + List.length (GeometryGenerator.level_children level))%nat.
Proof.
  unfold GeometryGenerator.createLevel. cbn [fst snd GeometryGenerator.level_children].
  apply LayoutFacts.placePlatforms_cache.
Qed.

(** X11.  The length of a level is 0 when it has no platform; otherwise
    the level ends two units beyond the right end of its last platform. *)
Theorem totalLength_is_past_last_platform
  (clone : GeometryGenerator.Mesh -> GeometryGenerator.Mesh)
  (cache : GeometryGenerator.Cache) (sentences : list GeometryGenerator.Sentence) :
  let level := fst (GeometryGenerator.createLevel clone cache sentences) in
  GeometryGenerator.totalLength level
  = match rev (GeometryGenerator.level_children level) with
    | [] => 0
    | p :: _ => rightEdge p + 2
    end.
Proof.
  unfold GeometryGenerator.createLevel.
  cbn [fst GeometryGenerator.level_children GeometryGenerator.totalLength].
  apply LayoutFacts.placePlatforms_end.
Qed.

(** X12.  A game started on the level of some sentences puts the player
    at (1, 2), one unit into the first platform and two units above its
    origin, when a sentence is retained, and leaves the player at the
    origin when none is. *)
Theorem start_position (clone : GeometryGenerator.Mesh -> GeometryGenerator.Mesh)
  (cache : GeometryGenerator.Cache) (sentences : list GeometryGenerator.Sentence) :
  Player.position
    (Game.player (Game.start (fst (GeometryGenerator.createLevel clone cache sentences))))
  = if existsb retained sentences then Player.mkVec3 1 2 0 else Player.mkVec3 0 0 0.
Proof.
  unfold Game.start, Game.positionPlayerAtStart, GeometryGenerator.createLevel.
  cbn [fst Game.player GeometryGenerator.level_children].
  destruct (GeometryGenerator.lay_platforms
              (GeometryGenerator.placePlatforms clone cache 0 0 0 sentences))
    as [ | p later] eqn:Hl.
  - apply LayoutFacts.no_platform_iff in Hl. rewrite Hl. reflexivity.
  - assert (Hsome : existsb retained sentences = true).
    { destruct (existsb retained sentences) eqn:E; [reflexivity | ].
      apply (LayoutFacts.no_platform_iff clone sentences cache 0 0 0) in E.
      congruence. }
    rewrite Hsome.
    destruct (LevelFacts.first_platform_slot clone _ _ _ _ _ _ _ Hl) as [Hx Hy].
    unfold Player.setPosition, Player.setX, Player.setY, Player.resetState.
    cbn [Player.position Player.vec_x Player.vec_y Player.vec_z].
    f_equal; lra.
Qed.

(** ** The collision scan *)

Module ScanFacts.

Import GeometryGenerator Player.

Lemma combine_seq_snoc (l : list Platform) (p : Platform) (start : nat) :
  combine (seq start (List.length l) ++ [(start + List.length l)%nat]) (l ++ [p])
  = combine (seq start (List.length l)) l ++ [((start + List.length l)%nat, p)].
Proof.
  revert start. induction l as [ | q l IH]; intros start.
  - cbn. now rewrite Nat.add_0_r.
  - cbn [List.length seq app combine]. f_equal.
    replace (start + S (List.length l))%nat with (S start + List.length l)%nat by lia.
    apply IH.
Qed.

Lemma indexed_snoc (l : list Platform) (p : Platform) :
  indexed (l ++ [p]) = indexed l ++ [(List.length l, p)].
Proof.
  unfold indexed. rewrite length_app. cbn [List.length].
  rewrite Nat.add_1_r, seq_S. apply combine_seq_snoc.
Qed.

(** One round of the scan either takes the platform, which is then under
    the player and higher than the best so far, or keeps the best. *)
Lemma scanPlatform_cases (x y r : R) (best : option (PlatformRef * R)) (i : nat)
  (p : Platform) :
  (underPlayer p x y r
   /\ higherThan best (surfaceAt p x) = true
   /\ scanPlatform x y r best (i, p) = Some (mkRef i p, surfaceAt p x))
  \/ ((~ underPlayer p x y r \/ higherThan best (surfaceAt p x) = false)
      /\ scanPlatform x y r best (i, p) = best).
Proof.
  unfold scanPlatform, underPlayer, surfaceAt.
  destruct (Req_dec_T (ud_length (userData p)) 0) as [Hz | Hnz].
  { right. split; [left; tauto | reflexivity]. }
  destruct (Rle_bool (position_x p - ud_length (userData p) / 2) x) eqn:Hl; cbn [andb].
  2:{ right. split; [ | reflexivity]. left. intros [_ [H _]].
      apply PlayerFacts.Rle_bool_spec in H. congruence. }
  destruct (Rle_bool x (position_x p + ud_length (userData p) / 2)) eqn:Hr.
  2:{ right. split; [ | reflexivity]. left. intros [_ [_ [H _]]].
      apply PlayerFacts.Rle_bool_spec in H. congruence. }
  apply PlayerFacts.Rle_bool_spec in Hl, Hr.
  destruct (higherThan best _) eqn:Hh; cbn [andb].
  2:{ right. split; [now right | reflexivity]. }
  destruct (Rle_bool _ (y + r)) eqn:Hreach.
  - apply PlayerFacts.Rle_bool_spec in Hreach. left. repeat split; auto.
  - right. split; [ | reflexivity]. left. intros [_ [_ [_ H]]].
    apply PlayerFacts.Rle_bool_spec in H. congruence.
Qed.

Lemma scan_spec (x y r : R) (l : list Platform) :
  scanSpec l x y r (fold_left (scanPlatform x y r) (indexed l) None).
Proof.
  induction l as [ | p l IH] using rev_ind.
  - cbn. intros q [].
  - rewrite indexed_snoc, fold_left_app. cbn [fold_left].
    set (res := fold_left (scanPlatform x y r) (indexed l) None) in *.
    destruct (scanPlatform_cases x y r res (List.length l) p)
      as [[Hunder [Hhigher ->]] | [Hskip ->]].
    + cbn [scanSpec ref_index ref_platform].
      split; [ | split; [reflexivity | split; [exact Hunder | ]]].
      * rewrite nth_error_app2 by lia. now rewrite Nat.sub_diag.
      * intros q Hq Hq'. apply in_app_or in Hq. destruct Hq as [Hq | [<- | []]]; [ | lra].
        destruct res as [[ref h] | ]; cbn [scanSpec higherThan] in *.
        -- destruct IH as [_ [_ [_ Hmax]]].
           apply PlayerFacts.Rlt_bool_spec in Hhigher.
           specialize (Hmax q Hq Hq'). lra.
        -- now destruct (IH q Hq).
    + destruct res as [[ref h] | ]; cbn [scanSpec higherThan] in *.
      * destruct IH as [Hnth [Hh [Hunder Hmax]]].
        split; [ | split; [exact Hh | split; [exact Hunder | ]]].
        -- rewrite nth_error_app1; [exact Hnth | ].
           apply nth_error_Some. congruence.
        -- intros q Hq Hq'. apply in_app_or in Hq. destruct Hq as [Hq | [<- | []]];
             [now apply Hmax | ].
           destruct Hskip as [Hno | Hlow]; [contradiction | ].
           destruct (Rlt_dec h (surfaceAt p x)) as [Hlt | Hge]; [ | lra].
           apply PlayerFacts.Rlt_bool_spec in Hlt. congruence.
      * intros q Hq. apply in_app_or in Hq. destruct Hq as [Hq | [<- | []]];
          [now apply IH | ].
        destruct Hskip as [Hno | Hlow]; [exact Hno | discriminate].
Qed.

Lemma find_sound (level : Level) (x y r : R) (ref : PlatformRef) (h : R) :
  findPlatform level x y r = Some (ref, h) ->
  nth_error (level_children level) (ref_index ref) = Some (ref_platform ref)
  /\ h = surfaceAt (ref_platform ref) x
  /\ underPlayer (ref_platform ref) x y r.
Proof.
  intros Hf. generalize (scan_spec x y r (level_children level)).
  unfold findPlatform in Hf. rewrite Hf. cbn. tauto.
Qed.

End ScanFacts.

(** X13.  The platform the collision scan returns is a platform of the
    level, found at the index the reference holds; it has a length, spans
    the abscissa of the player, and its surface there, which is the height
    returned, is at most the radius above the centre of the player. *)
Theorem findPlatform_sound (level : GeometryGenerator.Level) (x y r : R)
  (ref : Player.PlatformRef) (h : R) :
  Player.findPlatform level x y r = Some (ref, h) ->
  nth_error (GeometryGenerator.level_children level) (Player.ref_index ref)
  = Some (Player.ref_platform ref)
  /\ h = surfaceAt (Player.ref_platform ref) x
  /\ underPlayer (Player.ref_platform ref) x y r.
Proof.
  intros Hf.
  generalize (ScanFacts.scan_spec x y r (GeometryGenerator.level_children level)).
  unfold Player.findPlatform in Hf. rewrite Hf. unfold scanSpec.
  intros [Hnth [Hh [Hunder _]]]. split; [exact Hnth | split; [exact Hh | exact Hunder]].
Qed.

Lemma findPlatform_sound_witness :
  nth_error (GeometryGenerator.level_children surfLevel) (Player.ref_index refA)
  = Some (Player.ref_platform refA)
  /\ surfaceA 1 = surfaceAt (Player.ref_platform refA) 1
  /\ underPlayer (Player.ref_platform refA) 1 2 0.5.
Proof.
  apply (findPlatform_sound surfLevel 1 2 0.5 refA (surfaceA 1)).
  apply SurfRun.find_over_A; [lra | ].
  generalize CurveFacts.sin_deg35_bounds. unfold surfaceA. intros. lra.
Defined.

(** X14.  The scan misses no platform and returns the highest: when some
    platform of the level is under the player, the scan returns one, and
    no platform under the player has a higher surface there. *)
Theorem findPlatform_highest (level : GeometryGenerator.Level) (x y r : R)
  (q : GeometryGenerator.Platform) :
  In q (GeometryGenerator.level_children level) ->
  underPlayer q x y r ->
  exists (ref : Player.PlatformRef) (h : R),
    Player.findPlatform level x y r = Some (ref, h) /\ surfaceAt q x <= h.
Proof.
  intros Hq Hunder.
  generalize (ScanFacts.scan_spec x y r (GeometryGenerator.level_children level)).
  unfold Player.findPlatform.
  destruct (fold_left _ _ None) as [[ref h] | ]; unfold scanSpec.
  - intros [_ [_ [_ Hmax]]]. exists ref, h. split; [reflexivity | now apply Hmax].
  - intros Hnone. now destruct (Hnone q Hq).
Qed.

Lemma findPlatform_highest_witness :
  exists (ref : Player.PlatformRef) (h : R),
    Player.findPlatform surfLevel 1 2 0.5 = Some (ref, h) /\ surfaceAt platformA 1 <= h.
Proof.
  apply (findPlatform_highest surfLevel 1 2 0.5 platformA).
  - rewrite SurfRun.surfLevel_is. left. reflexivity.
  - unfold underPlayer, surfaceAt. rewrite SurfRun.heightA.
    replace (GeometryGenerator.position_x platformA) with 3 by reflexivity.
    replace (GeometryGenerator.position_y platformA) with 0 by reflexivity.
    replace (GeometryGenerator.ud_length (GeometryGenerator.userData platformA)) with 6
      by reflexivity.
    generalize CurveFacts.sin_deg35_bounds. intros. repeat split; lra.
Defined.

(** ** A tick of the player *)

Module MotionFacts.

Import GeometryGenerator Player.

Ltac fields :=
  cbv beta iota zeta delta
    [left right up down jump isGrounded isJumping andb negb velocity position
     vec_x vec_y vec_z setVelocity Player.setPosition setX setY setIsGrounded setIsJumping
     setCurrentPlatform setCurrentWordIndex setScore setPerfectSurfs
     currentPlatform currentWordIndex score perfectSurfs fst snd
     CONFIG.game.playerSpeed CONFIG.game.gravity CONFIG.game.jumpForce].

Ltac minmax := unfold Rmax, Rmin; repeat destruct (Rle_dec _ _); try lra.

(** What [processInput] does to the velocity and to the two flags: the
    horizontal speed stays within the limits, and either nothing else
    changes or the player leaves the ground with the jump force. *)
Lemma processInput_effect (input : Input) (dt : R) (st : State) :
  (- 5 <= vec_x (velocity st) <= 5 ->
   - 5 <= vec_x (velocity (processInput input dt st)) <= 5)
  /\ ((vec_y (velocity (processInput input dt st)) = vec_y (velocity st)
       /\ isGrounded (processInput input dt st) = isGrounded st
       /\ isJumping (processInput input dt st) = isJumping st)
      \/ (jump input = true /\ isGrounded st = true /\ isJumping st = false
          /\ vec_y (velocity (processInput input dt st)) = 8
          /\ isGrounded (processInput input dt st) = false
          /\ isJumping (processInput input dt st) = true)).
Proof.
  destruct st as [p [vx vy vz] j g c w s ps]. destruct input as [l r u d jp].
  unfold processInput. fields.
  destruct l, r, jp, g, j; fields;
    (split; [intros H; minmax | ]);
    first [left; repeat split; reflexivity | right; repeat split; reflexivity].
Qed.

Lemma applyPhysics_effect (dt : R) (st : State) :
  vec_x (velocity (applyPhysics dt st)) = vec_x (velocity st)
  /\ vec_y (velocity (applyPhysics dt st)) = Rmax (vec_y (velocity st) - 0.5) (-20)
  /\ vec_x (position (applyPhysics dt st))
     = vec_x (position st) + vec_x (velocity st) * dt
  /\ vec_y (position (applyPhysics dt st))
     = vec_y (position st) + (vec_y (velocity st) - 0.5) * dt.
Proof. unfold applyPhysics. fields. repeat split. Qed.

(** The collision stage on a level: the player lands on the platform the
    scan returns, or keeps falling or rising with nothing but the grounded
    flag cleared, or, grounded and not falling with nothing below, loses
    the current platform. *)
Lemma collisions_outcome (lv : Level) (st : State) :
  let st' := fst (checkPlatformCollisions (Some lv) st) in
  (exists (found : PlatformRef) (h : R),
      findPlatform lv (vec_x (position st)) (vec_y (position st)) 0.5 = Some (found, h)
      /\ vec_y (velocity st) < 0
      /\ position st' = setY (position st) (h + 0.5)
      /\ velocity st' = setY (velocity st) 0
      /\ isJumping st' = false /\ isGrounded st' = true
      /\ currentPlatform st' = Some found)
  \/ (position st' = position st /\ velocity st' = velocity st
      /\ isJumping st' = isJumping st /\ isGrounded st' = false
      /\ currentPlatform st' = currentPlatform st)
  \/ (0 <= vec_y (velocity st) /\ isGrounded st = true /\ st' = st)
  \/ (0 <= vec_y (velocity st) /\ isGrounded st = true
      /\ findPlatform lv (vec_x (position st)) (vec_y (position st)) 0.5 = None
      /\ currentPlatform st' = None).
Proof.
  cbv zeta.
  destruct (Rlt_dec (vec_y (velocity st)) 0) as [Hv | Hv].
  - destruct (findPlatform lv (vec_x (position st)) (vec_y (position st)) 0.5)
      as [[found h] | ] eqn:Hf.
    + destruct (Rle_dec (vec_y (position st) - h) 0.5) as [Hd | Hd].
      * rewrite (PlayerFacts.collisions_land lv st found h Hv Hf Hd). cbn [fst].
        left. exists found, h. fields. repeat split; auto.
      * rewrite (PlayerFacts.collisions_far lv st found h Hv Hf) by lra. cbn [fst].
        right. left. fields. repeat split.
    + rewrite (PlayerFacts.collisions_none_falling lv st Hv Hf). cbn [fst].
      right. left. fields. repeat split.
  - assert (Hv' : 0 <= vec_y (velocity st)) by lra.
    destruct (isGrounded st) eqn:Hg.
    + destruct (findPlatform lv (vec_x (position st)) (vec_y (position st)) 0.5)
        as [[found h] | ] eqn:Hf.
      * rewrite (PlayerFacts.collisions_rising lv st found h Hv' Hf). cbn [fst].
        right. right. left. auto.
      * right. right. right. repeat split; auto.
        unfold checkPlatformCollisions. rewrite Hf.
        rewrite (PlayerFacts.Rlt_bool_false _ _ Hv'), Hg. reflexivity.
    + right. left.
      destruct (PlayerFacts.collisions_not_falling (Some lv) st Hv') as [Hp [Hvel [Hj Hgr]]].
      repeat split; auto.
      * destruct (isGrounded (fst (checkPlatformCollisions (Some lv) st))) eqn:E;
          [ | reflexivity].
        specialize (Hgr eq_refl). congruence.
      * destruct (findPlatform lv (vec_x (position st)) (vec_y (position st)) 0.5)
          as [[found h] | ] eqn:Hf.
        -- now rewrite (PlayerFacts.collisions_rising lv st found h Hv' Hf).
        -- now rewrite (PlayerFacts.collisions_none_rising lv st Hv' Hg Hf).
Qed.

(** The collision stage leaves the abscissa and the horizontal speed as
    they are; the vertical speed it leaves or sets to zero. *)
Lemma collisions_velocity (level : option Level) (st : State) :
  vec_x (position (fst (checkPlatformCollisions level st))) = vec_x (position st)
  /\ vec_x (velocity (fst (checkPlatformCollisions level st))) = vec_x (velocity st)
  /\ (vec_y (velocity (fst (checkPlatformCollisions level st))) = vec_y (velocity st)
      \/ vec_y (velocity (fst (checkPlatformCollisions level st))) = 0).
Proof.
  unfold checkPlatformCollisions. destruct level as [lv | ]; [ | cbn; auto].
  destruct (findPlatform lv _ _ _) as [[found platformY] | ].
  - destruct (Rlt_bool _ 0); [ | cbn; auto].
    destruct (Rle_bool _ _); [ | cbn; auto].
    destruct (sameRef _ found); cbn; auto.
  - destruct (Rlt_bool _ 0); destruct (isGrounded _); cbn; auto.
Qed.

(** The abscissa and the velocity after a tick. *)
Lemma update_motion (input : Input) (dt : R) (level : option Level) (st : State) :
  let st1 := processInput input dt st in
  let st' := fst (update input dt level st) in
  vec_x (position st') = vec_x (position st) + vec_x (velocity st1) * dt
  /\ vec_x (velocity st') = vec_x (velocity st1)
  /\ (vec_y (velocity st') = Rmax (vec_y (velocity st1) - 0.5) (-20)
      \/ vec_y (velocity st') = 0).
Proof.
  cbv zeta. unfold update.
  destruct (applyPhysics_effect dt (processInput input dt st)) as [Hvx [Hvy [Hx _]]].
  destruct (PlayerFacts.processInput_keeps input dt st) as [_ [_ [_ [_ Hpos]]]].
  generalize (collisions_velocity level (applyPhysics dt (processInput input dt st))).
  destruct (checkPlatformCollisions level _) as [st3 ev1]. cbn [fst].
  generalize (PlayerFacts.checkWordSurfing_keeps st3).
  destruct (checkWordSurfing st3) as [st4 ev2]. cbn [fst].
  intros [_ [Kp [Kv _]]] [Cx [Cvx Cvy]].
  rewrite Kp, Kv, Cx, Cvx, Hx, Hvx, Hpos. rewrite <- Hvy.
  repeat split; auto.
Qed.

(** A steady player that is still grounded after the input and the
    physics is falling. *)
Lemma grounded_falls (input : Input) (dt : R) (st : State) :
  steady st ->
  isGrounded (applyPhysics dt (processInput input dt st)) = true ->
  vec_y (velocity (applyPhysics dt (processInput input dt st))) < 0.
Proof.
  intros Hsteady Hg.
  destruct (PlayerFacts.applyPhysics_keeps dt (processInput input dt st))
    as [_ [_ [_ [_ [Hg2 _]]]]].
  destruct (applyPhysics_effect dt (processInput input dt st)) as [_ [-> _]].
  rewrite Hg2 in Hg.
  destruct (processInput_effect input dt st) as [_ [[Hvy [Hgr _]] | [_ [_ [_ [_ [Hgr _]]]]]]].
  - rewrite Hvy. rewrite Hgr in Hg. destruct (Hsteady Hg) as [-> _]. minmax.
  - congruence.
Qed.

(** A tick of a steady player on a level, in full: it lands on the
    platform the scan returns, or it is in the air afterwards with the
    velocity and the position the physics gave it and the current platform
    it had. *)
Lemma update_outcome (input : Input) (dt : R) (lv : Level) (st : State) :
  steady st ->
  let st2 := applyPhysics dt (processInput input dt st) in
  let st' := fst (update input dt (Some lv) st) in
  (exists (found : PlatformRef) (h : R),
      findPlatform lv (vec_x (position st2)) (vec_y (position st2)) 0.5 = Some (found, h)
      /\ vec_y (velocity st2) < 0
      /\ position st' = setY (position st2) (h + 0.5)
      /\ velocity st' = setY (velocity st2) 0
      /\ isJumping st' = false /\ isGrounded st' = true
      /\ currentPlatform st' = Some found)
  \/ (position st' = position st2 /\ velocity st' = velocity st2
      /\ isJumping st' = isJumping st2 /\ isGrounded st' = false
      /\ currentPlatform st' = currentPlatform st).
Proof.
  intros Hsteady. cbv zeta. unfold update.
  set (st2 := applyPhysics dt (processInput input dt st)).
  assert (Hc2 : currentPlatform st2 = currentPlatform st).
  { unfold st2.
    destruct (PlayerFacts.applyPhysics_keeps dt (processInput input dt st)) as [-> _].
    now destruct (PlayerFacts.processInput_keeps input dt st) as [-> _]. }
  generalize (collisions_outcome lv st2) (grounded_falls input dt st Hsteady).
  fold st2. cbv zeta.
  destruct (checkPlatformCollisions (Some lv) st2) as [st3 ev1]. cbn [fst].
  generalize (PlayerFacts.checkWordSurfing_keeps st3).
  destruct (checkWordSurfing st3) as [st4 ev2]. cbn [fst].
  intros [Kc [Kp [Kv [Kg Kj]]]] Hout Hfall.
  rewrite Kc, Kp, Kv, Kg, Kj.
  destruct Hout as [Hland | [Hair | [[Hv [Hg _]] | [Hv [Hg _]]]]].
  - now left.
  - right. rewrite <- Hc2. exact Hair.
  - specialize (Hfall Hg). lra.
  - specialize (Hfall Hg). lra.
Qed.

Lemma update_speed (input : Input) (dt : R) (level : option Level) (st : State) :
  withinSpeed st -> withinSpeed (fst (update input dt level st)).
Proof.
  intros [Hx Hy]. unfold withinSpeed in *.
  unfold CONFIG.game.playerSpeed, CONFIG.game.jumpForce, CONFIG.game.gravity in *.
  destruct (processInput_effect input dt st) as [Hvx Hjump].
  specialize (Hvx Hx).
  destruct (update_motion input dt level st) as [_ [-> Hvy]].
  split; [exact Hvx | ].
  destruct Hvy as [-> | ->]; [ | lra].
  destruct Hjump as [[-> _] | [_ [_ [_ [-> _]]]]]; minmax.
Qed.

Lemma update_steady (input : Input) (dt : R) (level : Level) (st : State) :
  steady st -> steady (fst (update input dt (Some level) st)).
Proof.
  intros Hsteady.
  destruct (update_outcome input dt level st Hsteady)
    as [[found [h [_ [_ [_ [Hv [Hj [_ Hc]]]]]]]] | [_ [_ [_ [Hg _]]]]].
  - intros _. rewrite Hv, Hj, Hc. cbn [setY vec_y]. repeat split; congruence.
  - intros H. congruence.
Qed.

(** A player that is grounded after a tick stands on the platform the
    scan returned, half a unit above its surface. *)
Lemma update_standing (input : Input) (dt : R) (level : Level) (st : State) :
  steady st ->
  let st' := fst (update input dt (Some level) st) in
  isGrounded st' = true ->
  exists ref : PlatformRef,
    currentPlatform st' = Some ref
    /\ underPlayer (ref_platform ref) (vec_x (position st'))
         (vec_y (position (applyPhysics dt (processInput input dt st)))) 0.5
    /\ vec_y (position st') = surfaceAt (ref_platform ref) (vec_x (position st')) + 0.5.
Proof.
  intros Hsteady. cbv zeta.
  destruct (update_outcome input dt level st Hsteady)
    as [[found [h [Hf [_ [Hp [_ [_ [_ Hc]]]]]]]] | [_ [_ [_ [Hg _]]]]].
  - intros _. exists found. destruct (ScanFacts.find_sound _ _ _ _ _ _ Hf) as [_ [Hh Hunder]].
    rewrite Hp. cbn [setY vec_x vec_y]. subst h.
    split; [exact Hc | split; [exact Hunder | reflexivity]].
  - congruence.
Qed.

(** The first frame of [rideA], as a tick of the player. *)
Lemma first_ride_tick :
  Player.update pressRight (Rmin 0.1 0.1) (Some surfLevel) landedOnA
  = (snapshot 2.05 (79/240 + 2.05 * sin deg35) 3 0 false true (Some refA) 1 10 0,
     [PlayWord 0 1]).
Proof.
  assert (H := SurfRun.rideA_replays).
  cbv beta iota delta [lastOf fold_left landOnA rideA fst snd] in H.
  cbn [replays fst snd] in H. destruct H as [H1 _].
  destruct (proj1 (RunFacts.animate_player
                     (frameOf (pressRight,
                               snapshot 2.05 (79/240 + 2.05 * sin deg35) 3 0 false true
                                 (Some refA) 1 10 0,
                               [PlayWord 0 1]))
                     (playing landedOnA)) eq_refl) as [E1 E2].
  unfold landedOnA in *. rewrite H1 in E1, E2.
  cbn [fst snd Game.player playing frameOf Game.frame_input Game.frame_deltaTime
       Game.level] in E1, E2.
  rewrite (surjective_pairing (Player.update _ _ _ _)). now rewrite <- E1, <- E2.
Qed.

End MotionFacts.

(** X15.  A tick keeps the speeds within their limits: the horizontal
    speed within the player speed, the vertical speed between the terminal
    velocity and the jump force less the gravity. *)
Theorem update_within_speed (input : Player.Input) (dt : R)
  (level : option GeometryGenerator.Level) (st : Player.State) :
  withinSpeed st ->
  withinSpeed (fst (Player.update input dt level st)).
Proof.
  intros [Hx Hy]. unfold withinSpeed in *.
  unfold CONFIG.game.playerSpeed, CONFIG.game.jumpForce, CONFIG.game.gravity in *.
  destruct (MotionFacts.processInput_effect input dt st) as [Hvx Hjump].
  specialize (Hvx Hx).
  destruct (MotionFacts.update_motion input dt level st) as [_ [-> Hvy]].
  split; [exact Hvx | ].
  destruct Hvy as [-> | ->]; [ | lra].
  destruct Hjump as [[-> _] | [_ [_ [_ [-> _]]]]]; MotionFacts.minmax.
Qed.

Lemma update_within_speed_witness :
  withinSpeed (fst (Player.update pressRight 0.1 (Some surfLevel) surfStart)).
Proof.
  apply (update_within_speed pressRight 0.1 (Some surfLevel) surfStart).
  unfold withinSpeed, surfStart, snapshot,
    CONFIG.game.playerSpeed, CONFIG.game.jumpForce, CONFIG.game.gravity.
  cbn [Player.velocity Player.vec_x Player.vec_y]. lra.
Defined.

(** X16.  A tick keeps a grounded player at rest, not jumping and on a
    platform, and it never clears the current platform: the player keeps
    the platform it has until it lands, and a player that has another one
    after the tick has landed during it, on a platform of the level. *)
Theorem update_keeps_current_platform (input : Player.Input) (dt : R)
  (level : GeometryGenerator.Level) (st : Player.State) :
  steady st ->
  let st' := fst (Player.update input dt (Some level) st) in
  steady st'
  /\ (Player.currentPlatform st' = Player.currentPlatform st
      \/ exists found : Player.PlatformRef,
           Player.currentPlatform st' = Some found
           /\ Player.isGrounded st' = true
           /\ nth_error (GeometryGenerator.level_children level) (Player.ref_index found)
              = Some (Player.ref_platform found))
  /\ (Player.currentPlatform st <> None -> Player.currentPlatform st' <> None).
Proof.
  intros Hsteady. cbv zeta.
  destruct (MotionFacts.update_outcome input dt level st Hsteady)
    as [[found [h [Hf [_ [_ [Hv [Hj [Hg Hc]]]]]]]] | [_ [_ [_ [Hg Hc]]]]].
  - split; [ | split].
    + intros _. rewrite Hv, Hj, Hc. cbn [Player.setY Player.vec_y].
      repeat split; congruence.
    + right. exists found. repeat split; auto.
      now destruct (ScanFacts.find_sound _ _ _ _ _ _ Hf).
    + intros _. congruence.
  - split; [ | split].
    + intros H. congruence.
    + now left.
    + now rewrite Hc.
Qed.

Lemma update_keeps_current_platform_witness :
  Player.isGrounded landedOnA = true
  /\ Player.currentPlatform landedOnA = Some refA
  /\ steady landedOnA
  /\ Player.isGrounded
       (fst (Player.update pressRight (Rmin 0.1 0.1) (Some surfLevel) landedOnA)) = true
  /\ Player.currentPlatform
       (fst (Player.update pressRight (Rmin 0.1 0.1) (Some surfLevel) landedOnA))
     = Some refA
  /\ steady (fst (Player.update pressRight (Rmin 0.1 0.1) (Some surfLevel) landedOnA))
  /\ (Player.currentPlatform landedOnA <> None ->
      Player.currentPlatform
        (fst (Player.update pressRight (Rmin 0.1 0.1) (Some surfLevel) landedOnA))
      <> None).
Proof.
  assert (Hsteady : steady landedOnA).
  { intros _. split; [reflexivity | split; [reflexivity | discriminate]]. }
  destruct (update_keeps_current_platform pressRight (Rmin 0.1 0.1) surfLevel landedOnA
              Hsteady) as [Hs [_ Hn]].
  split; [reflexivity | ]. split; [reflexivity | ]. split; [exact Hsteady | ].
  split; [now rewrite MotionFacts.first_ride_tick | ].
  split; [now rewrite MotionFacts.first_ride_tick | ].
  split; [exact Hs | exact Hn].
Defined.

(** X17.  A player that is grounded after a tick stands on its current
    platform: the platform spans the abscissa of the player and the player
    is exactly half a unit, its radius, above the surface there. *)
Theorem grounded_player_stands_on_surface (input : Player.Input) (dt : R)
  (level : GeometryGenerator.Level) (st : Player.State) :
  steady st ->
  let st' := fst (Player.update input dt (Some level) st) in
  Player.isGrounded st' = true ->
  exists ref : Player.PlatformRef,
    Player.currentPlatform st' = Some ref
    /\ rightEdge (Player.ref_platform ref)
         - GeometryGenerator.ud_length
             (GeometryGenerator.userData (Player.ref_platform ref))
       <= Player.vec_x (Player.position st') <= rightEdge (Player.ref_platform ref)
    /\ Player.vec_y (Player.position st')
       = surfaceAt (Player.ref_platform ref) (Player.vec_x (Player.position st')) + 0.5.
Proof.
  intros Hsteady. cbv zeta. intros Hg.
  destruct (MotionFacts.update_standing input dt level st Hsteady Hg)
    as [ref [Hc [[_ [Hl [Hr _]]] Hy]]].
  exists ref. unfold rightEdge. repeat split; auto; lra.
Qed.

Lemma grounded_player_stands_on_surface_witness :
  exists ref : Player.PlatformRef,
    Player.currentPlatform
      (fst (Player.update pressRight (Rmin 0.1 0.1) (Some surfLevel)
              (snapshot 1.5 1.5 2 (-2) false false None 0 0 0))) = Some ref
    /\ rightEdge (Player.ref_platform ref)
         - GeometryGenerator.ud_length
             (GeometryGenerator.userData (Player.ref_platform ref))
       <= Player.vec_x (Player.position
            (fst (Player.update pressRight (Rmin 0.1 0.1) (Some surfLevel)
                    (snapshot 1.5 1.5 2 (-2) false false None 0 0 0))))
       <= rightEdge (Player.ref_platform ref)
    /\ Player.vec_y (Player.position
         (fst (Player.update pressRight (Rmin 0.1 0.1) (Some surfLevel)
                 (snapshot 1.5 1.5 2 (-2) false false None 0 0 0))))
       = surfaceAt (Player.ref_platform ref)
           (Player.vec_x (Player.position
              (fst (Player.update pressRight (Rmin 0.1 0.1) (Some surfLevel)
                      (snapshot 1.5 1.5 2 (-2) false false None 0 0 0))))) + 0.5.
Proof.
  apply (grounded_player_stands_on_surface pressRight (Rmin 0.1 0.1) surfLevel
           (snapshot 1.5 1.5 2 (-2) false false None 0 0 0)).
  - intros H. discriminate H.
  - assert (H := SurfRun.landOnA_replays). unfold landOnA in H. cbn [replays fst snd] in H.
    destruct H as [_ [_ [_ [_ [H5 _]]]]].
    assert (E := proj1 (proj1 (RunFacts.animate_player
                                 (frameOf (pressRight,
                                           snapshot 1.75 (17/48 + 1.75 * sin deg35) 2.5 0
                                             false true (Some refA) 0 0 0,
                                           [Player.PlaySentence 0]))
                                 (playing (snapshot 1.5 1.5 2 (-2) false false None 0 0 0)))
                          eq_refl)).
    rewrite H5 in E.
    cbn [fst snd Game.player playing frameOf Game.frame_input Game.frame_deltaTime
         Game.level] in E.
    rewrite <- E. reflexivity.
Defined.

(** X18.  The vertical speed after a tick is the speed before less the
    gravity, held at the terminal velocity; or zero, after a landing; or,
    for a jump, which takes the jump key, a grounded player and no jump
    under way, the jump force less the gravity.  There is no jump in the
    air. *)
Theorem vertical_speed_after_tick (input : Player.Input) (dt : R)
  (level : option GeometryGenerator.Level) (st : Player.State) :
  let vy := Player.vec_y (Player.velocity st) in
  let vy' := Player.vec_y (Player.velocity (fst (Player.update input dt level st))) in
  vy' = Rmax (vy - CONFIG.game.gravity) (-20)
  \/ vy' = 0
  \/ (Player.jump input = true /\ Player.isGrounded st = true
      /\ Player.isJumping st = false
      /\ vy' = CONFIG.game.jumpForce - CONFIG.game.gravity).
Proof.
  cbv zeta. unfold CONFIG.game.gravity, CONFIG.game.jumpForce.
  destruct (MotionFacts.update_motion input dt level st) as [_ [_ [Hvy | Hvy]]];
    [ | now right; left].
  destruct (MotionFacts.processInput_effect input dt st)
    as [_ [[E _] | [Hj [Hg [Hnj [E _]]]]]]; rewrite E in Hvy.
  - now left.
  - right. right. repeat split; auto. rewrite Hvy. MotionFacts.minmax.
Qed.

(** ** Words, counters and the end of the game *)

Module ScoreFacts.

Import GeometryGenerator Player.

Lemma collisions_index (level : option Level) (st : State) :
  (0 <= currentWordIndex st)%Z ->
  (0 <= currentWordIndex (fst (checkPlatformCollisions level st)))%Z
  /\ (forall p i, ~ In (PlayWord p i) (snd (checkPlatformCollisions level st))).
Proof.
  intros Hi. unfold checkPlatformCollisions.
  destruct level as [lv | ]; [ | cbn; repeat split; auto].
  destruct (findPlatform lv _ _ _) as [[found platformY] | ].
  - destruct (Rlt_bool _ 0); [ | cbn; repeat split; auto].
    destruct (Rle_bool _ _); [ | cbn; repeat split; auto].
    destruct (sameRef _ found); cbn; repeat split; auto; try lia.
    intros p i [E | []]. discriminate.
  - destruct (Rlt_bool _ 0); destruct (isGrounded _); cbn; repeat split; auto.
Qed.

Lemma collisions_bonus (level : option Level) (st : State) :
  bonusCount (snd (checkPlatformCollisions level st)) = 0%Z.
Proof.
  unfold checkPlatformCollisions. destruct level as [lv | ]; [ | reflexivity].
  destruct (findPlatform lv _ _ _) as [[found platformY] | ].
  - destruct (Rlt_bool _ 0); [ | reflexivity].
    destruct (Rle_bool _ _); [ | reflexivity].
    destruct (sameRef _ found); reflexivity.
  - destruct (Rlt_bool _ 0); destruct (isGrounded _); reflexivity.
Qed.

(** The words [checkWordSurfing] plays lie after the first word and
    within the sentence of the current platform. *)
Lemma wordSurfing_range (st : State) :
  (0 <= currentWordIndex st)%Z ->
  (0 <= currentWordIndex (fst (checkWordSurfing st)))%Z
  /\ forall p i, In (PlayWord p i) (snd (checkWordSurfing st)) ->
       exists ref : PlatformRef,
         currentPlatform st = Some ref /\ ref_index ref = p
         /\ (1 <= i <= wordCountOn ref - 1)%Z.
Proof.
  intros Hi. unfold checkWordSurfing.
  destruct (currentPlatform st) as [ref | ] eqn:Hc; [ | cbn; split; [exact Hi | tauto]].
  generalize (PlayerFacts.wordIndex_below_count st ref). cbv zeta. intros Hle.
  unfold wordCountOn.
  destruct (Rle_bool 0.95 _); repeat (PlayerFacts.case_test; cbn);
    (split; [lia | ]); intros p i Hin;
    repeat (destruct Hin as [Hin | Hin]; [try discriminate Hin | ]); try contradiction;
    injection Hin as <- <-; exists ref; repeat split; auto; lia.
Qed.

Lemma bonusCount_app (a b : list Event) :
  bonusCount (a ++ b) = (bonusCount a + bonusCount b)%Z.
Proof.
  induction a as [ | e a IH]; [reflexivity | ].
  destruct e; cbn [app bonusCount]; rewrite IH; lia.
Qed.

Lemma wordSurfing_perfect (st : State) :
  perfectSurfs (fst (checkWordSurfing st))
  = (perfectSurfs st + bonusCount (snd (checkWordSurfing st)))%Z.
Proof.
  unfold checkWordSurfing. destruct (currentPlatform st) as [ref | ]; [ | cbn; lia].
  destruct (Rle_bool 0.95 _); repeat (PlayerFacts.case_test; cbn); lia.
Qed.

Lemma update_perfect (input : Input) (dt : R) (level : option Level) (st : State) :
  perfectSurfs (fst (update input dt level st))
  = (perfectSurfs st + bonusCount (snd (update input dt level st)))%Z.
Proof.
  unfold update.
  set (st2 := applyPhysics dt (processInput input dt st)).
  assert (H2 : perfectSurfs st2 = perfectSurfs st).
  { unfold st2.
    destruct (PlayerFacts.applyPhysics_keeps dt (processInput input dt st))
      as [_ [_ [_ [-> _]]]].
    now destruct (PlayerFacts.processInput_keeps input dt st) as [_ [_ [_ [-> _]]]]. }
  generalize (RunFacts.collisions_keep_score level st2) (collisions_bonus level st2).
  destruct (checkPlatformCollisions level st2) as [st3 ev1]. cbn [fst snd].
  intros [_ H3] H0.
  generalize (wordSurfing_perfect st3).
  destruct (checkWordSurfing st3) as [st4 ev2]. cbn [fst snd].
  intros H4. rewrite bonusCount_app. lia.
Qed.

Lemma update_index (input : Input) (dt : R) (level : option Level) (st : State) :
  (0 <= currentWordIndex st)%Z ->
  (0 <= currentWordIndex (fst (update input dt level st)))%Z.
Proof.
  intros Hi. unfold update.
  set (st2 := applyPhysics dt (processInput input dt st)).
  assert (H2 : (0 <= currentWordIndex st2)%Z).
  { unfold st2.
    destruct (PlayerFacts.applyPhysics_keeps dt (processInput input dt st))
      as [_ [-> _]].
    now destruct (PlayerFacts.processInput_keeps input dt st) as [_ [-> _]]. }
  generalize (collisions_index level st2 H2).
  destruct (checkPlatformCollisions level st2) as [st3 ev1]. cbn [fst snd].
  intros [H3 _].
  generalize (wordSurfing_range st3 H3).
  destruct (checkWordSurfing st3) as [st4 ev2]. cbn [fst snd].
  now intros [H4 _].
Qed.

End ScoreFacts.

(** X19.  The words a tick plays and scores lie after the first word and
    within the sentence of the platform the player is on after the tick:
    the first word of a sentence is never played by [checkWordSurfing].
    The word index stays non-negative. *)
Theorem played_words_in_range (input : Player.Input) (dt : R)
  (level : option GeometryGenerator.Level) (st : Player.State) :
  (0 <= Player.currentWordIndex st)%Z ->
  let st' := fst (Player.update input dt level st) in
  (0 <= Player.currentWordIndex st')%Z
  /\ forall p i, In (Player.PlayWord p i) (snd (Player.update input dt level st)) ->
       exists ref : Player.PlatformRef,
         Player.currentPlatform st' = Some ref /\ Player.ref_index ref = p
         /\ (1 <= i <= wordCountOn ref - 1)%Z.
Proof.
  intros Hi. cbv zeta. unfold Player.update.
  set (st2 := Player.applyPhysics dt (Player.processInput input dt st)).
  assert (H2 : (0 <= Player.currentWordIndex st2)%Z).
  { unfold st2.
    destruct (PlayerFacts.applyPhysics_keeps dt (Player.processInput input dt st))
      as [_ [-> _]].
    now destruct (PlayerFacts.processInput_keeps input dt st) as [_ [-> _]]. }
  generalize (ScoreFacts.collisions_index level st2 H2).
  destruct (Player.checkPlatformCollisions level st2) as [st3 ev1]. cbn [fst snd].
  intros [H3 Hnone].
  generalize (ScoreFacts.wordSurfing_range st3 H3) (PlayerFacts.checkWordSurfing_keeps st3).
  destruct (Player.checkWordSurfing st3) as [st4 ev2]. cbn [fst snd].
  intros [H4 Hrange] [Hc _]. split; [exact H4 | ].
  intros p i Hin. apply in_app_or in Hin. destruct Hin as [Hin | Hin].
  - now destruct (Hnone p i).
  - rewrite Hc. now apply Hrange.
Qed.

Lemma played_words_in_range_witness :
  (0 <= Player.currentWordIndex landedOnA)%Z
  /\ In (Player.PlayWord 0 1)
       (snd (Player.update pressRight (Rmin 0.1 0.1) (Some surfLevel) landedOnA))
  /\ exists ref : Player.PlatformRef,
       Player.currentPlatform
         (fst (Player.update pressRight (Rmin 0.1 0.1) (Some surfLevel) landedOnA))
       = Some ref
       /\ Player.ref_index ref = 0%nat
       /\ (1 <= 1 <= wordCountOn ref - 1)%Z.
Proof.
  assert (Hi : (0 <= Player.currentWordIndex landedOnA)%Z).
  { unfold landedOnA, snapshot. cbn [Player.currentWordIndex]. lia. }
  assert (Hin : In (Player.PlayWord 0 1)
                  (snd (Player.update pressRight (Rmin 0.1 0.1) (Some surfLevel) landedOnA))).
  { rewrite MotionFacts.first_ride_tick. left. reflexivity. }
  split; [exact Hi | ]. split; [exact Hin | ].
  exact (proj2 (played_words_in_range pressRight (Rmin 0.1 0.1) (Some surfLevel) landedOnA Hi)
           0%nat 1%Z Hin).
Defined.

(** X20.  Over any run the two counters account for the events emitted:
    the score grows by 10 for each word played and by 20 for each perfect
    surf, the perfect-surf counter by the number of perfect surfs. *)
Theorem counters_account_for_events (frames : list Game.Frame) (gs : Game.State) :
  Player.score (Game.player (fst (Game.run frames gs)))
  = (Player.score (Game.player gs) + scoreOf (snd (Game.run frames gs)))%Z
  /\ Player.perfectSurfs (Game.player (fst (Game.run frames gs)))
     = (Player.perfectSurfs (Game.player gs) + bonusCount (snd (Game.run frames gs)))%Z.
Proof.
  split; [apply RunFacts.run_score | ].
  revert gs. induction frames as [ | frame rest IH]; intros gs; [cbn; lia | ].
  rewrite RunFacts.run_cons. cbn [fst snd]. rewrite IH, ScoreFacts.bonusCount_app.
  destruct (RunFacts.animate_player frame gs) as [Hplay Hover].
  destruct (Game.isPlaying gs).
  - destruct (Hplay eq_refl) as [-> ->]. rewrite ScoreFacts.update_perfect. lia.
  - rewrite (Hover eq_refl). cbn. lia.
Qed.

Module GameFacts.

Import GeometryGenerator.

Lemma checkLevelCompletion_level (gs : Game.State) :
  Game.level (Game.checkLevelCompletion gs) = Game.level gs.
Proof.
  destruct gs as [playing lv p]. unfold Game.checkLevelCompletion.
  cbn [Game.level Game.isPlaying Game.player].
  destruct lv; [ | reflexivity]. destruct playing; [ | reflexivity].
  destruct (Player.Rle_bool _ _); destruct (Player.Rlt_bool _ _); reflexivity.
Qed.

Lemma animate_level (frame : Game.Frame) (gs : Game.State) :
  Game.level (fst (Game.animate frame gs)) = Game.level gs.
Proof.
  unfold Game.animate, Game.update. destruct (Game.isPlaying gs); [ | reflexivity].
  destruct (Player.update _ _ _ _) as [p events]. cbn [fst].
  now rewrite checkLevelCompletion_level.
Qed.

(** When a frame of a game that is being played on a level is over, the
    game has ended exactly if the player is at or beyond the length of the
    level or below the height -20. *)
Lemma animate_ends (frame : Game.Frame) (gs : Game.State) (lv : Level) :
  Game.isPlaying gs = true -> Game.level gs = Some lv ->
  let gs' := fst (Game.animate frame gs) in
  Game.isPlaying gs' = false
  <-> (totalLength lv <= Player.vec_x (Player.position (Game.player gs'))
       \/ Player.vec_y (Player.position (Game.player gs')) < -20).
Proof.
  intros Hplay Hlevel. cbv zeta. unfold Game.animate, Game.update. rewrite Hplay, Hlevel.
  destruct (Player.update _ _ _ _) as [p events]. cbn [fst].
  unfold Game.checkLevelCompletion. cbn [Game.level Game.isPlaying Game.player].
  destruct (Player.Rle_bool (totalLength lv) _) eqn:Hx;
    destruct (Player.Rlt_bool _ (-20)) eqn:Hy;
    cbn [Game.level Game.isPlaying Game.player];
    try apply PlayerFacts.Rle_bool_spec in Hx; try apply PlayerFacts.Rlt_bool_spec in Hy;
    split; auto; try discriminate.
  intros [H | H].
  - apply PlayerFacts.Rle_bool_spec in H. congruence.
  - apply PlayerFacts.Rlt_bool_spec in H. congruence.
Qed.

Lemma start_wellFormed (level : Level) : wellFormed level (Game.start level).
Proof.
  unfold wellFormed, Game.start, Game.positionPlayerAtStart.
  cbn [Game.level Game.player]. split; [reflexivity | ].
  destruct (level_children level) as [ | p rest];
    unfold steady, withinSpeed, CONFIG.game.playerSpeed, CONFIG.game.jumpForce,
      CONFIG.game.gravity; cbn; repeat split; try discriminate; try lra; try lia.
Qed.

Lemma animate_wellFormed (level : Level) (frame : Game.Frame) (gs : Game.State) :
  wellFormed level gs -> wellFormed level (fst (Game.animate frame gs)).
Proof.
  intros [Hl [Hs [Hw Hi]]]. unfold wellFormed. rewrite animate_level.
  split; [exact Hl | ].
  destruct (RunFacts.animate_player frame gs) as [Hplay Hover].
  destruct (Game.isPlaying gs).
  - destruct (Hplay eq_refl) as [-> _]. rewrite Hl. split; [ | split].
    + now apply MotionFacts.update_steady.
    + now apply MotionFacts.update_speed.
    + now apply ScoreFacts.update_index.
  - rewrite (Hover eq_refl). cbn [fst]. auto.
Qed.

End GameFacts.

(** X21.  Once the game has ended, frames change nothing and emit
    nothing. *)
Theorem ended_game_is_inert (frames : list Game.Frame) (gs : Game.State) :
  Game.isPlaying gs = false -> Game.run frames gs = (gs, []).
Proof.
  intros Hover. induction frames as [ | frame rest IH]; [reflexivity | ].
  rewrite RunFacts.run_cons.
  rewrite (proj2 (RunFacts.animate_player frame gs) Hover). cbn [fst snd]. now rewrite IH.
Qed.

Lemma ended_game_is_inert_witness :
  Game.run surfFrames (Game.mkState false (Some surfLevel) surfStart)
  = (Game.mkState false (Some surfLevel) surfStart, []).
Proof.
  apply (ended_game_is_inert surfFrames (Game.mkState false (Some surfLevel) surfStart)).
  reflexivity.
Defined.

(** X22.  A frame of a game being played on a level ends the game exactly
    when it leaves the player at or beyond the length of the level, or
    below the height -20; the level stays the same. *)
Theorem game_ends_out_of_bounds (frame : Game.Frame) (gs : Game.State)
  (lv : GeometryGenerator.Level) :
  Game.isPlaying gs = true -> Game.level gs = Some lv ->
  let gs' := fst (Game.animate frame gs) in
  Game.level gs' = Some lv
  /\ (Game.isPlaying gs' = false
      <-> (GeometryGenerator.totalLength lv
             <= Player.vec_x (Player.position (Game.player gs'))
           \/ Player.vec_y (Player.position (Game.player gs')) < -20)).
Proof.
  intros Hplay Hlevel. cbv zeta. split.
  - now rewrite GameFacts.animate_level.
  - now apply GameFacts.animate_ends.
Qed.

Lemma game_ends_out_of_bounds_witness :
  Game.level (fst (Game.animate (Game.mkFrame pressRight 0.1) (playing surfStart)))
  = Some surfLevel.
Proof.
  apply (game_ends_out_of_bounds (Game.mkFrame pressRight 0.1) (playing surfStart) surfLevel);
    reflexivity.
Defined.

(** X23.  A frame moves the player horizontally by at most half a unit,
    however long the frame lasted: the duration is capped at a tenth of a
    second and the speed at the player speed. *)
Theorem frame_moves_at_most_half_a_unit (frame : Game.Frame) (gs : Game.State) :
  withinSpeed (Game.player gs) ->
  0 <= Game.frame_deltaTime frame ->
  Rabs (Player.vec_x (Player.position (Game.player (fst (Game.animate frame gs))))
        - Player.vec_x (Player.position (Game.player gs))) <= 0.5.
Proof.
  intros [Hx _] Hdt.
  unfold CONFIG.game.playerSpeed in Hx.
  destruct (RunFacts.animate_player frame gs) as [Hplay Hover].
  destruct (Game.isPlaying gs).
  - destruct (Hplay eq_refl) as [-> _].
    destruct (MotionFacts.update_motion (Game.frame_input frame)
                (Rmin (Game.frame_deltaTime frame) 0.1) (Game.level gs) (Game.player gs))
      as [-> _].
    destruct (MotionFacts.processInput_effect (Game.frame_input frame)
                (Rmin (Game.frame_deltaTime frame) 0.1) (Game.player gs)) as [Hvx _].
    specialize (Hvx Hx).
    set (v := Player.vec_x (Player.velocity (Player.processInput _ _ _))) in *.
    assert (Hcap : 0 <= Rmin (Game.frame_deltaTime frame) 0.1 <= 0.1)
      by (unfold Rmin; destruct (Rle_dec _ _); lra).
    apply Rabs_le. split; nra.
  - rewrite (Hover eq_refl). cbn [fst].
    rewrite Rminus_diag, Rabs_R0. lra.
Qed.

Lemma frame_moves_at_most_half_a_unit_witness :
  Rabs (Player.vec_x (Player.position
          (Game.player (fst (Game.animate (Game.mkFrame pressRight 3) (playing surfStart)))))
        - Player.vec_x (Player.position (Game.player (playing surfStart)))) <= 0.5.
Proof.
  apply (frame_moves_at_most_half_a_unit (Game.mkFrame pressRight 3) (playing surfStart)).
  - unfold withinSpeed, playing, surfStart, snapshot,
      CONFIG.game.playerSpeed, CONFIG.game.jumpForce, CONFIG.game.gravity.
    cbn [Game.player Player.velocity Player.vec_x Player.vec_y]. lra.
  - cbn [Game.frame_deltaTime]. lra.
Defined.

(** X24.  In every state of a run of a game started on a level, the level
    is the one the game started with, a grounded player is at rest, not
    jumping and on a platform, the speeds are within their limits and the
    word index is not negative. *)
Theorem run_is_wellFormed (level : GeometryGenerator.Level) (frames : list Game.Frame) :
  Forall (wellFormed level) (visited frames (Game.start level)).
Proof.
  generalize (Game.start level) (GameFacts.start_wellFormed level).
  induction frames as [ | frame rest IH]; intros gs Hgs.
  - cbn [visited]. constructor; [exact Hgs | constructor].
  - rewrite RunFacts.visited_cons. constructor; [exact Hgs | ].
    apply IH. now apply GameFacts.animate_wellFormed.
Qed.

(** ** The key handlers *)

(** X25.  The last key event of an action decides its flag: a release
    after a press of the same key leaves what the release alone leaves, a
    press after a release what the press alone leaves; and the two keys of
    an action share its flag, so that releasing one of them clears the flag
    while the other is still held. *)
Theorem last_key_event_decides (keyCode : string) (input : Player.Input) :
  Player.handleKeyUp keyCode (Player.handleKeyDown keyCode input)
  = Player.handleKeyUp keyCode input
  /\ Player.handleKeyDown keyCode (Player.handleKeyUp keyCode input)
     = Player.handleKeyDown keyCode input
  /\ Player.left (Player.handleKeyUp "KeyA" (Player.handleKeyDown "ArrowLeft" input)) = false
  /\ Player.right (Player.handleKeyUp "KeyD" (Player.handleKeyDown "ArrowRight" input)) = false.
Proof.
  split; [ | split; [ | split; reflexivity]];
    unfold Player.handleKeyUp, Player.handleKeyDown;
    repeat (match goal with
            | |- context [(keyCode =? ?s)%string] => destruct (keyCode =? s)%string
            end; cbn [orb]);
    reflexivity.
Qed.

(** ** The content pipeline *)

Module PipelineFacts.

Import GeometryGenerator ContentPipeline.

Lemma getAllSentences_mapSentences (f : Sentence -> Sentence) (content : Content) :
  getAllSentences (Some (mapSentences f content))
  = map f (getAllSentences (Some content)).
Proof.
  unfold getAllSentences, mapSentences. cbn [paragraphs].
  induction (paragraphs content) as [ | p ps IH]; [reflexivity | ].
  cbn [map flat_map paragraph_sentences]. now rewrite map_app, IH.
Qed.

Lemma find_over_app {A : Type} (f : A -> bool) (a b : list A) :
  find f (a ++ b) = match find f a with Some x => Some x | None => find f b end.
Proof.
  induction a as [ | x a IH]; [reflexivity | ].
  cbn [app find]. destruct (f x); [reflexivity | exact IH].
Qed.

Lemma find_nothing {A : Type} (f : A -> bool) (l : list A) :
  (forall x, In x l -> f x = false) -> find f l = None.
Proof.
  induction l as [ | x l IH]; intros H; [reflexivity | ].
  cbn [find]. rewrite (H x (or_introl eq_refl)). apply IH.
  intros y Hy. apply H. now right.
Qed.

(** The map built from the entries, read backwards, then [m]. *)
Lemma mapGet_fold (data : list CurvinessItem) (m : CurvinessMap) (text : string) :
  mapGet (fold_left (fun m item => mapSet m (item_sentence item) (item_curviness item))
            data m) text
  = match find (fun item => (text =? item_sentence item)%string) (rev data) with
    | Some item => Some (item_curviness item)
    | None => mapGet m text
    end.
Proof.
  revert m. induction data as [ | item rest IH]; intros m; [reflexivity | ].
  cbn [fold_left rev]. rewrite IH, find_over_app.
  destruct (find _ (rev rest)) as [found | ]; [reflexivity | ].
  cbn [find mapSet mapGet]. destruct (text =? item_sentence item)%string; reflexivity.
Qed.

Lemma merge_sentences (content : Content) (data : list CurvinessItem) :
  getAllSentences (Some (mergeCurvinessScores content data))
  = map (fun s => setCurviness s (scoreFor data (sentence_text s)))
      (getAllSentences (Some content)).
Proof.
  unfold mergeCurvinessScores. rewrite getAllSentences_mapSentences.
  apply map_ext. intros s. rewrite mapGet_fold. unfold scoreFor.
  destruct (find _ (rev data)); reflexivity.
Qed.

Lemma merge_paragraphs (content : Content) (data : list CurvinessItem) :
  map paragraph_text (paragraphs (mergeCurvinessScores content data))
  = map paragraph_text (paragraphs content)
  /\ map paragraph_index (paragraphs (mergeCurvinessScores content data))
     = map paragraph_index (paragraphs content).
Proof.
  unfold mergeCurvinessScores, mapSentences. cbn [paragraphs].
  rewrite !map_map. split; apply map_ext; reflexivity.
Qed.

(** The last entry for a text is the one that counts. *)
Lemma scoreFor_last (before after : list CurvinessItem) (item : CurvinessItem)
  (text : string) :
  item_sentence item = text ->
  Forall (fun other => item_sentence other <> text) after ->
  scoreFor (before ++ item :: after) text = item_curviness item.
Proof.
  intros Hitem Hafter. unfold scoreFor.
  rewrite rev_app_distr. cbn [rev]. rewrite <- app_assoc, find_over_app.
  assert (Hnone : find (fun other => (text =? item_sentence other)%string) (rev after) = None).
  { apply find_nothing. intros other Hin. apply in_rev in Hin.
    rewrite Forall_forall in Hafter. apply String.eqb_neq.
    intros E. now apply (Hafter other Hin). }
  rewrite Hnone. cbn [app find]. rewrite Hitem, String.eqb_refl. reflexivity.
Qed.

Lemma scoreFor_default (data : list CurvinessItem) (text : string) :
  Forall (fun other => item_sentence other <> text) data ->
  scoreFor data text = CONFIG.content.defaultCurviness.
Proof.
  intros Hnone. unfold scoreFor.
  assert (H : find (fun other => (text =? item_sentence other)%string) (rev data) = None).
  { apply find_nothing. intros other Hin. apply in_rev in Hin.
    rewrite Forall_forall in Hnone. apply String.eqb_neq.
    intros E. now apply (Hnone other Hin). }
  now rewrite H.
Qed.

(** *** The heuristic *)

Lemma heuristic_range (sentence : Sentence) (random : R) :
  0 <= random < 1 -> 2 <= heuristicCurviness sentence random <= 10.
Proof.
  intros Hr. unfold heuristicCurviness, CONFIG.content.defaultCurviness.
  destruct (Rlt_dec 15 (wordCountOf sentence)); [ | destruct (Rlt_dec (wordCountOf sentence) 5)];
    destruct (includes (sentence_text sentence) "!");
    try destruct (includes (sentence_text sentence) "?");
    unfold Rmax, Rmin; repeat destruct (Rle_dec _ _); lra.
Qed.

Lemma assignSentences_spec (rand : nat -> R) (sentences : list Sentence) :
  forall n : nat,
    snd (assignSentences rand n sentences) = (n + List.length sentences)%nat
    /\ map sentence_text (fst (assignSentences rand n sentences))
       = map sentence_text sentences
    /\ ((forall k, 0 <= rand k < 1) ->
        Forall (fun s => exists c, sentence_curviness s = Some c /\ 2 <= c <= 10)
          (fst (assignSentences rand n sentences)))
    /\ (Forall tidy sentences -> Forall tidy (fst (assignSentences rand n sentences))).
Proof.
  induction sentences as [ | s rest IH]; intros n.
  - cbn. repeat split; auto.
  - cbn [assignSentences fst snd map List.length].
    destruct (IH (S n)) as [Hn [Ht [Hc Htidy]]]. rewrite Hn, Ht.
    split; [lia | ]. split; [reflexivity | ]. split.
    + intros Hrand. constructor; [ | now apply Hc].
      eexists. split; [reflexivity | ]. apply heuristic_range, Hrand.
    + intros Hall. inversion Hall as [ | s' l Hs Hrest]; subst.
      constructor; [exact Hs | now apply Htidy].
Qed.

Lemma assignParagraphs_spec (rand : nat -> R) (ps : list Paragraph) :
  forall n : nat,
    map sentence_text (flat_map paragraph_sentences (assignParagraphs rand n ps))
    = map sentence_text (flat_map paragraph_sentences ps)
    /\ ((forall k, 0 <= rand k < 1) ->
        Forall (fun s => exists c, sentence_curviness s = Some c /\ 2 <= c <= 10)
          (flat_map paragraph_sentences (assignParagraphs rand n ps)))
    /\ (Forall tidy (flat_map paragraph_sentences ps) ->
        Forall tidy (flat_map paragraph_sentences (assignParagraphs rand n ps))).
Proof.
  induction ps as [ | p rest IH]; intros n.
  - cbn. auto.
  - cbn [assignParagraphs flat_map paragraph_sentences].
    destruct (assignSentences_spec rand (paragraph_sentences p) n) as [_ [Ht [Hc Htidy]]].
    destruct (IH (snd (assignSentences rand n (paragraph_sentences p))))
      as [IHt [IHc IHtidy]].
    rewrite !map_app, Ht, IHt. split; [reflexivity | ]. split.
    + intros Hrand. apply Forall_app. split; [now apply Hc | now apply IHc].
    + intros Hall. apply Forall_app in Hall. destruct Hall as [Ha Hb].
      apply Forall_app. split; [now apply Htidy | now apply IHtidy].
Qed.

(** *** The fallback structure *)

Lemma sentenceId_inj (i j : nat) : sentenceId i = sentenceId j -> i = j.
Proof.
  unfold sentenceId. cbn [append]. intros H. injection H as H.
  apply Unsigned.to_uint_inj.
  apply (f_equal NilEmpty.uint_of_string) in H.
  rewrite !NilEmpty.usu in H. congruence.
Qed.

Lemma structured_sentences (start : nat) (sentences : list string) :
  flat_map paragraph_sentences
    (map (fun entry =>
            {| paragraph_index := fst entry;
               paragraph_text := snd entry;
               paragraph_sentences := [sentenceData (fst entry) (snd entry)] |})
       (combine (seq start (List.length sentences)) sentences))
  = map (fun entry => sentenceData (fst entry) (snd entry))
      (combine (seq start (List.length sentences)) sentences).
Proof.
  revert start. induction sentences as [ | s rest IH]; intros start; [reflexivity | ].
  cbn [List.length seq combine map flat_map paragraph_sentences app]. now rewrite IH.
Qed.

Lemma combine_seq_texts (start : nat) (sentences : list string) :
  map (fun entry => sentence_text (sentenceData (fst entry) (snd entry)))
    (combine (seq start (List.length sentences)) sentences)
  = sentences.
Proof.
  revert start. induction sentences as [ | s rest IH]; intros start; [reflexivity | ].
  cbn [List.length seq combine map fst snd sentenceData sentence_text]. now rewrite IH.
Qed.

Lemma combine_seq_ids (start : nat) (sentences : list string) :
  map (fun entry => sentence_id (sentenceData (fst entry) (snd entry)))
    (combine (seq start (List.length sentences)) sentences)
  = map (fun i => Some (sentenceId i)) (seq start (List.length sentences)).
Proof.
  revert start. induction sentences as [ | s rest IH]; intros start; [reflexivity | ].
  cbn [List.length seq combine map fst snd sentenceData sentence_id]. now rewrite IH.
Qed.

Lemma fallback_sentences (article : ArticleContent) :
  getAllSentences (fallbackStructureContent (Some article))
  = map (fun entry => sentenceData (fst entry) (snd entry))
      (combine (seq 0 (List.length (Utils.splitIntoSentences (textOf article))))
         (Utils.splitIntoSentences (textOf article))).
Proof.
  unfold fallbackStructureContent, getAllSentences. fold (textOf article).
  cbn [paragraphs]. apply structured_sentences.
Qed.

Lemma ids_NoDup (start n : nat) :
  NoDup (map (fun i => Some (sentenceId i)) (seq start n)).
Proof.
  generalize (seq_NoDup n start).
  induction 1 as [ | i l Hi Hl IH]; cbn [map]; constructor; [ | exact IH].
  intros Hin. apply in_map_iff in Hin. destruct Hin as [j [Hj Hjl]].
  assert (Hij : j = i) by (apply sentenceId_inj; congruence).
  congruence.
Qed.

Lemma fallback_tidy (article : ArticleContent) :
  Forall tidy (getAllSentences (fallbackStructureContent (Some article))).
Proof.
  rewrite fallback_sentences.
  generalize (TextFacts.splitIntoSentences_shape (textOf article)).
  generalize (Utils.splitIntoSentences (textOf article)). intros texts Htexts.
  generalize 0%nat. induction Htexts as [ | t rest [Ht _] Hrest IH]; intros start.
  - constructor.
  - cbn [List.length seq combine map fst snd]. constructor; [ | apply IH].
    split; [exact Ht | right; reflexivity].
Qed.

Lemma assign_tidy (rand : nat -> R) (content : Content) :
  Forall tidy (getAllSentences (Some content)) ->
  Forall tidy (getAllSentences (Some (fallbackAssignCurviness rand content))).
Proof.
  unfold fallbackAssignCurviness, getAllSentences. cbn [paragraphs].
  apply (assignParagraphs_spec rand (paragraphs content) 0).
Qed.

Lemma merge_tidy (content : Content) (data : list CurvinessItem) :
  Forall tidy (getAllSentences (Some content)) ->
  Forall tidy (getAllSentences (Some (mergeCurvinessScores content data))).
Proof.
  intros Hall. rewrite merge_sentences. apply Forall_map.
  eapply Forall_impl; [ | exact Hall]. intros s Hs. exact Hs.
Qed.

(** The platform of a tidy sentence that is retained. *)
Lemma tidy_platform (clone : Mesh -> Mesh) (cache : Cache) (s : Sentence) (index : nat)
  (x y : R) :
  tidy s -> retained s = true ->
  twoUnitsPerWord (setPosition (fst (createPlatform clone cache s index)) x y).
Proof.
  intros [Htrim Hlen] Hkept. unfold twoUnitsPerWord.
  cbn [createPlatform fst setPosition userData ud_length ud_words].
  unfold retained in Hkept. apply negb_true_iff, Nat.ltb_ge in Hkept.
  unfold CONFIG.content.minSentenceLength in Hkept.
  assert (Hne : strip (sentence_text s) <> EmptyString).
  { intros E. apply TextFacts.trim_empty_iff in E. rewrite Htrim in E.
    rewrite E in Hkept. cbn in Hkept. lia. }
  assert (Hcount : Utils.countWords (sentence_text s)
                   = List.length (Utils.splitWhitespace (sentence_text s))).
  { unfold Utils.countWords. rewrite Htrim.
    destruct (sentence_text s); [now contradiction Hne | reflexivity]. }
  assert (Hwc : wordCountOf s = INR (Utils.countWords (sentence_text s))).
  { unfold wordCountOf. destruct Hlen as [-> | ->]; [reflexivity | ].
    destruct (Req_dec_T _ 0); reflexivity. }
  rewrite Hwc, Hcount. split; [lra | ]. split; [lia | ].
  rewrite <- Htrim. now apply TextFacts.split_words.
Qed.

Lemma tidy_level (clone : Mesh -> Mesh) (sentences : list Sentence) :
  Forall tidy sentences ->
  forall (cache : Cache) (index : nat) (x y : R),
    Forall twoUnitsPerWord (lay_platforms (placePlatforms clone cache index x y sentences)).
Proof.
  induction 1 as [ | s rest Hs Hrest IH]; intros cache index x y; [constructor | ].
  destruct (retained s) eqn:Hkept.
  - rewrite (LevelFacts.placePlatforms_keep _ _ _ _ _ _ _ Hkept).
    cbv zeta. cbn [lay_platforms]. constructor; [now apply tidy_platform | apply IH].
  - rewrite (LevelFacts.placePlatforms_skip _ _ _ _ _ _ _ Hkept). apply IH.
Qed.

End PipelineFacts.

(** X26.  [mergeCurvinessScores] gives every sentence a curviness and
    changes nothing else: a sentence gets the score of the last entry of
    the tone analysis that carries its text, and the default curviness
    when there is none. *)
Theorem mergeCurvinessScores_last_entry_wins (content : ContentPipeline.Content)
  (curvinessData : list ContentPipeline.CurvinessItem) :
  Forall (fun s => ~ In (GeometryGenerator.sentence_text s) ContentPipeline.inheritedKeys)
    (ContentPipeline.getAllSentences (Some content)) ->
  ContentPipeline.getAllSentences
    (Some (ContentPipeline.mergeCurvinessScores content curvinessData))
  = map (fun s => ContentPipeline.setCurviness s
                    (scoreFor curvinessData (GeometryGenerator.sentence_text s)))
      (ContentPipeline.getAllSentences (Some content))
  /\ (forall before item after,
        curvinessData = before ++ item :: after ->
        Forall (fun other => ContentPipeline.item_sentence other
                             <> ContentPipeline.item_sentence item) after ->
        scoreFor curvinessData (ContentPipeline.item_sentence item)
        = ContentPipeline.item_curviness item)
  /\ (forall text,
        Forall (fun other => ContentPipeline.item_sentence other <> text) curvinessData ->
        scoreFor curvinessData text = CONFIG.content.defaultCurviness).
Proof.
  intros _. split; [apply PipelineFacts.merge_sentences | ]. split.
  - intros before item after -> Hafter. now apply PipelineFacts.scoreFor_last.
  - intros text. apply PipelineFacts.scoreFor_default.
Qed.

Lemma mergeCurvinessScores_last_entry_wins_witness :
  ContentPipeline.getAllSentences
    (Some (ContentPipeline.mergeCurvinessScores mockBemAI mockOpenAI))
  = map (fun s => ContentPipeline.setCurviness s
                    (scoreFor mockOpenAI (GeometryGenerator.sentence_text s)))
      (ContentPipeline.getAllSentences (Some mockBemAI)).
Proof.
  apply (mergeCurvinessScores_last_entry_wins mockBemAI mockOpenAI).
  unfold mockBemAI, ContentPipeline.getAllSentences, ContentPipeline.inheritedKeys.
  cbn [ContentPipeline.paragraphs flat_map ContentPipeline.paragraph_sentences app
       GeometryGenerator.sentence_text].
  repeat constructor; cbn [In]; intuition discriminate.
Defined.

(** X27.  Whatever [Math.random] returns, the fallback heuristic gives
    every sentence a curviness between 2 and 10 and leaves the texts and
    their order as they are. *)
Theorem fallbackAssignCurviness_range (rand : nat -> R)
  (content : ContentPipeline.Content) :
  (forall k, 0 <= rand k < 1) ->
  let assigned := ContentPipeline.fallbackAssignCurviness rand content in
  map GeometryGenerator.sentence_text (ContentPipeline.getAllSentences (Some assigned))
  = map GeometryGenerator.sentence_text (ContentPipeline.getAllSentences (Some content))
  /\ Forall (fun s => exists c, GeometryGenerator.sentence_curviness s = Some c
                                /\ 2 <= c <= 10)
       (ContentPipeline.getAllSentences (Some assigned)).
Proof.
  intros Hrand. cbv zeta.
  unfold ContentPipeline.fallbackAssignCurviness, ContentPipeline.getAllSentences.
  cbn [ContentPipeline.paragraphs].
  destruct (PipelineFacts.assignParagraphs_spec rand (ContentPipeline.paragraphs content) 0)
    as [Ht [Hc _]].
  split; [exact Ht | now apply Hc].
Qed.

Lemma fallbackAssignCurviness_range_witness :
  Forall (fun s => exists c, GeometryGenerator.sentence_curviness s = Some c /\ 2 <= c <= 10)
    (ContentPipeline.getAllSentences
       (Some (ContentPipeline.fallbackAssignCurviness (fun _ => 0.5) mockBemAI))).
Proof.
  apply (fallbackAssignCurviness_range (fun _ => 0.5) mockBemAI).
  intros k. lra.
Defined.

(** X28.  The fallback structuring of an article gives one sentence
    object for each sentence [splitIntoSentences] finds in its text, in
    order and at least one; the ids are [s0], [s1], ... and differ from one
    another, and the length recorded is the word count of the text. *)
Theorem fallbackStructureContent_sentences (article : ContentPipeline.ArticleContent) :
  let sentences :=
    ContentPipeline.getAllSentences
      (ContentPipeline.fallbackStructureContent (Some article)) in
  map GeometryGenerator.sentence_text sentences = Utils.splitIntoSentences (textOf article)
  /\ sentences <> []
  /\ map GeometryGenerator.sentence_id sentences
     = map (fun i => Some (ContentPipeline.sentenceId i)) (seq 0 (List.length sentences))
  /\ NoDup (map GeometryGenerator.sentence_id sentences)
  /\ Forall (fun s => GeometryGenerator.sentence_length s
                      = Some (INR (Utils.countWords (GeometryGenerator.sentence_text s)))
                      /\ GeometryGenerator.sentence_curviness s = None)
       sentences.
Proof.
  cbv zeta. rewrite PipelineFacts.fallback_sentences.
  set (texts := Utils.splitIntoSentences (textOf article)).
  assert (Hlen : List.length
                   (map (fun entry => ContentPipeline.sentenceData (fst entry) (snd entry))
                      (combine (seq 0 (List.length texts)) texts))
                 = List.length texts).
  { rewrite length_map, length_combine, length_seq. lia. }
  split; [ | split; [ | split; [ | split]]].
  - rewrite map_map. apply PipelineFacts.combine_seq_texts.
  - intros E. rewrite E in Hlen. cbn in Hlen. symmetry in Hlen.
    apply length_zero_iff_nil in Hlen.
    now apply TextFacts.splitIntoSentences_not_nil in Hlen.
  - rewrite Hlen, map_map. apply PipelineFacts.combine_seq_ids.
  - rewrite map_map, PipelineFacts.combine_seq_ids. apply PipelineFacts.ids_NoDup.
  - apply Forall_map. apply Forall_forall. intros entry _. split; reflexivity.
Qed.

(** X29.  From the fallback structuring to the level: whichever way the
    curviness is assigned, by the heuristic or from a tone analysis, every
    platform of the level built from the sentences of the pipeline is
    exactly two units long for each of its words, and its words, at least
    three, are neither empty nor hold white space. *)
Theorem fallback_level_two_units_per_word
  (clone : GeometryGenerator.Mesh -> GeometryGenerator.Mesh)
  (cache : GeometryGenerator.Cache) (article : ContentPipeline.ArticleContent)
  (rand : nat -> R) (curvinessData : list ContentPipeline.CurvinessItem) :
  let structured := ContentPipeline.fallbackStructureContent (Some article) in
  let levelOf := fun articleData =>
    fst (GeometryGenerator.createLevel clone cache
           (ContentPipeline.getAllSentences articleData)) in
  Forall twoUnitsPerWord
    (GeometryGenerator.level_children
       (levelOf (option_map (ContentPipeline.fallbackAssignCurviness rand) structured)))
  /\ Forall twoUnitsPerWord
       (GeometryGenerator.level_children
          (levelOf (option_map
                      (fun content =>
                         ContentPipeline.mergeCurvinessScores content curvinessData)
                      structured))).
Proof.
  cbv zeta.
  unfold GeometryGenerator.createLevel. cbn [fst GeometryGenerator.level_children].
  generalize (PipelineFacts.fallback_tidy article).
  destruct (ContentPipeline.fallbackStructureContent (Some article)) as [content | ] eqn:E;
    [ | discriminate E].
  cbn [option_map]. intros Htidy.
  split; apply PipelineFacts.tidy_level.
  - now apply PipelineFacts.assign_tidy.
  - now apply PipelineFacts.merge_tidy.
Qed.

(** X30.  On a platform that is two units long for each word, an
    abscissa [x] that lies within the two units of the word [k], at least
    a thousandth of a unit away from their two ends, has the word index
    [k].  The ends themselves are left out: there the rounding of the
    division decides which of the two words is found. *)
Theorem words_are_two_units_wide (p : GeometryGenerator.Platform) (x : R) (k : Z) :
  twoUnitsPerWord p ->
  let left :=
    GeometryGenerator.position_x p
    - GeometryGenerator.ud_length (GeometryGenerator.userData p) / 2 in
  (0 <= k
   <= Z.of_nat (List.length (GeometryGenerator.ud_words (GeometryGenerator.userData p)))
      - 1)%Z ->
  2 * IZR k + 0.001 <= x - left <= 2 * IZR k + 2 - 0.001 ->
  Player.wordIndexOn p x = k.
Proof.
  intros [Hlen [Hthree _]]. cbv zeta. intros Hk Hx.
  unfold Player.wordIndexOn, Player.relativePosOn.
  rewrite Hlen, <- INR_IZR_INZ.
  assert (Hn : 3 <= INR (List.length
                           (GeometryGenerator.ud_words (GeometryGenerator.userData p)))).
  { apply le_INR in Hthree. cbn [INR] in Hthree. lra. }
  rewrite Hlen in Hx.
  set (n := INR (List.length (GeometryGenerator.ud_words (GeometryGenerator.userData p))))
    in *.
  replace ((x - (GeometryGenerator.position_x p - 2 * n / 2)) / (2 * n) * n)
    with ((x - (GeometryGenerator.position_x p - 2 * n / 2)) / 2) by (field; lra).
  rewrite (Zfloor_eq k) by lra.
  lia.
Qed.

Lemma words_are_two_units_wide_witness :
  Player.wordIndexOn platformA 2.5 = 1%Z.
Proof.
  apply (words_are_two_units_wide platformA 2.5 1).
  - unfold twoUnitsPerWord, platformA.
    cbn [GeometryGenerator.userData GeometryGenerator.ud_length GeometryGenerator.ud_words
         List.length].
    split; [cbn [INR]; lra | ]. split; [lia | ].
    repeat constructor; try discriminate; reflexivity.
  - unfold platformA.
    cbn [GeometryGenerator.userData GeometryGenerator.ud_words List.length]. lia.
  - unfold platformA.
    cbn [GeometryGenerator.userData GeometryGenerator.ud_length
         GeometryGenerator.position_x]. lra.
Defined.

(** The mock article: merging the mock scores into the mock structure
    gives the five sentences of [mockSentences], and splitting the mock
    text gives their texts. *)
Example mock_article_sentences :
  ContentPipeline.getAllSentences
    (Some (ContentPipeline.mergeCurvinessScores mockBemAI mockOpenAI))
  = mockSentences.
Proof. reflexivity. Qed.

Example mock_text_sentences :
  Utils.splitIntoSentences mockApifyText
  = map GeometryGenerator.sentence_text mockSentences.
Proof. reflexivity. Qed.
